(** * Postfix: envelope processing of the cleanup service and the
      TLS server-init attribute receiver

    A shallow embedding of

    - [src/cleanup/cleanup_envelope.c]: [cleanup_envelope] and
      [cleanup_envelope_process], the per-record handler of the envelope
      segment of a queue file;
    - [src/tls/tls_proxy_server_init_scan.c]: [tls_proxy_server_init_scan]
      and [tls_proxy_server_init_free];
    - [src/tls/tls_proxy_client_start_print.c]:
      [tls_proxy_client_start_print];
    - [src/global/mail_flush.c]: the client of the flush service;
    - [src/smtpd/smtpd_sasl_glue.c]: [smtpd_sasl_authenticate] and
      [smtpd_sasl_logout].

    The C code mutates a [CLEANUP_STATE] through a pointer; here every
    function takes the state and returns the updated state.  Integers are
    [Z], with the range of the C type written out where the code computes
    with them: [atol] stays within [long], the sum of two time stamps
    wraps around as a [time_t], and a [long] stored in an [int] is reduced
    to 32 bits.  [char *] values that may be null are [option string]. *)

From Stdlib Require Import ZArith String Ascii List Lia.
From stdpp Require Import base tactics option strings gmap list fin_maps.

Local Open Scope Z_scope.

(** ** The C library's [atol] and integer conversions *)

Module Libc.

(** [isspace] in the C locale: space, and the controls 9 to 13. *)
Definition isspace (c : ascii) : bool :=
  let n := Z.of_nat (nat_of_ascii c) in
  (n =? 32) || ((9 <=? n) && (n <=? 13)).

Definition digit_of (c : ascii) : option Z :=
  let n := Z.of_nat (nat_of_ascii c) in
  if (48 <=? n) && (n <=? 57) then Some (n - 48) else None.

Fixpoint skip_space (s : string) : string :=
  match s with
  | String c s' => if isspace c then skip_space s' else s
  | EmptyString => s
  end.

(** The longest prefix of decimal digits, read left to right. *)
Fixpoint digits (acc : Z) (s : string) : Z :=
  match s with
  | String c s' =>
      match digit_of c with
      | Some d => digits (10 * acc + d) s'
      | None => acc
      end
  | EmptyString => acc
  end.

(** The range of a 64-bit [long], which is also the range of [time_t]. *)
Definition LONG_MAX : Z := 2 ^ 63 - 1.
Definition LONG_MIN : Z := - 2 ^ 63.

(** What [strtol] returns for a value that does not fit a [long]:
    [LONG_MAX] or [LONG_MIN], by the sign. *)
Definition strtol_range (z : Z) : Z :=
  if z >? LONG_MAX then LONG_MAX
  else if z <? LONG_MIN then LONG_MIN
  else z.

(** [atol], which the C library implements as [strtol(s, 0, 10)]: leading
    white space, an optional sign, decimal digits; the conversion stops at
    the first other character and a string without digits converts to
    zero.  A value outside the range of [long] is replaced by [LONG_MAX]
    or [LONG_MIN]. *)
Definition atol (s : string) : Z :=
  strtol_range
    match skip_space s with
    | String "-"%char s' => - digits 0 s'
    | String "+"%char s' => digits 0 s'
    | s' => digits 0 s'
    end.

(** Conversion of a [long] to a 32-bit [int], as in [int x = atol(buf)]:
    the value is reduced modulo 2^32 into [-2^31, 2^31). *)
Definition to_int (z : Z) : Z := (z + 2 ^ 31) mod 2 ^ 32 - 2 ^ 31.

(** The result of an addition of [long] (or [time_t]) values, as the
    machine computes it: reduced modulo 2^64 into [LONG_MIN, LONG_MAX]. *)
Definition to_long (z : Z) : Z := (z + 2 ^ 63) mod 2 ^ 64 - 2 ^ 63.

End Libc.

(** ** Envelope records: [cleanup_envelope.c] *)

Module Cleanup.

Import Libc.

(** Record types.  [rec_type.h] gives every type its own character code,
    so the tests [type == REC_TYPE_X] of the C code are a case analysis on
    the type; [REC_TYPE_OTHER c] is any code without a name here. *)
Inductive rec_type : Set :=
| REC_TYPE_SIZE | REC_TYPE_TIME | REC_TYPE_FULL | REC_TYPE_FROM
| REC_TYPE_RCPT | REC_TYPE_DONE | REC_TYPE_WARN | REC_TYPE_VERP
| REC_TYPE_ATTR | REC_TYPE_ORCP | REC_TYPE_FLGS | REC_TYPE_MESG
| REC_TYPE_OTHER (c : Z).

#[global] Instance rec_type_eq_dec : EqDecision rec_type.
Proof. solve_decision. Defined.

(** The handler a state points to ([state->action]). *)
Inductive CLEANUP_ACTION : Set :=
| ACTION_cleanup_envelope
| ACTION_cleanup_envelope_process
| ACTION_cleanup_message.

#[global] Instance CLEANUP_ACTION_eq_dec : EqDecision CLEANUP_ACTION.
Proof. solve_decision. Defined.

(** A record handed to the record sink: a call of [cleanup_out] or of
    [cleanup_out_format] (with the integer arguments of the format). *)
Inductive sink_record : Set :=
| Out (type : rec_type) (buf : string) (len : Z)
| OutFormat (type : rec_type) (args : list Z).

#[global] Instance sink_record_eq_dec : EqDecision sink_record.
Proof. solve_decision. Defined.

(** The calls of [msg_warn] made by the handler, with their arguments.
    ([msg_info] under [msg_verbose] is diagnostic output only and is not
    part of the model.) *)
Inductive warning : Set :=
| WARN_missing_sender_or_time (queue_id : string)
| WARN_bad_extra_flags (queue_id : string) (extra_flags : Z)
| WARN_unexpected_record_type (queue_id : string) (type : rec_type)
| WARN_out_of_order_orig_rcpt (queue_id : string) (orig_rcpt : string)
| WARN_too_many_senders (queue_id : string)
| WARN_recipient_precedes_sender (queue_id : string)
| WARN_bad_verp_delimiters (queue_id : string) (buf : string)
| WARN_attr_count_limit (queue_id : string) (limit : Z)
| WARN_malformed_attribute (queue_id : string) (error_text buf : string).

(** [CLEANUP_STATE], restricted to the members the envelope handler reads
    or writes.  [dst] lists, in order, the records handed to the record
    sink so far, and [log] the warnings logged so far. *)
Record CLEANUP_STATE : Type := mkState {
  queue_id : string;
  flags : Z;
  errs : Z;
  time : Z;                      (* time_t; 0 when no TIME record was seen *)
  warn_time : Z;                 (* time_t; 0 when not set *)
  sender : option string;        (* char *; None is the null pointer *)
  fullname : option string;
  orig_rcpt : option string;
  attr : gmap string string;     (* NVTABLE; attr->used is its size *)
  action : CLEANUP_ACTION;
  dst : list sink_record;
  log : list warning
}.

Definition set_flags (v : Z) (s : CLEANUP_STATE) : CLEANUP_STATE :=
  mkState (queue_id s) v (errs s) (time s) (warn_time s) (sender s)
    (fullname s) (orig_rcpt s) (attr s) (action s) (dst s) (log s).
Definition set_errs (v : Z) (s : CLEANUP_STATE) : CLEANUP_STATE :=
  mkState (queue_id s) (flags s) v (time s) (warn_time s) (sender s)
    (fullname s) (orig_rcpt s) (attr s) (action s) (dst s) (log s).
Definition set_time (v : Z) (s : CLEANUP_STATE) : CLEANUP_STATE :=
  mkState (queue_id s) (flags s) (errs s) v (warn_time s) (sender s)
    (fullname s) (orig_rcpt s) (attr s) (action s) (dst s) (log s).
Definition set_warn_time (v : Z) (s : CLEANUP_STATE) : CLEANUP_STATE :=
  mkState (queue_id s) (flags s) (errs s) (time s) v (sender s)
    (fullname s) (orig_rcpt s) (attr s) (action s) (dst s) (log s).
Definition set_sender (v : option string) (s : CLEANUP_STATE)
  : CLEANUP_STATE :=
  mkState (queue_id s) (flags s) (errs s) (time s) (warn_time s) v
    (fullname s) (orig_rcpt s) (attr s) (action s) (dst s) (log s).
Definition set_fullname (v : option string) (s : CLEANUP_STATE)
  : CLEANUP_STATE :=
  mkState (queue_id s) (flags s) (errs s) (time s) (warn_time s) (sender s)
    v (orig_rcpt s) (attr s) (action s) (dst s) (log s).
Definition set_orig_rcpt (v : option string) (s : CLEANUP_STATE)
  : CLEANUP_STATE :=
  mkState (queue_id s) (flags s) (errs s) (time s) (warn_time s) (sender s)
    (fullname s) v (attr s) (action s) (dst s) (log s).
Definition set_attr (v : gmap string string) (s : CLEANUP_STATE)
  : CLEANUP_STATE :=
  mkState (queue_id s) (flags s) (errs s) (time s) (warn_time s) (sender s)
    (fullname s) (orig_rcpt s) v (action s) (dst s) (log s).
Definition set_action (v : CLEANUP_ACTION) (s : CLEANUP_STATE)
  : CLEANUP_STATE :=
  mkState (queue_id s) (flags s) (errs s) (time s) (warn_time s) (sender s)
    (fullname s) (orig_rcpt s) (attr s) v (dst s) (log s).
Definition set_dst (v : list sink_record) (s : CLEANUP_STATE)
  : CLEANUP_STATE :=
  mkState (queue_id s) (flags s) (errs s) (time s) (warn_time s) (sender s)
    (fullname s) (orig_rcpt s) (attr s) (action s) v (log s).
Definition set_log (v : list warning) (s : CLEANUP_STATE) : CLEANUP_STATE :=
  mkState (queue_id s) (flags s) (errs s) (time s) (warn_time s) (sender s)
    (fullname s) (orig_rcpt s) (attr s) (action s) (dst s) v.

(** What the handler uses and [cleanup_envelope.c] does not define:
    configuration parameters ([mail_params.h]), macros of
    [cleanup_user.h] and [rec_type.h], and the functions it calls in
    other modules.  [in_REC_TYPE_ENVELOPE type] is the outcome of
    [strchr(REC_TYPE_ENVELOPE, type) != 0]; [verp_delims_verify] returns
    [None] for the C function's 0 (delimiters accepted) and the error text
    otherwise; [split_nameval] returns the error text or the name and the
    value.  The two address rewriters receive the whole state. *)
Class cleanup_env : Type := {
  var_delay_warn_time : Z;
  var_qattr_count_limit : Z;
  CLEANUP_STAT_BAD : Z;
  CLEANUP_FLAG_MASK_EXTRA : Z;
  in_REC_TYPE_ENVELOPE : rec_type -> bool;
  verp_delims_verify : string -> option string;
  split_nameval : string -> string + string * string;
  cleanup_addr_sender : CLEANUP_STATE -> string -> CLEANUP_STATE;
  cleanup_addr_recipient : CLEANUP_STATE -> string -> CLEANUP_STATE
}.

Section Envelope.

Context {env : cleanup_env}.

(** Modelled from the spec: [msg_warn] (the logging library, not part of
    these sources) records a warning and changes nothing else. *)
Definition msg_warn (w : warning) (state : CLEANUP_STATE) : CLEANUP_STATE :=
  set_log (log state ++ [w]) state.

(** Modelled from the spec: the record sink, [cleanup_out] and
    [cleanup_out_format] (another module), accepts a typed record and
    appends it to the output; the handler writes through it only. *)
Definition cleanup_out (state : CLEANUP_STATE) (type : rec_type)
    (buf : string) (len : Z) : CLEANUP_STATE :=
  set_dst (dst state ++ [Out type buf len]) state.

Definition cleanup_out_format (state : CLEANUP_STATE) (type : rec_type)
    (args : list Z) : CLEANUP_STATE :=
  set_dst (dst state ++ [OutFormat type args]) state.

(** [state->errs |= CLEANUP_STAT_BAD] *)
Definition flag_bad (state : CLEANUP_STATE) : CLEANUP_STATE :=
  set_errs (Z.lor (errs state) CLEANUP_STAT_BAD) state.

(** Lines 153-161: a pending original recipient that is not followed by a
    recipient record is dropped, with a warning unless the record is a
    DONE record. *)
Definition drop_orphan_orig_rcpt (state : CLEANUP_STATE) (type : rec_type)
  : CLEANUP_STATE :=
  if decide (type = REC_TYPE_RCPT) then state
  else
    match orig_rcpt state with
    | Some o =>
        let state :=
          if decide (type = REC_TYPE_DONE) then state
          else msg_warn (WARN_out_of_order_orig_rcpt (queue_id state) o) state
        in
        set_orig_rcpt None state
    | None => state
    end.

(** [cleanup_envelope_process]: process one envelope record. *)
Definition cleanup_envelope_process (state : CLEANUP_STATE)
    (type : rec_type) (buf : string) (len : Z) : CLEANUP_STATE :=
  match type with
  | REC_TYPE_MESG =>
      if bool_decide (sender state = None) || (time state =? 0) then
        flag_bad (msg_warn (WARN_missing_sender_or_time (queue_id state)) state)
      else
        let state :=
          if (warn_time state =? 0) && (var_delay_warn_time >? 0)
          then set_warn_time (to_long (time state + var_delay_warn_time))
                 state
          else state in
        let state :=
          if negb (warn_time state =? 0)
          then cleanup_out_format state REC_TYPE_WARN [warn_time state]
          else state in
        set_action ACTION_cleanup_message state
  | REC_TYPE_FLGS =>
      let extra_flags := to_int (atol buf) in
      if negb (Z.land extra_flags (Z.lnot CLEANUP_FLAG_MASK_EXTRA) =? 0)
      then msg_warn (WARN_bad_extra_flags (queue_id state) extra_flags) state
      else set_flags (Z.lor (flags state) extra_flags) state
  | _ =>
      if negb (in_REC_TYPE_ENVELOPE type) then
        flag_bad
          (msg_warn (WARN_unexpected_record_type (queue_id state) type) state)
      else
        let state := drop_orphan_orig_rcpt state type in
        match type with
        | REC_TYPE_TIME =>
            cleanup_out (set_time (atol buf) state) type buf len
        | REC_TYPE_FULL =>
            set_fullname (Some buf) state
        | REC_TYPE_FROM =>
            match sender state with
            | Some _ =>
                flag_bad
                  (msg_warn (WARN_too_many_senders (queue_id state)) state)
            | None => cleanup_addr_sender state buf
            end
        | REC_TYPE_RCPT =>
            match sender state with
            | None =>
                flag_bad
                  (msg_warn (WARN_recipient_precedes_sender (queue_id state))
                     state)
            | Some _ =>
                let state :=
                  match orig_rcpt state with
                  | None => set_orig_rcpt (Some buf) state
                  | Some _ => state
                  end in
                let state := cleanup_addr_recipient state buf in
                set_orig_rcpt None state
            end
        | REC_TYPE_DONE => state
        | REC_TYPE_WARN =>
            let state := set_warn_time (atol buf) state in
            if warn_time state <? 0 then flag_bad state else state
        | REC_TYPE_VERP =>
            match sender state with
            | None => flag_bad state
            | Some EmptyString => flag_bad state
            | Some _ =>
                match verp_delims_verify buf with
                | None => cleanup_out state type buf len
                | Some _ =>
                    flag_bad
                      (msg_warn (WARN_bad_verp_delimiters (queue_id state) buf)
                         state)
                end
            end
        | REC_TYPE_ATTR =>
            if Z.of_nat (size (attr state)) >=? var_qattr_count_limit then
              flag_bad
                (msg_warn
                   (WARN_attr_count_limit (queue_id state)
                      var_qattr_count_limit) state)
            else
              let state := cleanup_out state type buf len in
              match split_nameval buf with
              | inl error_text =>
                  flag_bad
                    (msg_warn
                       (WARN_malformed_attribute (queue_id state) error_text
                          buf) state)
              | inr (attr_name, attr_value) =>
                  set_attr (<[attr_name := attr_value]> (attr state)) state
              end
        | REC_TYPE_ORCP =>
            set_orig_rcpt (Some buf) state
        | _ =>
            cleanup_out state type buf len
        end
  end.

(** [cleanup_envelope]: the size record goes first, then control passes
    to [cleanup_envelope_process]. *)
Definition cleanup_envelope (state : CLEANUP_STATE) (type : rec_type)
    (str : string) (len : Z) : CLEANUP_STATE :=
  let state := cleanup_out_format state REC_TYPE_SIZE [0; 0; 0] in
  let state := set_action ACTION_cleanup_envelope_process state in
  cleanup_envelope_process state type str len.

(** One record of the incoming stream: type, content, content length. *)
Definition record : Type := rec_type * string * Z.

(** Modelled from the spec: the caller of the handlers is not part of
    these sources; it hands every record to the handler [state->action]
    points to, first [cleanup_envelope], which installs
    [cleanup_envelope_process].  Once the envelope handler has installed
    the content handler ([cleanup_message], another module) the remaining
    records are not envelope records any more and are left alone here. *)
Definition cleanup_record (state : CLEANUP_STATE) (r : record)
  : CLEANUP_STATE :=
  let '(type, buf, len) := r in
  match action state with
  | ACTION_cleanup_envelope => cleanup_envelope state type buf len
  | ACTION_cleanup_envelope_process =>
      cleanup_envelope_process state type buf len
  | ACTION_cleanup_message => state
  end.

Definition cleanup_records (state : CLEANUP_STATE) (rs : list record)
  : CLEANUP_STATE :=
  fold_left cleanup_record rs state.

(** A stream of attribute records, given by content and length. *)
Definition attr_records (rs : list (string * Z)) : list record :=
  map (fun r => (REC_TYPE_ATTR, r.1, r.2)) rs.

(** [errs & CLEANUP_STAT_BAD]: the bits of the flag are set in [errs]. *)
Definition bad (state : CLEANUP_STATE) : Prop :=
  Z.land (errs state) CLEANUP_STAT_BAD = CLEANUP_STAT_BAD.

(** What the sign of the warning time depends on in a rewriter: it
    leaves both time stamps alone and does not clear the error flag. *)
Definition rewriter_keeps_times
    (rewrite : CLEANUP_STATE -> string -> CLEANUP_STATE) : Prop :=
  forall (state : CLEANUP_STATE) (buf : string),
    time (rewrite state buf) = time state /\
    warn_time (rewrite state buf) = warn_time state /\
    (bad state -> bad (rewrite state buf)).

(** An arrival time from which line 126 computes a warning time that is
    not negative: it is not negative itself and, when a delay is
    configured, adding the delay stays within the range of [time_t]. *)
Definition time_fits (t : Z) : Prop :=
  0 <= t /\ (0 < var_delay_warn_time -> t + var_delay_warn_time <= LONG_MAX).

(** The warning time is not negative unless the message is bad, and the
    arrival time is one that keeps it so. *)
Definition warn_time_ok (state : CLEANUP_STATE) : Prop :=
  time_fits (time state) /\ (0 <= warn_time state \/ bad state).

(** A rewriter that leaves the arrival time alone. *)
Definition rewriter_keeps_time
    (rewrite : CLEANUP_STATE -> string -> CLEANUP_STATE) : Prop :=
  forall (state : CLEANUP_STATE) (buf : string),
    time (rewrite state buf) = time state.

(** What a rewriter may be known to respect.  Each is a property of the
    function passed for [cleanup_addr_sender] or [cleanup_addr_recipient]:
    it writes to the sink by appending, it clears no error bit, it leaves
    the flags alone, it leaves the sender alone. *)
Definition rewriter_appends
    (rewrite : CLEANUP_STATE -> string -> CLEANUP_STATE) : Prop :=
  forall (state : CLEANUP_STATE) (buf : string),
    exists l, dst (rewrite state buf) = dst state ++ l.

Definition rewriter_keeps_errs
    (rewrite : CLEANUP_STATE -> string -> CLEANUP_STATE) : Prop :=
  forall (state : CLEANUP_STATE) (buf : string) (n : Z),
    Z.testbit (errs state) n = true ->
    Z.testbit (errs (rewrite state buf)) n = true.

Definition rewriter_keeps_flags
    (rewrite : CLEANUP_STATE -> string -> CLEANUP_STATE) : Prop :=
  forall (state : CLEANUP_STATE) (buf : string),
    flags (rewrite state buf) = flags state.

Definition rewriter_keeps_sender
    (rewrite : CLEANUP_STATE -> string -> CLEANUP_STATE) : Prop :=
  forall (state : CLEANUP_STATE) (buf : string),
    sender (rewrite state buf) = sender state.

Definition rewriter_keeps_action
    (rewrite : CLEANUP_STATE -> string -> CLEANUP_STATE) : Prop :=
  forall (state : CLEANUP_STATE) (buf : string),
    action (rewrite state buf) = action state.

End Envelope.

(** Modelled from the spec: [cleanup_state_alloc] is not part of these
    sources; the data model gives every member its value at construction:
    no flags, no errors, no time stamps, no sender, full name or pending
    original recipient, an empty attribute table, and [cleanup_envelope]
    as the first handler. *)
Definition cleanup_state_alloc (queue_id : string) : CLEANUP_STATE :=
  mkState queue_id 0 0 0 0 None None None ∅ ACTION_cleanup_envelope [] [].

(** *** A concrete environment

    Used to run the handler on examples.  Each member is the simplest
    function that meets the words of the specification. *)
Module Demo.

Definition slen (s : string) : Z := Z.of_nat (String.length s).

(** Modelled from the spec: [split_nameval] (another module) splits the
    content at its first [=] into name and value; a missing [=] and an
    empty name are errors. *)
Fixpoint split_at_eq (s : string) : option (string * string) :=
  match s with
  | EmptyString => None
  | String c s' =>
      if Ascii.eqb c "="%char then Some (EmptyString, s')
      else
        match split_at_eq s' with
        | Some (n, v) => Some (String c n, v)
        | None => None
        end
  end.

Definition split_nameval (s : string) : string + string * string :=
  match split_at_eq s with
  | None => inl "missing '=' after attribute name"%string
  | Some (EmptyString, _) => inl "missing attribute name"%string
  | Some nv => inr nv
  end.

(** Modelled from the spec: the delimiters are two characters, both from
    the allowed set (here the characters [+] and [=]). *)
Definition verp_delim_ok (c : ascii) : bool :=
  Ascii.eqb c "+"%char || Ascii.eqb c "="%char.

Definition verp_delims_verify (s : string) : option string :=
  match s with
  | String a (String b EmptyString) =>
      if negb (verp_delim_ok a)
      then Some "bad first VERP delimiter character"%string
      else if negb (verp_delim_ok b)
      then Some "bad second VERP delimiter character"%string
      else None
  | _ => Some "bad VERP delimiter character count"%string
  end.

(** Modelled from the spec: the sender rewriter sets [sender] to the
    canonical address (here the address itself) and emits the sender
    record. *)
Definition cleanup_addr_sender (state : CLEANUP_STATE) (buf : string)
  : CLEANUP_STATE :=
  set_dst (dst state ++ [Out REC_TYPE_FROM buf (slen buf)])
    (set_sender (Some buf) state).

(** Modelled from the spec: the recipient rewriter emits, for the
    recipient (here without expansion), the original recipient taken from
    [orig_rcpt] followed by the recipient record. *)
Definition cleanup_addr_recipient (state : CLEANUP_STATE) (buf : string)
  : CLEANUP_STATE :=
  let orcp :=
    match orig_rcpt state with
    | Some o => [Out REC_TYPE_ORCP o (slen o)]
    | None => []
    end in
  set_dst (dst state ++ orcp ++ [Out REC_TYPE_RCPT buf (slen buf)]) state.

(** Modelled from the spec: the envelope set is every record type except
    the boundary marker; the flags record is handled before the
    membership test either way.  The test is a [strchr], which also finds
    the null character that ends the set, so the code 0 passes it. *)
Definition in_REC_TYPE_ENVELOPE (t : rec_type) : bool :=
  match t with
  | REC_TYPE_MESG | REC_TYPE_FLGS => false
  | REC_TYPE_OTHER c => c =? 0
  | _ => true
  end.

(** Delay warning after four hours, at most two attributes, the error
    flag in bit 0 and two extra flags (bits 2 and 3) accepted from the
    client. *)
Definition env : cleanup_env := {|
  var_delay_warn_time := 14400;
  var_qattr_count_limit := 2;
  CLEANUP_STAT_BAD := 1;
  CLEANUP_FLAG_MASK_EXTRA := 12;
  Cleanup.in_REC_TYPE_ENVELOPE := in_REC_TYPE_ENVELOPE;
  Cleanup.verp_delims_verify := verp_delims_verify;
  Cleanup.split_nameval := split_nameval;
  Cleanup.cleanup_addr_sender := cleanup_addr_sender;
  Cleanup.cleanup_addr_recipient := cleanup_addr_recipient
|}.

Definition rec (t : rec_type) (buf : string) : record := (t, buf, slen buf).

(** A state in the middle of an envelope: time stamp and sender known. *)
Definition mid_envelope : CLEANUP_STATE :=
  mkState "QID" 0 0 1700000000 0 (Some "alice@example"%string) None None ∅
    ACTION_cleanup_envelope_process [OutFormat REC_TYPE_SIZE [0; 0; 0]] [].

(** A state as [cleanup_state_alloc] returns it. *)
Definition fresh_state : CLEANUP_STATE := cleanup_state_alloc "QID".

(** The handlers in this environment. *)
Definition records : CLEANUP_STATE -> list record -> CLEANUP_STATE :=
  @cleanup_records env.

Definition process
  : CLEANUP_STATE -> rec_type -> string -> Z -> CLEANUP_STATE :=
  @cleanup_envelope_process env.

End Demo.

End Cleanup.


(** ** The TLS server-init receiver: [tls_proxy_server_init_scan.c] *)

Module TlsProxy.

(** The string members of [TLS_SERVER_INIT_PROPS], in the order in which
    the receiver allocates, exports and frees them, and the integer
    members. *)
Inductive str_field : Set :=
| log_param | log_level | cache_type | cert_file | key_file | dcert_file
| dkey_file | eccert_file | eckey_file | CAfile | CApath | protocols
| eecdh_grade | dh1024_param_file | dh512_param_file | mdalg.

Inductive int_field : Set := verifydepth | set_sessid | ask_ccert.

#[global] Instance str_field_eq_dec : EqDecision str_field.
Proof. solve_decision. Defined.
#[global] Instance int_field_eq_dec : EqDecision int_field.
Proof. solve_decision. Defined.

Definition str_fields : list str_field :=
  [log_param; log_level; cache_type; cert_file; key_file; dcert_file;
   dkey_file; eccert_file; eckey_file; CAfile; CApath; protocols;
   eecdh_grade; dh1024_param_file; dh512_param_file; mdalg].

(** Addresses of allocated blocks; a pointer that may be null is an
    [option addr]. *)
Definition addr : Set := positive.

(** The structure: a pointer per string member, a value per integer
    member. *)
Record TLS_SERVER_INIT_PROPS : Set := mkProps {
  str_member : str_field -> option addr;
  int_member : int_field -> Z
}.

(** What a block of the heap holds: nothing yet ([mymalloc]), a VSTRING
    with its buffer, a character string that [myfree] releases (what
    [vstring_export] leaves of a VSTRING), or the structure. *)
Inductive block : Set :=
| Uninit
| Vstring (s : string)
| Chars (s : string)
| Struct (p : TLS_SERVER_INIT_PROPS).

Abbreviation heap := (gmap addr block).

(** Heap operations either fail (a pointer that is null or does not point
    to a block of the right kind) or return a value and the new heap. *)
Definition M (A : Type) : Type := heap -> option (A * heap).

Definition ret {A : Type} (x : A) : M A := fun h => Some (x, h).

Definition bind {A B : Type} (m : M A) (k : A -> M B) : M B :=
  fun h => match m h with
           | Some (x, h') => k x h'
           | None => None
           end.

Definition fault {A : Type} : M A := fun _ => None.

Notation "'let*' x ':=' m 'in' k" := (bind m (fun x => k))
  (at level 10, x pattern, m at level 100, k at level 200).

(** Modelled from the spec: [mymalloc] (the memory manager is not part of
    these sources) returns a block at an address that is not in use;
    running out of memory is fatal and does not return. *)
Definition mymalloc : M addr :=
  fun h => let a := fresh (dom h) in Some (a, <[a := Uninit]> h).

(** Modelled from the spec: [myfree] releases an allocated block; the
    pointer must point to one. *)
Definition myfree (p : option addr) : M unit :=
  fun h => match p with
           | Some a =>
               match h !! a with
               | Some _ => Some (tt, delete a h)
               | None => None
               end
           | None => None
           end.

(** Modelled from the spec: [vstring_alloc(len)] (the string library is
    not part of these sources) returns a new VSTRING in which no text has
    been stored yet (the empty text here). *)
Definition vstring_alloc (len : Z) : M addr :=
  fun h => let a := fresh (dom h) in
           Some (a, <[a := Vstring EmptyString]> h).

(** Modelled from the spec: the reader stores the text it received in
    the VSTRING given as target. *)
Definition vstring_strcpy (v : addr) (s : string) : M unit :=
  fun h => match h !! v with
           | Some (Vstring _) => Some (tt, <[v := Vstring s]> h)
           | _ => None
           end.

(** Modelled from the spec: [vstring_export] gives up the VSTRING and
    returns its buffer as a string that the caller owns and releases with
    [myfree]. *)
Definition vstring_export (v : addr) : M addr :=
  fun h => match h !! v with
           | Some (Vstring s) => Some (v, <[v := Chars s]> h)
           | _ => None
           end.

(** [memset(props, 0, sizeof( *props))] *)
Definition props_zero : TLS_SERVER_INIT_PROPS :=
  mkProps (fun _ => None) (fun _ => 0).

Definition memset_props (props : addr) : M unit :=
  fun h => match h !! props with
           | Some _ => Some (tt, <[props := Struct props_zero]> h)
           | None => None
           end.

Definition load_props (props : addr) : M TLS_SERVER_INIT_PROPS :=
  fun h => match h !! props with
           | Some (Struct p) => Some (p, h)
           | _ => None
           end.

(** Assignment to one member. *)
Definition update {F V : Type} `{EqDecision F} (f : F) (v : V) (m : F -> V)
  : F -> V :=
  fun g => if decide (g = f) then v else m g.

(** [props->f = a] for a string member and [props->f = z] for an integer
    member. *)
Definition set_str_member (props : addr) (f : str_field) (a : addr)
  : M unit :=
  let* p := load_props props in
  fun h =>
    let p' := mkProps (update f (Some a) (str_member p)) (int_member p) in
    Some (tt, <[props := Struct p']> h).

Definition set_int_member (props : addr) (f : int_field) (z : Z) : M unit :=
  let* p := load_props props in
  fun h =>
    let p' := mkProps (str_member p) (update f z (int_member p)) in
    Some (tt, <[props := Struct p']> h).

(** The attribute requests handed to the scan function. *)
Inductive recv_attr : Set :=
| RECV_ATTR_STR (f : str_field)
| RECV_ATTR_INT (f : int_field).

Definition server_init_attrs : list recv_attr :=
  [RECV_ATTR_STR log_param; RECV_ATTR_STR log_level;
   RECV_ATTR_INT verifydepth; RECV_ATTR_STR cache_type;
   RECV_ATTR_INT set_sessid; RECV_ATTR_STR cert_file;
   RECV_ATTR_STR key_file; RECV_ATTR_STR dcert_file;
   RECV_ATTR_STR dkey_file; RECV_ATTR_STR eccert_file;
   RECV_ATTR_STR eckey_file; RECV_ATTR_STR CAfile; RECV_ATTR_STR CApath;
   RECV_ATTR_STR protocols; RECV_ATTR_STR eecdh_grade;
   RECV_ATTR_STR dh1024_param_file; RECV_ATTR_STR dh512_param_file;
   RECV_ATTR_INT ask_ccert; RECV_ATTR_STR mdalg].

#[global] Instance recv_attr_eq_dec : EqDecision recv_attr.
Proof. solve_decision. Defined.

(** What a scan function did with the requests: the number of attributes
    it read, and for every target the value it stored there, if any. *)
Record scan_result : Type := mkScan {
  scan_ret : Z;
  scan_str : str_field -> option string;
  scan_int : int_field -> option Z
}.

Section Scan.

(** The stream type and the flag are declared in other headers; the scan
    function is an argument of the receiver. *)
Variable VSTREAM : Type.
Variable ATTR_FLAG_MORE : Z.

Definition ATTR_SCAN_MASTER_FN : Type :=
  VSTREAM -> Z -> list recv_attr -> scan_result.

(** Lines 70-85: one VSTRING per string member. *)
Fixpoint vstring_alloc_each (fs : list str_field)
  : M (list (str_field * addr)) :=
  match fs with
  | [] => ret []
  | f :: fs' =>
      let* v := vstring_alloc 25 in
      let* vs := vstring_alloc_each fs' in
      ret ((f, v) :: vs)
  end.

(** The effect of the scan on its string targets. *)
Fixpoint store_scanned (r : scan_result) (vs : list (str_field * addr))
  : M unit :=
  match vs with
  | [] => ret tt
  | (f, v) :: vs' =>
      let* _ := match scan_str r f with
                | Some s => vstring_strcpy v s
                | None => ret tt
                end in
      store_scanned r vs'
  end.

(** ... and on its integer targets, which are members of the structure. *)
Fixpoint store_scanned_int (r : scan_result) (props : addr)
    (fs : list int_field) : M unit :=
  match fs with
  | [] => ret tt
  | f :: fs' =>
      let* _ := match scan_int r f with
                | Some z => set_int_member props f z
                | None => ret tt
                end in
      store_scanned_int r props fs'
  end.

(** Lines 112-127: [props->f = vstring_export(f)] for every string
    member. *)
Fixpoint export_each (props : addr) (vs : list (str_field * addr))
  : M unit :=
  match vs with
  | [] => ret tt
  | (f, v) :: vs' =>
      let* a := vstring_export v in
      let* _ := set_str_member props f a in
      export_each props vs'
  end.

(** [tls_proxy_server_init_scan]: the result is the return value together
    with the pointer stored through [ptr]. *)
Definition tls_proxy_server_init_scan (scan_fn : ATTR_SCAN_MASTER_FN)
    (fp : VSTREAM) (flags : Z) : M (Z * addr) :=
  let* props := mymalloc in
  let* vs := vstring_alloc_each str_fields in
  let* _ := memset_props props in
  let r := scan_fn fp (Z.lor flags ATTR_FLAG_MORE) server_init_attrs in
  let* _ := store_scanned r vs in
  let* _ := store_scanned_int r props [verifydepth; set_sessid; ask_ccert] in
  let* _ := export_each props vs in
  ret (if scan_ret r =? 19 then 1 else -1, props).

(** Lines 136-151: the string members are freed one by one. *)
Fixpoint myfree_each (p : TLS_SERVER_INIT_PROPS) (fs : list str_field)
  : M unit :=
  match fs with
  | [] => ret tt
  | f :: fs' =>
      let* _ := myfree (str_member p f) in
      myfree_each p fs'
  end.

(** [tls_proxy_server_init_free] *)
Definition tls_proxy_server_init_free (props : addr) : M unit :=
  let* p := load_props props in
  let* _ := myfree_each p str_fields in
  myfree (Some props).

(** The bundle at [props] is complete in heap [h]: the structure is
    there, and every string member points to a string of its own. *)
Definition fully_constructed (h : heap) (props : addr) : Prop :=
  exists p : TLS_SERVER_INIT_PROPS,
    h !! props = Some (Struct p) /\
    (forall f, exists a s,
        str_member p f = Some a /\ a <> props /\
        h !! a = Some (Chars s)) /\
    (forall f g, str_member p f = str_member p g -> f = g).

End Scan.

(** *** A concrete scan

    [scan_fn n] reads the first [n] attributes of the request list: it
    stores the name of the member in every string target it reaches and
    the number 9 in every integer target. *)
Module Demo.

Definition member_name (f : str_field) : string :=
  match f with
  | log_param => "log_param" | log_level => "log_level"
  | cache_type => "cache_type" | cert_file => "cert_file"
  | key_file => "key_file" | dcert_file => "dcert_file"
  | dkey_file => "dkey_file" | eccert_file => "eccert_file"
  | eckey_file => "eckey_file" | CAfile => "CAfile" | CApath => "CApath"
  | protocols => "protocols" | eecdh_grade => "eecdh_grade"
  | dh1024_param_file => "dh1024_param_file"
  | dh512_param_file => "dh512_param_file" | mdalg => "mdalg"
  end%string.

Definition scan_fn (n : nat) : ATTR_SCAN_MASTER_FN unit :=
  fun _ _ attrs =>
    let read := take n attrs in
    mkScan (Z.of_nat (length read))
      (fun f => if bool_decide (RECV_ATTR_STR f ∈ read)
                then Some (member_name f) else None)
      (fun f => if bool_decide (RECV_ATTR_INT f ∈ read)
                then Some 9 else None).

(** The strings of the bundle at [props], in the order of the members. *)
Definition strings_of (h : heap) (props : addr) : list (option string) :=
  match h !! props with
  | Some (Struct p) =>
      map (fun f => match str_member p f with
                    | Some a => match h !! a with
                                | Some (Chars s) => Some s
                                | _ => None
                                end
                    | None => None
                    end) str_fields
  | _ => []
  end.

End Demo.

End TlsProxy.

(** ** The TLS client-start sender: [tls_proxy_client_start_print.c] *)

Module TlsProxyPrint.

(** The names under which the members are sent (macros of
    [tls_proxy.h]). *)
Inductive attr_name : Set :=
| TLS_ATTR_TIMEOUT | TLS_ATTR_TLS_LEVEL | TLS_ATTR_NEXTHOP | TLS_ATTR_HOST
| TLS_ATTR_NAMADDR | TLS_ATTR_SERVERID | TLS_ATTR_HELO | TLS_ATTR_PROTOCOLS
| TLS_ATTR_CIPHER_GRADE | TLS_ATTR_CIPHER_EXCLUSIONS | TLS_ATTR_MDALG.





Section Print.

Variable VSTREAM : Type.
Variable ATTR_FLAG_MORE : Z.



End Print.



End TlsProxyPrint.

(** ** The flush service client: [mail_flush.c] *)

Module MailFlush.

Section Client.

(** Streams, and the names and codes that [mail_proto.h], [mail_flush.h]
    and [mail_params.h] define. *)
Variable VSTREAM : Type.
Variables MAIL_CLASS_PUBLIC MAIL_SERVICE_QUEUE MAIL_SERVICE_FLUSH : string.
Variables FLUSH_REQ_SEND FLUSH_REQ_ADD : string.
Variable FLUSH_STAT_FAIL : Z.
Variable var_ipc_timeout : Z.
Variables QMGR_REQ_FLUSH_DEAD QMGR_REQ_SCAN_ALL QMGR_REQ_SCAN_DEFERRED
          QMGR_REQ_SCAN_INCOMING : ascii.

(** The calls made to the IPC layer, in order. *)
Inductive ipc_call : Type :=
| CALL_mail_trigger (class service : string) (request : list ascii)
| CALL_mail_connect (class service : string)
| CALL_vstream_control_timeout (fp : VSTREAM) (seconds : Z)
| CALL_mail_vprint (fp : VSTREAM) (format : string) (args : list string)
| CALL_mail_scan (fp : VSTREAM)
| CALL_vstream_fclose (fp : VSTREAM).

(** What the IPC layer answers: the result of a trigger; the stream of a
    connection, if any; and for [mail_scan(flush, "%d", &status)] on a
    stream on which a request was sent, the number of values read and the
    value stored in [status]. *)
Record ipc_layer : Type := mkIpc {
  mail_trigger : string -> string -> list ascii -> Z;
  mail_connect : string -> string -> option VSTREAM;
  mail_scan : VSTREAM -> string -> list string -> Z * Z
}.

Variable ipc : ipc_layer.

(** [mail_flush_deferred]: the result and the calls made. *)
Definition mail_flush_deferred : Z * list ipc_call :=
  let qmgr_trigger :=
    [QMGR_REQ_FLUSH_DEAD; QMGR_REQ_SCAN_ALL; QMGR_REQ_SCAN_DEFERRED;
     QMGR_REQ_SCAN_INCOMING] in
  (mail_trigger ipc MAIL_CLASS_PUBLIC MAIL_SERVICE_QUEUE qmgr_trigger,
   [CALL_mail_trigger MAIL_CLASS_PUBLIC MAIL_SERVICE_QUEUE qmgr_trigger]).

(** [mail_flush_clnt]: the format and the arguments that follow it. *)
Definition mail_flush_clnt (format : string) (args : list string)
  : Z * list ipc_call :=
  match mail_connect ipc MAIL_CLASS_PUBLIC MAIL_SERVICE_FLUSH with
  | None =>
      (FLUSH_STAT_FAIL,
       [CALL_mail_connect MAIL_CLASS_PUBLIC MAIL_SERVICE_FLUSH])
  | Some flush =>
      let '(count, scanned) := mail_scan ipc flush format args in
      let status := if negb (count =? 1) then FLUSH_STAT_FAIL else scanned in
      (status,
       [CALL_mail_connect MAIL_CLASS_PUBLIC MAIL_SERVICE_FLUSH;
        CALL_vstream_control_timeout flush var_ipc_timeout;
        CALL_mail_vprint flush format args;
        CALL_mail_scan flush;
        CALL_vstream_fclose flush])
  end.

(** [mail_flush_site] *)
Definition mail_flush_site (site : string) : Z * list ipc_call :=
  mail_flush_clnt "%s %s" [FLUSH_REQ_SEND; site].

(** [mail_flush_append] *)
Definition mail_flush_append (site queue_id : string) : Z * list ipc_call :=
  mail_flush_clnt "%s %s %s" [FLUSH_REQ_ADD; site; queue_id].

(** The streams a sequence of calls leaves open: a stream is open from
    the connection that returned it to its [vstream_fclose]. *)
Definition is_fclose (c : ipc_call) : bool :=
  match c with
  | CALL_vstream_fclose _ => true
  | _ => false
  end.

Definition is_connect (c : ipc_call) : bool :=
  match c with
  | CALL_mail_connect _ _ => true
  | _ => false
  end.

(** What a client of the flush service can rely on, for a request sent
    with [format] and [args] that gave [result]: one [vstream_fclose] for
    a connection that succeeded, as the last call, and none otherwise, in
    which case the status is [FLUSH_STAT_FAIL] and nothing was sent; and
    a status other than [FLUSH_STAT_FAIL] is the one number that was read
    as the reply to this request. *)
Definition flush_contract (format : string) (args : list string)
    (result : Z * list ipc_call) : Prop :=
  let '(status, calls) := result in
  let connection := mail_connect ipc MAIL_CLASS_PUBLIC MAIL_SERVICE_FLUSH in
  length (filter (fun c => is_fclose c = true) calls) =
    match connection with Some _ => 1%nat | None => 0%nat end /\
  (connection = None ->
   status = FLUSH_STAT_FAIL /\
   calls = [CALL_mail_connect MAIL_CLASS_PUBLIC MAIL_SERVICE_FLUSH]) /\
  (forall flush, connection = Some flush ->
     last calls = Some (CALL_vstream_fclose flush) /\
     In (CALL_mail_vprint flush format args) calls /\
     (status <> FLUSH_STAT_FAIL ->
      mail_scan ipc flush format args = (1, status))).

End Client.

(** *** A concrete IPC layer

    Streams are numbers.  The flush service is reached at stream 7 when
    [up] holds; it answers a request for site [example.com] with status
    0, any other request with status -2, and gives no readable reply to a
    request without arguments. *)
Module Demo.

Definition ipc (up : bool) : ipc_layer nat :=
  mkIpc nat
    (fun _ _ _ => 0)
    (fun _ _ => if up then Some 7%nat else None)
    (fun _ _ args =>
       match args with
       | [_; site] =>
           (1, if String.eqb site "example.com" then 0 else -2)
       | [] => (0, 42)
       | _ => (1, -2)
       end).

Definition mail_flush_site (up : bool) (site : string)
  : Z * list (ipc_call nat) :=
  MailFlush.mail_flush_site nat "public" "flush" "send" (-1) 3600 (ipc up)
    site.

End Demo.

End MailFlush.

(** ** SASL authentication in the SMTP server: [smtpd_sasl_glue.c] *)

Module SmtpdSasl.

(** [unsigned] arithmetic: values are reduced modulo 2^32. *)
Definition to_unsigned (z : Z) : Z := z mod 2 ^ 32.

(** Line 325: [enc_length = ((serveroutlen + 2) / 3) * 4 + 1], computed
    on [unsigned] values. *)
Definition enc_length_of (serveroutlen : Z) : Z :=
  to_unsigned (to_unsigned (to_unsigned (serveroutlen + 2) / 3 * 4) + 1).

(** The size of the output of [sasl_encode64] for [n] bytes of input, as
    the comment at lines 314-317 gives it: four bytes for each triple of
    input bytes, four bytes for an incomplete last triple, and one byte
    for the null terminator. *)
Definition encode64_size (n : Z) : Z :=
  4 * (n / 3) + (if n mod 3 =? 0 then 0 else 4) + 1.

Section Sasl.

(** The connection object of the SASL library and its result codes. *)
Variable sasl_conn_t : Type.
Variables SASL_OK SASL_CONTINUE : Z.

(** What [sasl_server_start] and [sasl_server_step] leave behind: the
    result, the values stored in [serverout] and [serveroutlen], and the
    connection object. *)
Record sasl_step : Type := mkStep {
  step_result : Z;
  step_serverout : option string;
  step_serveroutlen : Z;
  step_conn : option sasl_conn_t
}.

(** The functions of the SASL library that the authentication dialog
    calls.  [sasl_decode64 in inlen] gives the result and the decoded
    text with its length; [sasl_encode64 in inlen outmax] the result and
    the encoded text; [sasl_getprop_username] the result and the value
    stored for [SASL_USERNAME]. *)
Class sasl_library : Type := {
  sasl_decode64 : string -> Z -> Z * string * Z;
  sasl_encode64 : option string -> Z -> Z -> Z * string;
  sasl_server_start :
    option sasl_conn_t -> string -> option string -> Z -> sasl_step;
  sasl_server_step : option sasl_conn_t -> string -> Z -> sasl_step;
  sasl_getprop_username : option sasl_conn_t -> Z * option string
}.

(** [SMTPD_STATE], the members this module uses; [buffer] is the last
    line read from the client.  Two more components keep track of what
    the call does outside the structure: [replies] is what
    [smtpd_chat_reply] has sent so far, and [serverout_held] counts the
    buffers that the library returned in [serverout] and that have not
    been passed to [free]. *)
Record SMTPD_STATE : Type := mkSmtpd {
  sasl_mechanism_list : option string;
  sasl_username : option string;
  sasl_method : option string;
  sasl_sender : option string;
  sasl_conn : option sasl_conn_t;
  sasl_decoded : string;
  sasl_encoded : string;
  buffer : string;
  replies : list string;
  serverout_held : nat
}.

Definition set_sasl_username (v : option string) (s : SMTPD_STATE)
  : SMTPD_STATE :=
  mkSmtpd (sasl_mechanism_list s) v (sasl_method s) (sasl_sender s)
    (sasl_conn s) (sasl_decoded s) (sasl_encoded s) (buffer s) (replies s)
    (serverout_held s).
Definition set_sasl_method (v : option string) (s : SMTPD_STATE)
  : SMTPD_STATE :=
  mkSmtpd (sasl_mechanism_list s) (sasl_username s) v (sasl_sender s)
    (sasl_conn s) (sasl_decoded s) (sasl_encoded s) (buffer s) (replies s)
    (serverout_held s).
Definition set_sasl_conn (v : option sasl_conn_t) (s : SMTPD_STATE)
  : SMTPD_STATE :=
  mkSmtpd (sasl_mechanism_list s) (sasl_username s) (sasl_method s)
    (sasl_sender s) v (sasl_decoded s) (sasl_encoded s) (buffer s)
    (replies s) (serverout_held s).
Definition set_sasl_decoded (v : string) (s : SMTPD_STATE) : SMTPD_STATE :=
  mkSmtpd (sasl_mechanism_list s) (sasl_username s) (sasl_method s)
    (sasl_sender s) (sasl_conn s) v (sasl_encoded s) (buffer s) (replies s)
    (serverout_held s).
Definition set_sasl_encoded (v : string) (s : SMTPD_STATE) : SMTPD_STATE :=
  mkSmtpd (sasl_mechanism_list s) (sasl_username s) (sasl_method s)
    (sasl_sender s) (sasl_conn s) (sasl_decoded s) v (buffer s) (replies s)
    (serverout_held s).
Definition set_buffer (v : string) (s : SMTPD_STATE) : SMTPD_STATE :=
  mkSmtpd (sasl_mechanism_list s) (sasl_username s) (sasl_method s)
    (sasl_sender s) (sasl_conn s) (sasl_decoded s) (sasl_encoded s) v
    (replies s) (serverout_held s).
Definition set_replies (v : list string) (s : SMTPD_STATE) : SMTPD_STATE :=
  mkSmtpd (sasl_mechanism_list s) (sasl_username s) (sasl_method s)
    (sasl_sender s) (sasl_conn s) (sasl_decoded s) (sasl_encoded s)
    (buffer s) v (serverout_held s).
Definition set_serverout_held (v : nat) (s : SMTPD_STATE) : SMTPD_STATE :=
  mkSmtpd (sasl_mechanism_list s) (sasl_username s) (sasl_method s)
    (sasl_sender s) (sasl_conn s) (sasl_decoded s) (sasl_encoded s)
    (buffer s) (replies s) v.

(** How a call ends: it returns a value, with the state and the client
    lines not yet read; or the process stops in [msg_panic]; or the call
    does not return because the client sends nothing more (a read that
    times out leaves the caller through a jump). *)
Inductive outcome (A : Type) : Type :=
| Returned (result : A) (state : SMTPD_STATE) (input : list string)
| Panicked (message : string) (state : SMTPD_STATE)
| NoReturn (state : SMTPD_STATE).

Arguments Returned {A} _ _ _.
Arguments Panicked {A} _ _.
Arguments NoReturn {A} _.

Context {lib : sasl_library}.

(** The library stored a buffer in [serverout]. *)
Definition hold (serverout : option string) (state : SMTPD_STATE)
  : SMTPD_STATE :=
  match serverout with
  | Some _ => set_serverout_held (S (serverout_held state)) state
  | None => state
  end.

(** [free(serverout)]: nothing happens for a null pointer. *)
Definition free_serverout (serverout : option string) (state : SMTPD_STATE)
  : SMTPD_STATE :=
  match serverout with
  | Some _ => set_serverout_held (pred (serverout_held state)) state
  | None => state
  end.

(** Modelled from the spec: [smtpd_chat_reply] (another module) sends one
    reply line to the client. *)
Definition smtpd_chat_reply (state : SMTPD_STATE) (reply : string)
  : SMTPD_STATE :=
  set_replies (replies state ++ [reply]) state.

(** Lines 306-353: the loop of [smtpd_sasl_authenticate].  [r] holds
    [result], [serverout] and [serveroutlen] as the last call of the
    library left them; [input] is what the client sends from here on, one
    line for each [smtpd_chat_query].  The loop ends with a reply to
    return ([inl]) or with the result that is not [SASL_CONTINUE]
    ([inr]). *)
Fixpoint sasl_dialog (input : list string) (state : SMTPD_STATE)
    (r : sasl_step) : outcome (string + sasl_step) :=
  if step_result r =? SASL_CONTINUE then
    let enc_length := enc_length_of (step_serveroutlen r) in
    let '(code, encoded) :=
      sasl_encode64 (step_serverout r) (step_serveroutlen r) enc_length in
    let state := set_sasl_encoded encoded state in
    if negb (code =? SASL_OK) then
      Panicked "smtpd_sasl_authenticate: sasl_encode64 botch" state
    else
      let state := free_serverout (step_serverout r) state in
      let state := smtpd_chat_reply state ("334 " ++ encoded) in
      match input with
      | [] => NoReturn state
      | line :: input =>
          let state := set_buffer line state in
          if String.eqb line "*" then
            Returned (inl "501 Authentication aborted"%string) state input
          else
            let reply_len := Z.of_nat (String.length line) in
            let '(code, decoded, dec_length) :=
              sasl_decode64 line reply_len in
            let state := set_sasl_decoded decoded state in
            if negb (code =? SASL_OK) then
              Returned
                (inl "501 Error: malformed authentication response"%string)
                state input
            else
              let r' := sasl_server_step (sasl_conn state) decoded
                          dec_length in
              let state := set_sasl_conn (step_conn r') state in
              let state := hold (step_serverout r') state in
              sasl_dialog input state r'
      end
  else Returned (inr r) state input.

(** [smtpd_sasl_authenticate]: the result is the reply to send, [None]
    in case of success. *)
Definition smtpd_sasl_authenticate (input : list string)
    (state : SMTPD_STATE) (sasl_method_arg : string)
    (init_response : option string) : outcome (option string) :=
  if bool_decide (sasl_username state <> None \/ sasl_method state <> None)
  then Panicked "smtpd_sasl_authenticate: already authenticated" state
  else
    let start (state : SMTPD_STATE) (dec_buffer : option string)
          (dec_length : Z) : outcome (option string) :=
      let r := sasl_server_start (sasl_conn state) sasl_method_arg
                 dec_buffer dec_length in
      let state := set_sasl_conn (step_conn r) state in
      let state := hold (step_serverout r) state in
      match sasl_dialog input state r with
      | Returned (inl reply) state input =>
          Returned (Some reply) state input
      | Returned (inr r) state input =>
          let state := free_serverout (step_serverout r) state in
          if negb (step_result r =? SASL_OK) then
            Returned (Some "535 Error: authentication failed"%string) state
              input
          else
            let '(result, serverout) :=
              sasl_getprop_username (sasl_conn state) in
            match serverout with
            | Some username =>
                if negb (result =? SASL_OK) then
                  Panicked
                    "smtpd_sasl_authenticate: sasl_getprop SASL_USERNAME botch"
                    state
                else
                  let state := set_sasl_username (Some username) state in
                  let state :=
                    set_sasl_method (Some sasl_method_arg) state in
                  Returned None state input
            | None =>
                Panicked
                  "smtpd_sasl_authenticate: sasl_getprop SASL_USERNAME botch"
                  state
            end
      | Panicked message state => Panicked message state
      | NoReturn state => NoReturn state
      end in
    match init_response with
    | Some init =>
        let reply_len := Z.of_nat (String.length init) in
        let '(code, decoded, dec_length) := sasl_decode64 init reply_len in
        let state := set_sasl_decoded decoded state in
        if negb (code =? SASL_OK) then
          Returned
            (Some
               "501 Authentication failed: malformed initial response"%string)
            state input
        else start state (Some decoded) dec_length
    | None => start state None 0
    end.

(** [smtpd_sasl_logout] *)
Definition smtpd_sasl_logout (state : SMTPD_STATE) : SMTPD_STATE :=
  let state :=
    match sasl_username state with
    | Some _ => set_sasl_username None state
    | None => state
    end in
  match sasl_method state with
  | Some _ => set_sasl_method None state
  | None => state
  end.

(** The number of buffers that a value of [serverout] stands for. *)
Definition serverout_count (serverout : option string) : nat :=
  match serverout with
  | Some _ => 1
  | None => 0
  end.

(** A challenge: the reply code 334 and the encoded text. *)
Definition is_challenge (reply : string) : Prop :=
  exists encoded : string, reply = ("334 " ++ encoded)%string.

(** The replies a failed authentication returns. *)
Definition failure_replies : list string :=
  ["501 Authentication failed: malformed initial response";
   "501 Authentication aborted";
   "501 Error: malformed authentication response";
   "535 Error: authentication failed"]%string.

End Sasl.

Arguments sasl_decode64 {sasl_conn_t _} _ _.
Arguments sasl_encode64 {sasl_conn_t _} _ _ _.
Arguments sasl_server_start {sasl_conn_t _} _ _ _ _.
Arguments sasl_server_step {sasl_conn_t _} _ _ _.
Arguments sasl_getprop_username {sasl_conn_t _} _.
Arguments Returned {sasl_conn_t A} _ _ _.
Arguments Panicked {sasl_conn_t A} _ _.
Arguments NoReturn {sasl_conn_t A} _.
Arguments step_result {sasl_conn_t} _.
Arguments step_serverout {sasl_conn_t} _.
Arguments step_serveroutlen {sasl_conn_t} _.
Arguments step_conn {sasl_conn_t} _.
Arguments sasl_mechanism_list {sasl_conn_t} _.
Arguments sasl_username {sasl_conn_t} _.
Arguments sasl_method {sasl_conn_t} _.
Arguments sasl_sender {sasl_conn_t} _.
Arguments sasl_conn {sasl_conn_t} _.
Arguments sasl_decoded {sasl_conn_t} _.
Arguments sasl_encoded {sasl_conn_t} _.
Arguments buffer {sasl_conn_t} _.
Arguments replies {sasl_conn_t} _.
Arguments serverout_held {sasl_conn_t} _.
Arguments hold {sasl_conn_t} _ _.
Arguments free_serverout {sasl_conn_t} _ _.
Arguments smtpd_chat_reply {sasl_conn_t} _ _.
Arguments smtpd_sasl_logout {sasl_conn_t} _.

(** *** A concrete library

    A mechanism that asks for a user name and a password, used to run
    the dialog on examples.  The connection object is the list of client
    responses so far; text is encoded and decoded as it is, except that a
    response that starts with [!] does not decode; the result codes are
    those of [sasl.h]. *)
Module Demo.

Definition SASL_OK : Z := 0.
Definition SASL_CONTINUE : Z := 1.
Definition SASL_BADAUTH : Z := -13.

Definition decode64 (s : string) (len : Z) : Z * string * Z :=
  match s with
  | String "!"%char _ => (-5, EmptyString, 0)
  | _ => (SASL_OK, s, len)
  end.

Definition encode64 (s : option string) (len outmax : Z) : Z * string :=
  (SASL_OK, match s with Some s => s | None => EmptyString end).

Definition challenge (result : Z) (text : string)
    (conn : option (list string)) : sasl_step (list string) :=
  mkStep _ result (Some text) (Z.of_nat (String.length text)) conn.

Definition server_start (conn : option (list string)) (mech : string)
    (clientin : option string) (len : Z) : sasl_step (list string) :=
  challenge SASL_CONTINUE "Username:" (Some []).

Definition server_step (conn : option (list string)) (clientin : string)
    (len : Z) : sasl_step (list string) :=
  match conn with
  | Some [] => challenge SASL_CONTINUE "Password:" (Some [clientin])
  | Some [user] =>
      mkStep _ (if String.eqb clientin "secret" then SASL_OK
                else SASL_BADAUTH)
        None 0 (Some [user; clientin])
  | _ => mkStep _ SASL_BADAUTH None 0 conn
  end.

Definition getprop_username (conn : option (list string))
  : Z * option string :=
  match conn with
  | Some (user :: _) => (SASL_OK, Some user)
  | _ => (-7, None)
  end.

Definition lib : sasl_library (list string) := {|
  sasl_decode64 := decode64;
  sasl_encode64 := encode64;
  sasl_server_start := server_start;
  sasl_server_step := server_step;
  sasl_getprop_username := getprop_username
|}.

(** A session right after the connection was set up. *)
Definition connected : SMTPD_STATE (list string) :=
  mkSmtpd _ (Some "LOGIN"%string) None None None (Some []) EmptyString
    EmptyString EmptyString [] 0.

Definition authenticate
  : list string -> SMTPD_STATE (list string) -> string -> option string ->
    outcome (list string) (option string) :=
  @smtpd_sasl_authenticate (list string) SASL_OK SASL_CONTINUE lib.

(** The session after user [alice] gave the password. *)
Definition authenticated : SMTPD_STATE (list string) :=
  match authenticate ["alice"; "secret"]%string connected "LOGIN" None with
  | Returned _ state _ => state
  | _ => connected
  end.

End Demo.

End SmtpdSasl.

(** * Properties of the envelope handler *)

Module CleanupProofs.

Import Libc Cleanup.

Section Handler.

Context {env : cleanup_env}.

(** ** The range of parsed numbers and of time stamps *)

Lemma strtol_range_bounds (z : Z) :
  LONG_MIN <= strtol_range z <= LONG_MAX.
Proof.
  unfold strtol_range, LONG_MIN, LONG_MAX.
  destruct (Z.gtb_spec z (2 ^ 63 - 1)); [lia|].
  destruct (Z.ltb_spec z (- 2 ^ 63)); lia.
Qed.

Lemma atol_bounds (s : string) : LONG_MIN <= atol s <= LONG_MAX.
Proof. unfold atol. apply strtol_range_bounds. Qed.

Lemma to_long_bounds (z : Z) : LONG_MIN <= to_long z <= LONG_MAX.
Proof.
  unfold to_long, LONG_MIN, LONG_MAX.
  pose proof (Z.mod_pos_bound (z + 2 ^ 63) (2 ^ 64) ltac:(lia)). lia.
Qed.

Lemma to_long_fits (z : Z) :
  LONG_MIN <= z <= LONG_MAX -> to_long z = z.
Proof.
  unfold to_long, LONG_MIN, LONG_MAX. intros H.
  rewrite Z.mod_small by lia. lia.
Qed.

(** ** Bit arithmetic of the error flag *)

Lemma land_lor_same (e b : Z) : Z.land (Z.lor e b) b = b.
Proof.
  apply Z.bits_inj'; intros n _.
  rewrite Z.land_spec, Z.lor_spec.
  destruct (Z.testbit e n), (Z.testbit b n); reflexivity.
Qed.

Lemma land_lor_keeps (e b c : Z) :
  Z.land e b = b -> Z.land (Z.lor e c) b = b.
Proof.
  intros H. rewrite Z.land_lor_distr_l, H.
  apply Z.bits_inj'; intros n _.
  rewrite Z.lor_spec, Z.land_spec.
  destruct (Z.testbit b n), (Z.testbit c n); reflexivity.
Qed.

Lemma bad_flag_bad (st : CLEANUP_STATE) : bad (flag_bad st).
Proof. unfold bad, flag_bad; simpl. apply land_lor_same. Qed.

Lemma bad_nonzero (st : CLEANUP_STATE) :
  CLEANUP_STAT_BAD <> 0 -> bad st -> Z.land (errs st) CLEANUP_STAT_BAD <> 0.
Proof. unfold bad; intros Hne ->; exact Hne. Qed.

Lemma bad_errs_eq (st st' : CLEANUP_STATE) :
  errs st' = errs st -> bad st -> bad st'.
Proof. unfold bad; intros ->; trivial. Qed.

Lemma bad_errs_lor (st st' : CLEANUP_STATE) (c : Z) :
  errs st' = Z.lor (errs st) c -> bad st -> bad st'.
Proof. unfold bad; intros ->; apply land_lor_keeps. Qed.

(** A mask without bits outside [m] is unchanged by [Z.land _ m]. *)
Lemma land_lnot_zero (x m : Z) :
  Z.land x (Z.lnot m) = 0 -> Z.land x m = x.
Proof.
  intros H. apply Z.bits_inj'; intros n Hn.
  assert (Hb : Z.testbit (Z.land x (Z.lnot m)) n = false)
    by (rewrite H; apply Z.bits_0).
  rewrite Z.land_spec, Z.lnot_spec in Hb by assumption.
  rewrite Z.land_spec.
  destruct (Z.testbit x n), (Z.testbit m n); simpl in *; congruence.
Qed.

(** ** The orphan cleanup *)

Lemma drop_orphan_none (st : CLEANUP_STATE) (type : rec_type) :
  orig_rcpt st = None -> drop_orphan_orig_rcpt st type = st.
Proof.
  intros H. unfold drop_orphan_orig_rcpt.
  destruct (decide (type = REC_TYPE_RCPT)); [reflexivity|].
  rewrite H; reflexivity.
Qed.

Lemma drop_orphan_frame (st : CLEANUP_STATE) (type : rec_type) :
  let st' := drop_orphan_orig_rcpt st type in
  queue_id st' = queue_id st /\ flags st' = flags st /\ errs st' = errs st /\
  time st' = time st /\ warn_time st' = warn_time st /\
  sender st' = sender st /\ attr st' = attr st /\ action st' = action st /\
  dst st' = dst st.
Proof.
  unfold drop_orphan_orig_rcpt.
  destruct (decide (type = REC_TYPE_RCPT)); [simpl; tauto|].
  destruct (orig_rcpt st); [|simpl; tauto].
  destruct (decide (type = REC_TYPE_DONE)); simpl; tauto.
Qed.

Ltac orphan_frame st type :=
  let H := fresh "Hfr" in
  pose proof (drop_orphan_frame st type) as H; cbv zeta in H;
  destruct H as (? & ? & ? & ? & ? & ? & ? & ? & ?).

(** ** The boundary record *)

(** C1 (as amended).  A MESG record received while the sender or the time
    stamp is missing marks the message bad and leaves the handler, the
    warning time and the sink as they are.  Otherwise the warning time is
    computed from the arrival time when it is not set and the configured
    delay is positive: it is the sum of the two as a [time_t], which is
    their sum whenever that lies in the range of [time_t] and wraps around
    otherwise.  A WARN record is written whenever the warning time is set,
    and the content handler is installed.  So a MESG record moves the
    envelope handler to the content handler exactly when sender and time
    are both set. *)
Theorem mesg_record_boundary (st : CLEANUP_STATE) (buf : string) (len : Z) :
  let st' := cleanup_envelope_process st REC_TYPE_MESG buf len in
  (sender st = None \/ time st = 0 ->
     errs st' = Z.lor (errs st) CLEANUP_STAT_BAD /\ bad st' /\
     action st' = action st /\ warn_time st' = warn_time st /\
     dst st' = dst st) /\
  (sender st <> None -> time st <> 0 ->
     let w := if (warn_time st =? 0) && (var_delay_warn_time >? 0)
              then to_long (time st + var_delay_warn_time)
              else warn_time st in
     warn_time st' = w /\
     dst st' = dst st ++ (if w =? 0 then []
                          else [OutFormat REC_TYPE_WARN [w]]) /\
     action st' = ACTION_cleanup_message /\ errs st' = errs st /\
     LONG_MIN <= to_long (time st + var_delay_warn_time) <= LONG_MAX /\
     (warn_time st = 0 -> 0 < var_delay_warn_time ->
      LONG_MIN <= time st + var_delay_warn_time <= LONG_MAX ->
      warn_time st' = time st + var_delay_warn_time)) /\
  (action st = ACTION_cleanup_envelope_process ->
     (action st' = ACTION_cleanup_message <->
      sender st <> None /\ time st <> 0)).
Proof.
  cbv zeta. unfold cleanup_envelope_process.
  destruct (sender st) as [s|] eqn:Hs; simpl.
  - destruct (Z.eqb_spec (time st) 0) as [Ht|Ht]; simpl.
    + split; [intros _; repeat split; apply land_lor_same|].
      split; [intros _ Hne; contradiction|].
      intros Ha; rewrite Ha; split; [discriminate|tauto].
    + split; [intros [H|H]; [discriminate|contradiction]|].
      split.
      * intros _ _.
        pose proof (to_long_bounds (time st + var_delay_warn_time)) as Hb.
        destruct (Z.eqb_spec (warn_time st) 0) as [Hw|Hw];
          destruct (Z.gtb_spec var_delay_warn_time 0) as [Hd|Hd]; simpl.
        -- destruct (to_long (time st + var_delay_warn_time) =? 0); simpl;
             rewrite ?app_nil_r;
             (split; [reflexivity|]); (split; [reflexivity|]);
             (split; [reflexivity|]); (split; [reflexivity|]);
             (split; [exact Hb|]);
             intros _ _ Hfit; apply to_long_fits; exact Hfit.
        -- destruct (Z.eqb_spec (warn_time st) 0) as [_|Hne];
             [|contradiction]; simpl; rewrite ?app_nil_r.
           split; [reflexivity|]. split; [reflexivity|].
           split; [reflexivity|]. split; [reflexivity|].
           split; [exact Hb|]. intros _ Hpos; lia.
        -- destruct (Z.eqb_spec (warn_time st) 0) as [He|_];
             [contradiction|]; simpl.
           split; [reflexivity|]. split; [reflexivity|].
           split; [reflexivity|]. split; [reflexivity|].
           split; [exact Hb|]. intros Hz; contradiction.
        -- destruct (Z.eqb_spec (warn_time st) 0) as [He|_];
             [contradiction|]; simpl.
           split; [reflexivity|]. split; [reflexivity|].
           split; [reflexivity|]. split; [reflexivity|].
           split; [exact Hb|]. intros Hz; contradiction.
      * intros _. split; [intros _; split; [discriminate|assumption]|].
        intros _.
        destruct ((warn_time st =? 0) && (var_delay_warn_time >? 0));
          simpl.
        -- destruct (to_long (time st + var_delay_warn_time) =? 0);
             reflexivity.
        -- destruct (warn_time st =? 0); reflexivity.
  - split; [intros _; repeat split; apply land_lor_same|].
    split; [intros Hne; contradiction|].
    intros Ha; rewrite Ha; split; [discriminate|].
    intros [Hne _]; contradiction.
Qed.

(** ** The flags record *)

(** C3 (as amended).  A FLGS record never touches [errs], the sink or
    the handler.  When the parsed mask has a bit outside
    [CLEANUP_FLAG_MASK_EXTRA] the handler warns and leaves [flags] alone:
    no bit of the record is taken.  Otherwise the mask, which then lies
    inside the allowed one, is ORed into [flags] without a warning. *)
Theorem flgs_record (st : CLEANUP_STATE) (buf : string) (len : Z) :
  let extra_flags := to_int (atol buf) in
  let st' := cleanup_envelope_process st REC_TYPE_FLGS buf len in
  errs st' = errs st /\ dst st' = dst st /\ action st' = action st /\
  (Z.land extra_flags (Z.lnot CLEANUP_FLAG_MASK_EXTRA) <> 0 ->
     flags st' = flags st /\
     log st' = log st ++ [WARN_bad_extra_flags (queue_id st) extra_flags]) /\
  (Z.land extra_flags (Z.lnot CLEANUP_FLAG_MASK_EXTRA) = 0 ->
     flags st' = Z.lor (flags st) extra_flags /\
     Z.land extra_flags CLEANUP_FLAG_MASK_EXTRA = extra_flags /\
     log st' = log st).
Proof.
  cbv zeta. unfold cleanup_envelope_process.
  destruct (Z.eqb_spec
              (Z.land (to_int (atol buf)) (Z.lnot CLEANUP_FLAG_MASK_EXTRA)) 0)
    as [H0|H0]; simpl.
  - repeat split; try reflexivity; try contradiction.
    now apply land_lnot_zero.
  - repeat split; try reflexivity; intros; contradiction.
Qed.

(** ** Records that leave the sender alone *)

(** Apart from a FROM record, and a RCPT record once the sender is known
    (the two records handed to a rewriter), no record changes [sender] or
    [time] except that a TIME record sets [time]. *)
Lemma process_sender_frame (st : CLEANUP_STATE) (type : rec_type)
    (buf : string) (len : Z) :
  type <> REC_TYPE_FROM ->
  sender st = None ->
  sender (cleanup_envelope_process st type buf len) = None.
Proof.
  intros Hf Hs. unfold cleanup_envelope_process.
  orphan_frame st type.
  destruct type; simpl; try contradiction;
    repeat match goal with
    | |- context [match sender ?s with _ => _ end] =>
        replace (sender s) with (@None string) by congruence; simpl
    | |- context [match split_nameval ?b with _ => _ end] =>
        destruct (split_nameval b) as [?|[? ?]]; simpl
    | |- context [bool_decide ?P] => destruct (bool_decide P); simpl
    | |- context [if ?b then _ else _] => destruct b; simpl
    end; congruence.
Qed.

Lemma process_time_frame (st : CLEANUP_STATE) (type : rec_type)
    (buf : string) (len : Z) :
  type <> REC_TYPE_TIME ->
  (type = REC_TYPE_FROM -> sender st <> None) ->
  (type = REC_TYPE_RCPT -> sender st = None) ->
  time (cleanup_envelope_process st type buf len) = time st.
Proof.
  intros Ht Hf Hr. unfold cleanup_envelope_process.
  orphan_frame st type.
  destruct type; simpl; try contradiction;
    try (specialize (Hf eq_refl)); try (specialize (Hr eq_refl));
    repeat match goal with
    | |- context [match sender ?s with _ => _ end] =>
        let E := fresh "E" in destruct (sender s) as [[|? ?]|] eqn:E; simpl
    | |- context [match verp_delims_verify ?b with _ => _ end] =>
        destruct (verp_delims_verify b); simpl
    | |- context [match split_nameval ?b with _ => _ end] =>
        destruct (split_nameval b) as [?|[? ?]]; simpl
    | |- context [bool_decide ?P] => destruct (bool_decide P); simpl
    | |- context [if ?b then _ else _] => destruct b; simpl
    end; congruence.
Qed.

(** ** Recipient before sender *)

(** C6.  A RCPT record received while no sender is known is rejected: the
    new state is the old one with one more warning and the error flag;
    no rewriter takes part in it, nothing is written to the sink and the
    sender stays unset.  As long as no FROM record has been received the
    sender stays unset, so every RCPT record up to there is rejected: the
    sender is set before any RCPT record is accepted. *)
Theorem rcpt_without_sender_rejected (st : CLEANUP_STATE) (buf : string)
    (len : Z) :
  sender st = None ->
  let st' := cleanup_envelope_process st REC_TYPE_RCPT buf len in
  let w := if in_REC_TYPE_ENVELOPE REC_TYPE_RCPT
           then WARN_recipient_precedes_sender (queue_id st)
           else WARN_unexpected_record_type (queue_id st) REC_TYPE_RCPT in
  st' = flag_bad (msg_warn w st) /\
  log st' = log st ++ [w] /\ bad st' /\ dst st' = dst st /\
  sender st' = None /\
  (forall rs : list record,
     Forall (fun r => r.1.1 <> REC_TYPE_FROM) rs ->
     sender (cleanup_records st rs) = None).
Proof.
  intros Hs. cbv zeta.
  assert (Heq : cleanup_envelope_process st REC_TYPE_RCPT buf len =
                flag_bad (msg_warn
                  (if in_REC_TYPE_ENVELOPE REC_TYPE_RCPT
                   then WARN_recipient_precedes_sender (queue_id st)
                   else WARN_unexpected_record_type (queue_id st)
                          REC_TYPE_RCPT) st)).
  { unfold cleanup_envelope_process, drop_orphan_orig_rcpt.
    destruct (in_REC_TYPE_ENVELOPE REC_TYPE_RCPT); simpl;
      [rewrite Hs|]; reflexivity. }
  rewrite Heq. split; [reflexivity|].
  split; [reflexivity|]. split; [apply bad_flag_bad|].
  split; [reflexivity|]. split; [exact Hs|].
  intros rs. clear Heq. revert st Hs.
  induction rs as [|[[type b] l] rs IH]; intros st Hs HF; [exact Hs|].
  inversion HF as [|? ? Hne HF']; subst. simpl in Hne.
  unfold cleanup_records in *. simpl.
  apply IH; [|exact HF'].
  destruct (action st); [|apply process_sender_frame; assumption|exact Hs].
  unfold cleanup_envelope. apply process_sender_frame; [assumption|exact Hs].
Qed.

(** ** The time record *)

(** With rewriters that leave [time] alone, only a TIME record changes
    it. *)
Lemma process_keeps_time (st : CLEANUP_STATE) (type : rec_type)
    (buf : string) (len : Z) :
  rewriter_keeps_time cleanup_addr_sender ->
  rewriter_keeps_time cleanup_addr_recipient ->
  type <> REC_TYPE_TIME ->
  time (cleanup_envelope_process st type buf len) = time st.
Proof.
  intros Hsnd Hrcp Ht. unfold cleanup_envelope_process.
  orphan_frame st type.
  destruct type; simpl; try contradiction;
    repeat match goal with
    | |- context [match sender ?s with _ => _ end] =>
        destruct (sender s) as [[|? ?]|]; simpl
    | |- context [match orig_rcpt ?s with _ => _ end] =>
        destruct (orig_rcpt s); simpl
    | |- context [match verp_delims_verify ?b with _ => _ end] =>
        destruct (verp_delims_verify b); simpl
    | |- context [match split_nameval ?b with _ => _ end] =>
        destruct (split_nameval b) as [?|[? ?]]; simpl
    | |- context [bool_decide ?P] => destruct (bool_decide P); simpl
    | |- context [if ?b then _ else _] => destruct b; simpl
    end;
    rewrite ?Hsnd, ?Hrcp; simpl; congruence.
Qed.

Lemma record_keeps_time (st : CLEANUP_STATE) (r : record) :
  rewriter_keeps_time cleanup_addr_sender ->
  rewriter_keeps_time cleanup_addr_recipient ->
  r.1.1 <> REC_TYPE_TIME ->
  time (cleanup_record st r) = time st.
Proof.
  intros Hsnd Hrcp. destruct r as [[type b] l]; simpl. intros Hne.
  destruct (action st); [|now apply process_keeps_time|reflexivity].
  unfold cleanup_envelope. rewrite process_keeps_time by assumption.
  reflexivity.
Qed.

Lemma records_keep_time (rs : list record) (st : CLEANUP_STATE) :
  rewriter_keeps_time cleanup_addr_sender ->
  rewriter_keeps_time cleanup_addr_recipient ->
  Forall (fun r => r.1.1 <> REC_TYPE_TIME) rs ->
  time (cleanup_records st rs) = time st.
Proof.
  intros Hsnd Hrcp. revert st.
  induction rs as [|r rs IH]; intros st HF; [reflexivity|].
  inversion HF as [|? ? Hne HF']; subst.
  unfold cleanup_records in *; simpl.
  rewrite IH by exact HF'. now apply record_keeps_time.
Qed.

Lemma cleanup_records_app (st : CLEANUP_STATE) (rs1 rs2 : list record) :
  cleanup_records st (rs1 ++ rs2) =
  cleanup_records (cleanup_records st rs1) rs2.
Proof. unfold cleanup_records. apply fold_left_app. Qed.

Lemma cleanup_records_cons (st : CLEANUP_STATE) (r : record)
    (rs : list record) :
  cleanup_records st (r :: rs) = cleanup_records (cleanup_record st r) rs.
Proof. reflexivity. Qed.

(** A TIME record that reaches the envelope handler sets [time]. *)
Lemma record_sets_time (st : CLEANUP_STATE) (buf : string) (len : Z) :
  in_REC_TYPE_ENVELOPE REC_TYPE_TIME = true ->
  action st <> ACTION_cleanup_message ->
  time (cleanup_record st (REC_TYPE_TIME, buf, len)) = atol buf.
Proof.
  intros He Ha.
  assert (Hp : forall s,
            time (cleanup_envelope_process s REC_TYPE_TIME buf len) =
              atol buf).
  { intros s. unfold cleanup_envelope_process. rewrite He; reflexivity. }
  unfold cleanup_record. destruct (action st); [| |contradiction].
  - unfold cleanup_envelope. apply Hp.
  - apply Hp.
Qed.

(** C7 (as amended).  Every TIME record stores its parsed content in
    [time], whatever [time] was before, and is passed on to the sink; a
    record of another type that is not handed to a rewriter leaves [time]
    alone.  Over a stream, with rewriters that leave [time] alone: the
    last TIME record the envelope handler receives decides [time],
    whatever the TIME records before it, and a stream without a TIME
    record leaves [time] as it was. *)
Theorem time_record (st : CLEANUP_STATE) (buf : string) (len : Z) :
  in_REC_TYPE_ENVELOPE REC_TYPE_TIME = true ->
  let st' := cleanup_envelope_process st REC_TYPE_TIME buf len in
  time st' = atol buf /\
  LONG_MIN <= time st' <= LONG_MAX /\
  dst st' = dst st ++ [Out REC_TYPE_TIME buf len] /\
  errs st' = errs st /\
  (forall (type : rec_type) (b : string) (l : Z),
     type <> REC_TYPE_TIME ->
     (type = REC_TYPE_FROM -> sender st <> None) ->
     (type = REC_TYPE_RCPT -> sender st = None) ->
     time (cleanup_envelope_process st type b l) = time st) /\
  (rewriter_keeps_time cleanup_addr_sender ->
   rewriter_keeps_time cleanup_addr_recipient ->
   forall (st0 : CLEANUP_STATE) (before after : list record),
     Forall (fun r => r.1.1 <> REC_TYPE_TIME) after ->
     time (cleanup_records st0 after) = time st0 /\
     (action (cleanup_records st0 before) <> ACTION_cleanup_message ->
      time (cleanup_records st0
              (before ++ (REC_TYPE_TIME, buf, len) :: after)) =
        atol buf)).
Proof.
  intros He. cbv zeta.
  assert (Ht : time (cleanup_envelope_process st REC_TYPE_TIME buf len) =
               atol buf)
    by (unfold cleanup_envelope_process; rewrite He; reflexivity).
  split; [exact Ht|].
  split; [rewrite Ht; apply atol_bounds|].
  unfold cleanup_envelope_process at 1 2.
  rewrite He; simpl.
  orphan_frame st REC_TYPE_TIME.
  split; [congruence|]. split; [congruence|].
  split; [intros; now apply process_time_frame|].
  intros Hsnd Hrcp st0 before after HF.
  split; [now apply records_keep_time|].
  intros Ha. rewrite cleanup_records_app, cleanup_records_cons.
  rewrite records_keep_time by assumption.
  apply record_sets_time; assumption.
Qed.

(** ** The VERP record *)

(** C8.  A VERP record with no sender or an empty sender marks the message
    bad and writes nothing; so does one whose delimiters are rejected;
    with a non-empty sender and accepted delimiters the record is written
    to the sink as it came and no error is flagged.  Hence the record
    reaches the sink only in the last case. *)
Theorem verp_record (st : CLEANUP_STATE) (buf : string) (len : Z) :
  in_REC_TYPE_ENVELOPE REC_TYPE_VERP = true ->
  let st' := cleanup_envelope_process st REC_TYPE_VERP buf len in
  (sender st = None \/ sender st = Some EmptyString ->
     bad st' /\ dst st' = dst st) /\
  (forall s, sender st = Some s -> s <> EmptyString ->
     verp_delims_verify buf <> None ->
     bad st' /\ dst st' = dst st) /\
  (forall s, sender st = Some s -> s <> EmptyString ->
     verp_delims_verify buf = None ->
     dst st' = dst st ++ [Out REC_TYPE_VERP buf len] /\
     errs st' = errs st) /\
  (dst st' <> dst st ->
     exists s, sender st = Some s /\ s <> EmptyString /\
               verp_delims_verify buf = None).
Proof.
  intros He. cbv zeta. unfold cleanup_envelope_process.
  rewrite He; simpl.
  orphan_frame st REC_TYPE_VERP.
  replace (sender (drop_orphan_orig_rcpt st REC_TYPE_VERP)) with (sender st)
    by congruence.
  destruct (sender st) as [[|c s]|] eqn:Hs;
    [| destruct (verp_delims_verify buf) as [e|] eqn:Hv |]; simpl.
  - split; [intros _; split; [apply bad_flag_bad|assumption]|].
    split; [intros s' [= <-] Hne; contradiction|].
    split; [intros s' [= <-] Hne; contradiction|].
    intros Hne; congruence.
  - split; [intros [H'|H']; discriminate|].
    split; [intros _ _ _ _; split; [apply bad_flag_bad|assumption]|].
    split; [intros _ _ _ [=]|].
    intros Hne; congruence.
  - split; [intros [H'|H']; discriminate|].
    split; [intros _ _ _ Hne; contradiction|].
    split; [intros _ _ _ _; split; congruence|].
    intros _. exists (String c s). repeat split. discriminate.
  - split; [intros _; split; [apply bad_flag_bad|assumption]|].
    split; [intros s' [=]|].
    split; [intros s' [=]|].
    intros Hne; congruence.
Qed.

(** ** Attribute records *)

(** C10.  An ATTR record that arrives below the attribute count limit is
    written to the sink before its content is split.  When the content is
    malformed the message is marked bad and the attribute table is
    unchanged, but the record is in the sink already. *)
Theorem attr_malformed_forwarded (st : CLEANUP_STATE) (buf : string)
    (len : Z) (error_text : string) :
  in_REC_TYPE_ENVELOPE REC_TYPE_ATTR = true ->
  Z.of_nat (size (attr st)) < var_qattr_count_limit ->
  split_nameval buf = inl error_text ->
  let st' := cleanup_envelope_process st REC_TYPE_ATTR buf len in
  dst st' = dst st ++ [Out REC_TYPE_ATTR buf len] /\
  bad st' /\ attr st' = attr st /\
  log st' = log (drop_orphan_orig_rcpt st REC_TYPE_ATTR) ++
            [WARN_malformed_attribute (queue_id st) error_text buf].
Proof.
  intros He Hlt Hsp. cbv zeta. unfold cleanup_envelope_process.
  rewrite He; simpl.
  orphan_frame st REC_TYPE_ATTR.
  replace (attr (drop_orphan_orig_rcpt st REC_TYPE_ATTR)) with (attr st)
    by congruence.
  destruct (Z.geb_spec (Z.of_nat (size (attr st))) var_qattr_count_limit)
    as [Hge|_]; [lia|].
  rewrite Hsp; simpl.
  repeat split; try congruence. apply land_lor_same.
Qed.

(** ** The sign of the warning time *)

Lemma process_warn_time_ok (st : CLEANUP_STATE) (type : rec_type)
    (buf : string) (len : Z) :
  rewriter_keeps_times cleanup_addr_sender ->
  rewriter_keeps_times cleanup_addr_recipient ->
  (type = REC_TYPE_TIME -> time_fits (atol buf)) ->
  warn_time_ok st ->
  warn_time_ok (cleanup_envelope_process st type buf len).
Proof.
  intros Hsnd Hrcp Htime [Ht Hw]. unfold cleanup_envelope_process.
  orphan_frame st type.
  assert (Hbd : bad st -> bad (drop_orphan_orig_rcpt st type))
    by (apply bad_errs_eq; assumption).
  pose proof (Hsnd (drop_orphan_orig_rcpt st type) buf) as (Hs1 & Hs2 & Hs3).
  pose proof (Hrcp (drop_orphan_orig_rcpt st type) buf) as (Hr1 & Hr2 & Hr3).
  pose proof (Hrcp (set_orig_rcpt (Some buf) (drop_orphan_orig_rcpt st type))
                buf) as (Hq1 & Hq2 & Hq3).
  simpl in Hq1, Hq2.
  assert (Hq3' : bad st ->
            bad (cleanup_addr_recipient
                   (set_orig_rcpt (Some buf)
                      (drop_orphan_orig_rcpt st type)) buf))
    by (intros Hb; apply Hq3, (bad_errs_eq (drop_orphan_orig_rcpt st type));
        [reflexivity|auto]).
  assert (Hkeep : forall s', time s' = time st ->
            warn_time s' = warn_time st -> (bad st -> bad s') ->
            warn_time_ok s').
  { intros s' E1 E2 E3. split; [rewrite E1; exact Ht|].
    destruct Hw as [Hw|Hw]; [left; lia|right; auto]. }
  assert (Hflag : forall s', time s' = time st -> warn_time_ok (flag_bad s')).
  { intros s' E1. split; [simpl; rewrite E1; exact Ht|].
    right; apply bad_flag_bad. }
  destruct type; simpl;
    repeat match goal with
    | |- context [match sender ?s with _ => _ end] =>
        destruct (sender s) as [[|? ?]|]; simpl
    | |- context [match orig_rcpt ?s with _ => _ end] =>
        destruct (orig_rcpt s); simpl
    | |- context [match verp_delims_verify ?b with _ => _ end] =>
        destruct (verp_delims_verify b); simpl
    | |- context [match split_nameval ?b with _ => _ end] =>
        destruct (split_nameval b) as [?|[? ?]]; simpl
    | |- context [bool_decide ?P] => destruct (bool_decide P); simpl
    | |- context [negb (in_REC_TYPE_ENVELOPE ?t)] =>
        destruct (in_REC_TYPE_ENVELOPE t); simpl
    | |- context [Z.of_nat ?n >=? ?m] => destruct (Z.of_nat n >=? m); simpl
    end;
    try (apply Hflag; simpl; congruence);
    try (apply Hkeep; simpl; first [congruence | auto]; fail).
  - (* TIME *)
    specialize (Htime eq_refl). split; [simpl; exact Htime|].
    destruct Hw as [Hw|Hw]; [left; simpl; lia|right; auto].
  - (* WARN *)
    destruct (Z.ltb_spec (atol buf) 0) as [Hn|Hn].
    + apply Hflag; simpl; congruence.
    + split; [simpl; replace (time (drop_orphan_orig_rcpt st REC_TYPE_WARN))
                       with (time st) by congruence; exact Ht
             |left; simpl; lia].
  - (* FLGS *)
    destruct (Z.land (to_int (atol buf))
                (Z.lnot CLEANUP_FLAG_MASK_EXTRA) =? 0); simpl;
      apply Hkeep; simpl; auto.
  - (* MESG *)
    destruct (Z.eqb_spec (time st) 0) as [Hz|Hz]; simpl.
    + apply Hflag; reflexivity.
    + destruct (Z.eqb_spec (warn_time st) 0) as [Hwz|Hwz]; simpl.
      * destruct (Z.gtb_spec var_delay_warn_time 0) as [Hd|Hd]; simpl.
        -- destruct Ht as [Ht0 Ht1].
           assert (Hsum : to_long (time st + var_delay_warn_time) =
                          time st + var_delay_warn_time).
           { apply to_long_fits. unfold LONG_MIN.
             split; [lia|apply Ht1; lia]. }
           destruct (to_long (time st + var_delay_warn_time) =? 0); simpl;
             (split; [simpl; split; assumption|left; simpl; lia]).
        -- destruct (Z.eqb_spec (warn_time st) 0); simpl;
             apply Hkeep; simpl; auto.
      * destruct (Z.eqb_spec (warn_time st) 0); simpl;
          apply Hkeep; simpl; auto.
Qed.

Lemma records_warn_time_ok (rs : list record) (st : CLEANUP_STATE) :
  rewriter_keeps_times cleanup_addr_sender ->
  rewriter_keeps_times cleanup_addr_recipient ->
  Forall (fun r => r.1.1 = REC_TYPE_TIME -> time_fits (atol r.1.2)) rs ->
  warn_time_ok st ->
  warn_time_ok (cleanup_records st rs).
Proof.
  intros Hsnd Hrcp. revert st.
  induction rs as [|[[type b] l] rs IH]; intros st HF Hok; [exact Hok|].
  inversion HF as [|? ? Hhd HF']; subst. simpl in Hhd.
  unfold cleanup_records in *; simpl. apply IH; [exact HF'|].
  destruct (action st); [| now apply process_warn_time_ok | exact Hok].
  unfold cleanup_envelope. apply process_warn_time_ok; assumption.
Qed.

(** C2 (as amended).  A WARN record stores its parsed content in
    [warn_time] whatever its sign, and marks the message bad when it is
    negative; a content that is not negative raises no error.  So
    [warn_time] can be negative, but only in a bad message or after an
    arrival time that is negative or so large that adding the delay leaves
    the range of [time_t]: for rewriters that keep the time stamps and the
    error flag, and a stream whose TIME records are not negative and stay
    in range with the delay added, every state reached from a state with
    such time stamps has [warn_time >= 0] or the error flag set. *)
Theorem warn_time_sign (st : CLEANUP_STATE) (buf : string) (len : Z) :
  in_REC_TYPE_ENVELOPE REC_TYPE_WARN = true ->
  let st' := cleanup_envelope_process st REC_TYPE_WARN buf len in
  warn_time st' = atol buf /\
  (atol buf < 0 -> bad st') /\
  (0 <= atol buf -> errs st' = errs st) /\
  (rewriter_keeps_times cleanup_addr_sender ->
   rewriter_keeps_times cleanup_addr_recipient ->
   time_fits (time st) -> 0 <= warn_time st ->
   forall rs : list record,
     Forall (fun r => r.1.1 = REC_TYPE_TIME -> time_fits (atol r.1.2)) rs ->
     let st'' := cleanup_records st rs in
     0 <= warn_time st'' \/ bad st'').
Proof.
  intros He. cbv zeta.
  split; [|split; [|split]].
  - unfold cleanup_envelope_process. rewrite He; simpl.
    destruct (atol buf <? 0); reflexivity.
  - intros Hn. unfold cleanup_envelope_process. rewrite He; simpl.
    destruct (Z.ltb_spec (atol buf) 0); [apply bad_flag_bad|lia].
  - intros Hn. unfold cleanup_envelope_process. rewrite He; simpl.
    orphan_frame st REC_TYPE_WARN.
    destruct (Z.ltb_spec (atol buf) 0); [lia|simpl; assumption].
  - intros Hsnd Hrcp Ht Hw rs HF.
    apply (records_warn_time_ok rs st Hsnd Hrcp HF).
    split; [exact Ht|left; exact Hw].
Qed.

(** ** Original recipient records *)

(** Records that are not handed to a rewriter only add warnings, and
    leave no original recipient pending except the one of an ORCP
    record. *)
Lemma process_no_pending (st : CLEANUP_STATE) (type : rec_type)
    (buf : string) (len : Z) :
  in_REC_TYPE_ENVELOPE type = true ->
  type <> REC_TYPE_MESG -> type <> REC_TYPE_FLGS ->
  type <> REC_TYPE_RCPT -> type <> REC_TYPE_FROM ->
  orig_rcpt st = None ->
  let st' := cleanup_envelope_process st type buf len in
  orig_rcpt st' = (if decide (type = REC_TYPE_ORCP) then Some buf else None)
  /\ exists l, log st' = log st ++ l.
Proof.
  intros He Hm Hf Hr Hfr Ho. cbv zeta. unfold cleanup_envelope_process.
  rewrite (drop_orphan_none st type Ho).
  destruct type; try contradiction; rewrite He; simpl;
    repeat match goal with
    | |- context [match sender ?s with _ => _ end] =>
        destruct (sender s) as [[|? ?]|]; simpl
    | |- context [match verp_delims_verify ?b with _ => _ end] =>
        destruct (verp_delims_verify b); simpl
    | |- context [match split_nameval ?b with _ => _ end] =>
        destruct (split_nameval b) as [?|[? ?]]; simpl
    | |- context [if ?b then _ else _] => destruct b; simpl
    end;
    (split; [assumption || reflexivity|]);
    first [ exists []; rewrite app_nil_r; reflexivity
          | eexists; reflexivity ].
Qed.

(** C4 (as amended).  After an ORCP record the original recipient is
    pending.  When the next record is a RCPT record and the sender is
    known, the recipient rewriter is called on the state in which
    [orig_rcpt] is the content of the ORCP record, and the pending value
    is released afterwards.  When the next record is an envelope record of
    another type (the boundary and the flags record return before this
    point), the pending value is dropped before the record is handled,
    with a warning unless the record is a DONE record. *)
Theorem orcp_then_record (st : CLEANUP_STATE) (orcp : string) (olen : Z)
    (type : rec_type) (buf : string) (len : Z) :
  in_REC_TYPE_ENVELOPE REC_TYPE_ORCP = true ->
  in_REC_TYPE_ENVELOPE type = true ->
  type <> REC_TYPE_MESG -> type <> REC_TYPE_FLGS ->
  let st1 := cleanup_envelope_process st REC_TYPE_ORCP orcp olen in
  let st2 := cleanup_envelope_process st1 type buf len in
  let w := WARN_out_of_order_orig_rcpt (queue_id st) orcp in
  orig_rcpt st1 = Some orcp /\
  (type = REC_TYPE_RCPT -> sender st <> None ->
     st2 = set_orig_rcpt None (cleanup_addr_recipient st1 buf) /\
     orig_rcpt st2 = None) /\
  (type <> REC_TYPE_RCPT ->
     let dropped :=
       set_orig_rcpt None
         (if decide (type = REC_TYPE_DONE) then st1 else msg_warn w st1) in
     st2 = cleanup_envelope_process dropped type buf len /\
     (type <> REC_TYPE_FROM ->
        orig_rcpt st2 =
          (if decide (type = REC_TYPE_ORCP) then Some buf else None) /\
        (type <> REC_TYPE_DONE -> w ∈ log st2) /\
        (type = REC_TYPE_DONE -> log st2 = log st1))).
Proof.
  intros Heo He Hm Hf. cbv zeta.
  set (st1 := cleanup_envelope_process st REC_TYPE_ORCP orcp olen).
  assert (Hst1 : st1 = set_orig_rcpt (Some orcp)
                         (drop_orphan_orig_rcpt st REC_TYPE_ORCP)).
  { unfold st1, cleanup_envelope_process. rewrite Heo. reflexivity. }
  orphan_frame st REC_TYPE_ORCP.
  assert (Ho1 : orig_rcpt st1 = Some orcp) by (rewrite Hst1; reflexivity).
  assert (Hs1 : sender st1 = sender st) by (rewrite Hst1; simpl; congruence).
  assert (Hq1 : queue_id st1 = queue_id st)
    by (rewrite Hst1; simpl; congruence).
  split; [exact Ho1|]. split.
  - intros -> Hs. unfold cleanup_envelope_process at 1 2.
    rewrite He; simpl. unfold drop_orphan_orig_rcpt; simpl.
    rewrite Hs1. destruct (sender st) as [a|]; [|contradiction].
    rewrite Ho1. split; reflexivity.
  - intros Hr.
    set (dropped := set_orig_rcpt None
           (if decide (type = REC_TYPE_DONE) then st1
            else msg_warn (WARN_out_of_order_orig_rcpt (queue_id st) orcp)
                   st1)).
    assert (Hd1 : drop_orphan_orig_rcpt st1 type = dropped).
    { unfold drop_orphan_orig_rcpt, dropped.
      destruct (decide (type = REC_TYPE_RCPT)); [contradiction|].
      rewrite Ho1, Hq1.
      destruct (decide (type = REC_TYPE_DONE)); reflexivity. }
    assert (Hd2 : drop_orphan_orig_rcpt dropped type = dropped)
      by (apply drop_orphan_none; reflexivity).
    assert (Heq : cleanup_envelope_process st1 type buf len =
                  cleanup_envelope_process dropped type buf len).
    { unfold cleanup_envelope_process.
      destruct type; try contradiction; rewrite He; simpl;
        rewrite Hd1, Hd2; reflexivity. }
    split; [exact Heq|]. intros Hfr. rewrite Heq.
    destruct (process_no_pending dropped type buf len He Hm Hf Hr Hfr
                eq_refl) as [Hor [l Hl]].
    split; [exact Hor|]. split.
    + intros Hnd. rewrite Hl. apply elem_of_app. left.
      unfold dropped. destruct (decide (type = REC_TYPE_DONE));
        [contradiction|]. simpl. apply elem_of_app. right. left.
    + intros ->. unfold cleanup_envelope_process. rewrite He.
      rewrite Hd2. reflexivity.
Qed.

(** ** The attribute count limit *)

Lemma attr_record_step (st : CLEANUP_STATE) (buf : string) (len : Z)
    (n v : string) :
  in_REC_TYPE_ENVELOPE REC_TYPE_ATTR = true ->
  action st <> ACTION_cleanup_message ->
  0 <= var_qattr_count_limit ->
  split_nameval buf = inr (n, v) ->
  let lim := Z.to_nat var_qattr_count_limit in
  let st' := cleanup_record st (REC_TYPE_ATTR, buf, len) in
  action st' <> ACTION_cleanup_message /\
  ((size (attr st) < lim)%nat -> attr st' = <[n := v]> (attr st)) /\
  ((lim <= size (attr st))%nat -> attr st' = attr st /\ bad st').
Proof.
  intros He Ha Hl Hsp. cbv zeta.
  assert (Hstep : forall s, action s <> ACTION_cleanup_message ->
    let s' := cleanup_envelope_process s REC_TYPE_ATTR buf len in
    action s' <> ACTION_cleanup_message /\
    ((size (attr s) < Z.to_nat var_qattr_count_limit)%nat ->
       attr s' = <[n := v]> (attr s)) /\
    ((Z.to_nat var_qattr_count_limit <= size (attr s))%nat ->
       attr s' = attr s /\ bad s')).
  { intros s Hs. cbv zeta. unfold cleanup_envelope_process.
    rewrite He; simpl. orphan_frame s REC_TYPE_ATTR.
    replace (attr (drop_orphan_orig_rcpt s REC_TYPE_ATTR)) with (attr s)
      by congruence.
    destruct (Z.geb_spec (Z.of_nat (size (attr s))) var_qattr_count_limit)
      as [Hge|Hlt]; simpl.
    - split; [congruence|]. split; [lia|].
      intros _. split; [assumption|apply land_lor_same].
    - rewrite Hsp; simpl. split; [congruence|].
      split; [intros _; congruence|lia]. }
  unfold cleanup_record.
  destruct (action st) eqn:Hact; [|apply Hstep; congruence|contradiction].
  unfold cleanup_envelope.
  apply (Hstep (set_action ACTION_cleanup_envelope_process
                  (cleanup_out_format st REC_TYPE_SIZE [0; 0; 0]))).
  simpl; discriminate.
Qed.

Lemma attr_records_snoc (st : CLEANUP_STATE) (rs : list (string * Z))
    (k : nat) (r : string * Z) :
  rs !! k = Some r ->
  cleanup_records st (attr_records (take (S k) rs)) =
  cleanup_record (cleanup_records st (attr_records (take k rs)))
    (REC_TYPE_ATTR, r.1, r.2).
Proof.
  intros Hk. rewrite (take_S_r _ _ _ Hk).
  unfold attr_records, cleanup_records.
  rewrite map_app, fold_left_app. reflexivity.
Qed.

Section AttrStream.

Variables (st : CLEANUP_STATE) (rs : list (string * Z))
          (nvs : list (string * string)).

Hypothesis attr_in_envelope : in_REC_TYPE_ENVELOPE REC_TYPE_ATTR = true.
Hypothesis envelope_handler : action st <> ACTION_cleanup_message.
Hypothesis attr_empty : attr st = ∅.
Hypothesis limit_nonneg : 0 <= var_qattr_count_limit.
Hypothesis well_formed :
  Forall2 (fun r nv => split_nameval r.1 = inr nv) rs nvs.
Hypothesis distinct_names : NoDup nvs.*1.

Let lim : nat := Z.to_nat var_qattr_count_limit.
Let after (k : nat) : CLEANUP_STATE :=
  cleanup_records st (attr_records (take k rs)).

Lemma NoDup_take_names (k : nat) : NoDup (take k nvs).*1.
Proof.
  rewrite fmap_take.
  exact (sublist_NoDup _ _ distinct_names (sublist_take _ k)).
Qed.

Lemma attr_after (k : nat) :
  (k <= length rs)%nat ->
  action (after k) <> ACTION_cleanup_message /\
  attr (after k) = list_to_map (take (min k lim) nvs).
Proof.
  induction k as [|k IH]; intros Hk.
  - split; [exact envelope_handler|]. simpl. exact attr_empty.
  - destruct IH as [IHa IHm]; [lia|].
    destruct (lookup_lt_is_Some_2 rs k) as [r Hr]; [lia|].
    destruct (Forall2_lookup_l _ _ _ _ _ well_formed Hr)
      as ([n v] & Hnv & Hsp).
    assert (Hlen : length rs = length nvs)
      by (eapply Forall2_length; exact well_formed).
    assert (Hsize : size (attr (after k)) = min k lim).
    { rewrite IHm, map_size_list_to_map by apply NoDup_take_names.
      rewrite length_take. lia. }
    unfold after in *. rewrite (attr_records_snoc st rs k r Hr).
    destruct (attr_record_step
                (cleanup_records st (attr_records (take k rs)))
                r.1 r.2 n v attr_in_envelope IHa limit_nonneg Hsp)
      as (Ha & Hlt & Hge).
    split; [exact Ha|].
    destruct (le_lt_dec lim k) as [Hfull|Hroom].
    + destruct Hge as [Hge _]; [fold lim; lia|]. rewrite Hge, IHm.
      replace (min (S k) lim) with (min k lim) by lia. reflexivity.
    + rewrite Hlt, IHm by (fold lim; lia).
      replace (min (S k) lim) with (S k) by lia.
      replace (min k lim) with k by lia.
      rewrite (take_S_r _ _ _ Hnv).
      rewrite list_to_map_snoc; [reflexivity|].
      intros Hin. pose proof distinct_names as Hnd.
      rewrite <- (take_drop k nvs), fmap_app in Hnd.
      apply NoDup_app in Hnd as (_ & Hdisj & _).
      apply (Hdisj n Hin).
      rewrite (drop_S _ _ _ Hnv). simpl. left.
Qed.

Lemma attr_size_after (k : nat) :
  (k <= length rs)%nat -> size (attr (after k)) = min k lim.
Proof.
  intros Hk. destruct (attr_after k Hk) as [_ Hm].
  assert (Hlen : length rs = length nvs)
      by (eapply Forall2_length; exact well_formed).
  rewrite Hm, map_size_list_to_map by apply NoDup_take_names.
  rewrite length_take. lia.
Qed.

(** C5.  For a stream of well-formed ATTR records with distinct names,
    processed from a state with an empty attribute table (the limit not
    being negative): after every record the table holds at most
    [var_qattr_count_limit] attributes; when the stream is no longer than
    the limit every attribute of the stream is in the table; when it is
    longer the table holds exactly the first [limit] attributes; and every
    ATTR record that arrives once the table holds [limit] attributes
    marks the message bad and leaves the table as it is. *)
Theorem attr_stream_limit :
  (forall k, (k <= length rs)%nat ->
     Z.of_nat (size (attr (after k))) <= var_qattr_count_limit) /\
  ((length rs <= lim)%nat ->
     forall n v, (n, v) ∈ nvs ->
       attr (cleanup_records st (attr_records rs)) !! n = Some v) /\
  ((lim < length rs)%nat ->
     attr (cleanup_records st (attr_records rs)) =
       list_to_map (take lim nvs)) /\
  (forall k, (lim <= k < length rs)%nat ->
     size (attr (after k)) = lim /\
     attr (after (S k)) = attr (after k) /\
     bad (after (S k))).
Proof.
  assert (Hlen : length rs = length nvs)
      by (eapply Forall2_length; exact well_formed).
  assert (Hall : cleanup_records st (attr_records rs) = after (length rs))
    by (unfold after; rewrite firstn_all; reflexivity).
  rewrite !Hall.
  split; [|split; [|split]].
  - intros k Hk. rewrite (attr_size_after k Hk). subst lim. lia.
  - intros Hle n v Hin.
    destruct (attr_after (length rs)) as [_ Hm]; [lia|].
    rewrite Hm. replace (min (length rs) lim) with (length nvs) by lia.
    rewrite firstn_all.
    apply elem_of_list_to_map_1; [exact distinct_names|exact Hin].
  - intros Hlt. destruct (attr_after (length rs)) as [_ Hm]; [lia|].
    rewrite Hm. replace (min (length rs) lim) with lim by lia. reflexivity.
  - intros k [Hk1 Hk2].
    assert (Hsz : size (attr (after k)) = lim)
      by (rewrite attr_size_after by lia; lia).
    split; [exact Hsz|].
    destruct (lookup_lt_is_Some_2 rs k) as [r Hr]; [lia|].
    destruct (Forall2_lookup_l _ _ _ _ _ well_formed Hr)
      as ([n v] & Hnv & Hsp).
    destruct (attr_after k) as [Ha _]; [lia|].
    unfold after in *. rewrite (attr_records_snoc st rs k r Hr).
    destruct (attr_record_step
                (cleanup_records st (attr_records (take k rs)))
                r.1 r.2 n v attr_in_envelope Ha limit_nonneg Hsp)
      as (_ & _ & Hge).
    apply Hge. fold lim. lia.
Qed.

End AttrStream.

End Handler.

(** ** The handler at work

    The scenarios of the specification, run with the environment of
    [Demo]. *)

Example happy_path :
  let st := Demo.records Demo.fresh_state
              [Demo.rec REC_TYPE_TIME "1700000000";
               Demo.rec REC_TYPE_FROM "alice@example";
               Demo.rec REC_TYPE_ORCP "Bob@EXAMPLE";
               Demo.rec REC_TYPE_RCPT "bob@example";
               Demo.rec REC_TYPE_ATTR "log=main";
               Demo.rec REC_TYPE_MESG ""] in
  dst st = [OutFormat REC_TYPE_SIZE [0; 0; 0];
            Out REC_TYPE_TIME "1700000000" 10;
            Out REC_TYPE_FROM "alice@example" 13;
            Out REC_TYPE_ORCP "Bob@EXAMPLE" 11;
            Out REC_TYPE_RCPT "bob@example" 11;
            Out REC_TYPE_ATTR "log=main" 8;
            OutFormat REC_TYPE_WARN [1700014400]] /\
  errs st = 0 /\ log st = [] /\ action st = ACTION_cleanup_message /\
  map_to_list (attr st) = [("log", "main")]%string.
Proof. vm_compute. repeat split. Qed.

Example recipient_before_sender :
  let st := Demo.records Demo.fresh_state
              [Demo.rec REC_TYPE_TIME "1";
               Demo.rec REC_TYPE_RCPT "bob@example";
               Demo.rec REC_TYPE_MESG ""] in
  dst st = [OutFormat REC_TYPE_SIZE [0; 0; 0]; Out REC_TYPE_TIME "1" 1] /\
  errs st = 1 /\ sender st = None /\
  action st = ACTION_cleanup_envelope_process.
Proof. vm_compute. repeat split. Qed.

Example attribute_limit :
  let st := Demo.records Demo.fresh_state
              [Demo.rec REC_TYPE_ATTR "a=1"; Demo.rec REC_TYPE_ATTR "b=2";
               Demo.rec REC_TYPE_ATTR "c=3"] in
  map_to_list (attr st) = [("a", "1"); ("b", "2")]%string /\ errs st = 1 /\
  log st = [WARN_attr_count_limit "QID" 2].
Proof. vm_compute. repeat split. Qed.

Example orphan_orcp :
  let st := Demo.records Demo.fresh_state
              [Demo.rec REC_TYPE_TIME "1"; Demo.rec REC_TYPE_FROM "a@x";
               Demo.rec REC_TYPE_ORCP "X"; Demo.rec REC_TYPE_TIME "2";
               Demo.rec REC_TYPE_RCPT "b@y"; Demo.rec REC_TYPE_MESG ""] in
  dst st = [OutFormat REC_TYPE_SIZE [0; 0; 0]; Out REC_TYPE_TIME "1" 1;
            Out REC_TYPE_FROM "a@x" 3; Out REC_TYPE_TIME "2" 1;
            Out REC_TYPE_ORCP "b@y" 3; Out REC_TYPE_RCPT "b@y" 3;
            OutFormat REC_TYPE_WARN [14402]] /\
  log st = [WARN_out_of_order_orig_rcpt "QID" "X"] /\ errs st = 0 /\
  time st = 2.
Proof. vm_compute. repeat split. Qed.

Example bad_verp :
  let st := Demo.records Demo.fresh_state
              [Demo.rec REC_TYPE_FROM "a@x"; Demo.rec REC_TYPE_VERP "+ "] in
  dst st = [OutFormat REC_TYPE_SIZE [0; 0; 0]; Out REC_TYPE_FROM "a@x" 3] /\
  errs st = 1.
Proof. vm_compute. repeat split. Qed.

(** A pending original recipient survives the records that return before
    the orphan cleanup: a rejected recipient and the boundary record. *)
Example orcp_survives_rejected_rcpt :
  let st := Demo.records Demo.fresh_state
              [Demo.rec REC_TYPE_TIME "1"; Demo.rec REC_TYPE_ORCP "X";
               Demo.rec REC_TYPE_RCPT "b@y"] in
  orig_rcpt st = Some "X"%string /\
  log st = [WARN_recipient_precedes_sender "QID"].
Proof. vm_compute. repeat split. Qed.

Example orcp_survives_boundary :
  let st := Demo.process
              (Demo.process Demo.mid_envelope REC_TYPE_ORCP "X" 1)
              REC_TYPE_MESG "" 0 in
  orig_rcpt st = Some "X"%string /\ log st = [] /\
  action st = ACTION_cleanup_message.
Proof. vm_compute. repeat split. Qed.

(** A negative arrival time gives a negative warning time in a message
    that is not bad. *)
Example negative_time_negative_warn_time :
  let st := Demo.records Demo.fresh_state
              [Demo.rec REC_TYPE_TIME "-20000"; Demo.rec REC_TYPE_FROM "a@x";
               Demo.rec REC_TYPE_MESG ""] in
  warn_time st = -5600 /\ errs st = 0 /\
  dst st = [OutFormat REC_TYPE_SIZE [0; 0; 0];
            Out REC_TYPE_TIME "-20000" 6; Out REC_TYPE_FROM "a@x" 3;
            OutFormat REC_TYPE_WARN [-5600]].
Proof. vm_compute. repeat split. Qed.

(** An arrival time at the end of the range of [time_t]: the sum with the
    delay wraps around, and the warning time is negative in a message that
    is not bad. *)
Example overflowing_time_negative_warn_time :
  let st := Demo.records Demo.fresh_state
              [Demo.rec REC_TYPE_TIME "9223372036854775807";
               Demo.rec REC_TYPE_FROM "a@x"; Demo.rec REC_TYPE_MESG ""] in
  time st = LONG_MAX /\ warn_time st = -9223372036854761409 /\ errs st = 0 /\
  action st = ACTION_cleanup_message /\
  last (dst st) = Some (OutFormat REC_TYPE_WARN [-9223372036854761409]).
Proof. vm_compute. repeat split. Qed.

(** Numbers outside the range of [long] are read as the nearest end of the
    range: a TIME record stores [LONG_MAX], and a FLGS record is read as
    the mask -1, which is refused. *)
Example out_of_range_numbers :
  atol "99999999999999999999" = LONG_MAX /\
  atol "-99999999999999999999" = LONG_MIN /\
  atol "-9223372036854775808" = LONG_MIN /\
  time (Demo.process Demo.mid_envelope REC_TYPE_TIME
          "99999999999999999999" 20) = LONG_MAX /\
  (let st := Demo.process Demo.mid_envelope REC_TYPE_FLGS
               "99999999999999999999" 20 in
   flags st = 0 /\ log st = [WARN_bad_extra_flags "QID" (-1)]) /\
  (let st := Demo.process Demo.mid_envelope REC_TYPE_FLGS
               "18446744073709551628" 20 in
   flags st = 0 /\ log st = [WARN_bad_extra_flags "QID" (-1)]).
Proof. vm_compute. repeat split. Qed.

(** The rewriters of [Demo] keep the time stamps and the error flag. *)
Lemma demo_sender_keeps_times :
  @rewriter_keeps_times Demo.env Demo.cleanup_addr_sender.
Proof. intros st buf. repeat split. intros H; exact H. Qed.

Lemma demo_recipient_keeps_times :
  @rewriter_keeps_times Demo.env Demo.cleanup_addr_recipient.
Proof. intros st buf. repeat split. intros H; exact H. Qed.

(** Whatever the mask of extra flags, unless it allows every bit: a
    record with all bits set is rejected as a whole. *)
Lemma flgs_all_bits_rejected {env : cleanup_env} (st : CLEANUP_STATE) :
  CLEANUP_FLAG_MASK_EXTRA <> -1 ->
  flags (cleanup_envelope_process st REC_TYPE_FLGS "-1" 2) = flags st /\
  Z.lor 0 (Z.land (Libc.to_int (Libc.atol "-1")) CLEANUP_FLAG_MASK_EXTRA) =
    CLEANUP_FLAG_MASK_EXTRA.
Proof.
  intros Hm.
  change (Libc.to_int (Libc.atol "-1")) with (-1).
  split; [|rewrite Z.lor_0_l, Z.land_comm; apply Z.land_m1_r].
  unfold cleanup_envelope_process.
  change (Libc.to_int (Libc.atol "-1")) with (-1).
  rewrite Z.land_comm, Z.land_m1_r.
  destruct (Z.eqb_spec (Z.lnot CLEANUP_FLAG_MASK_EXTRA) 0) as [H0|H0];
    [|reflexivity].
  exfalso. apply Hm. rewrite <- (Z.lnot_involutive CLEANUP_FLAG_MASK_EXTRA).
  rewrite H0. reflexivity.
Qed.

(** ** The theorems at concrete records *)

Lemma mesg_record_boundary_witness :
  (let st' := Demo.process Demo.fresh_state REC_TYPE_MESG "" 0 in
   errs st' = 1 /\ @bad Demo.env st' /\
   action st' = ACTION_cleanup_envelope /\ warn_time st' = 0 /\
   dst st' = []) /\
  (let st' := Demo.process Demo.mid_envelope REC_TYPE_MESG "" 0 in
   warn_time st' = 1700014400 /\
   dst st' = [OutFormat REC_TYPE_SIZE [0; 0; 0];
              OutFormat REC_TYPE_WARN [1700014400]] /\
   action st' = ACTION_cleanup_message /\ errs st' = 0).
Proof.
  split.
  - destruct (@mesg_record_boundary Demo.env Demo.fresh_state "" 0) as (H & _).
    apply H. left. reflexivity.
  - destruct (@mesg_record_boundary Demo.env Demo.mid_envelope "" 0)
      as (_ & H & _).
    destruct H as (H1 & H2 & H3 & H4 & _); [discriminate|discriminate|].
    split; [exact H1|]. split; [exact H2|]. split; [exact H3|exact H4].
Defined.

(** The first MESG record of an empty envelope does not install the
    content handler. *)
Lemma mesg_first_record_stays :
  action (Demo.records Demo.fresh_state [Demo.rec REC_TYPE_MESG ""]) <>
    ACTION_cleanup_message.
Proof. vm_compute. discriminate. Qed.

Lemma warn_time_sign_witness :
  let st' := Demo.process Demo.mid_envelope REC_TYPE_WARN "-1" 2 in
  let st'' := Demo.records Demo.mid_envelope
                [Demo.rec REC_TYPE_TIME "1700000001";
                 Demo.rec REC_TYPE_WARN "-1"; Demo.rec REC_TYPE_MESG ""] in
  warn_time st' = -1 /\ @bad Demo.env st' /\
  (0 <= warn_time st'' \/ @bad Demo.env st'').
Proof.
  destruct (@warn_time_sign Demo.env Demo.mid_envelope "-1" 2)
    as (H1 & H2 & _ & H4); [reflexivity|].
  split; [exact H1|]. split; [apply H2; reflexivity|].
  apply H4.
  - exact demo_sender_keeps_times.
  - exact demo_recipient_keeps_times.
  - split; [|intros _]; vm_compute; discriminate.
  - vm_compute. discriminate.
  - apply Forall_cons; split;
      [intros _; split; [|intros _]; vm_compute; discriminate|].
    apply Forall_cons; split; [intros H; discriminate H|].
    apply Forall_cons; split; [intros H; discriminate H|].
    apply Forall_nil_2.
Defined.

(** After a WARN record with content -1 the warning time is negative. *)
Lemma warn_time_negative :
  ~ 0 <= warn_time (Demo.records Demo.fresh_state
                      [Demo.rec REC_TYPE_WARN "-1"]).
Proof. vm_compute. intros H. apply H. reflexivity. Qed.

Lemma flgs_record_witness :
  (let st' := Demo.process Demo.mid_envelope REC_TYPE_FLGS "13" 2 in
   flags st' = 0 /\ log st' = [WARN_bad_extra_flags "QID" 13]) /\
  (let st' := Demo.process Demo.mid_envelope REC_TYPE_FLGS "12" 2 in
   flags st' = 12 /\ Z.land 12 12 = 12 /\ log st' = []).
Proof.
  split.
  - destruct (@flgs_record Demo.env Demo.mid_envelope "13" 2)
      as (_ & _ & _ & H & _).
    apply H. vm_compute. discriminate.
  - destruct (@flgs_record Demo.env Demo.mid_envelope "12" 2)
      as (_ & _ & _ & _ & H).
    apply H. vm_compute. reflexivity.
Defined.

(** A record with bits inside and outside the mask: the bits inside are
    not taken. *)
Lemma flgs_in_mask_bits_not_taken :
  let st := Demo.mid_envelope in
  flags (Demo.process st REC_TYPE_FLGS "-1" 2) <>
    Z.lor (flags st)
      (Z.land (Libc.to_int (Libc.atol "-1"))
         (@CLEANUP_FLAG_MASK_EXTRA Demo.env)).
Proof. vm_compute. discriminate. Qed.

Lemma orcp_then_record_witness :
  let st1 := Demo.process Demo.mid_envelope REC_TYPE_ORCP "Bob@EXAMPLE" 11 in
  let st2 := Demo.process st1 REC_TYPE_RCPT "bob@example" 11 in
  orig_rcpt st1 = Some "Bob@EXAMPLE"%string /\
  st2 = set_orig_rcpt None (Demo.cleanup_addr_recipient st1 "bob@example") /\
  orig_rcpt st2 = None /\
  dst st2 = [OutFormat REC_TYPE_SIZE [0; 0; 0];
             Out REC_TYPE_ORCP "Bob@EXAMPLE" 11;
             Out REC_TYPE_RCPT "bob@example" 11].
Proof.
  destruct (@orcp_then_record Demo.env Demo.mid_envelope "Bob@EXAMPLE" 11
              REC_TYPE_RCPT "bob@example" 11)
    as (H1 & H2 & _); try reflexivity; try discriminate.
  destruct H2 as [H2 H3]; [reflexivity|discriminate|].
  split; [exact H1|]. split; [exact H2|]. split; [exact H3|].
  vm_compute. reflexivity.
Defined.

(** An ORCP record followed by a DONE record: no warning is logged. *)
Lemma orcp_then_done_no_warning :
  ~ exists w, w ∈ log (Demo.records Demo.mid_envelope
                         [Demo.rec REC_TYPE_ORCP "Bob@EXAMPLE";
                          Demo.rec REC_TYPE_DONE ""]).
Proof. vm_compute. intros [w Hw]. inversion Hw. Qed.

Lemma attr_stream_limit_witness :
  let rs := [("a=1", 3); ("b=2", 3); ("c=3", 3)]%string in
  let nvs := [("a", "1"); ("b", "2"); ("c", "3")]%string in
  let after k := Demo.records Demo.fresh_state (attr_records (take k rs)) in
  (forall k, (k <= 3)%nat -> Z.of_nat (size (attr (after k))) <= 2) /\
  attr (Demo.records Demo.fresh_state (attr_records rs)) =
    list_to_map (take 2 nvs) /\
  (size (attr (after 2%nat)) = 2%nat /\
   attr (after 3%nat) = attr (after 2%nat) /\ @bad Demo.env (after 3%nat)).
Proof.
  destruct (@attr_stream_limit Demo.env Demo.fresh_state
              [("a=1", 3); ("b=2", 3); ("c=3", 3)]%string
              [("a", "1"); ("b", "2"); ("c", "3")]%string)
    as (H1 & _ & H3 & H4).
  - reflexivity.
  - discriminate.
  - reflexivity.
  - vm_compute. discriminate.
  - repeat constructor.
  - apply (bool_decide_unpack _). vm_compute. reflexivity.
  - split; [exact H1|]. split; [apply H3; simpl; lia|].
    apply (H4 2%nat). simpl. lia.
Defined.

Lemma rcpt_without_sender_rejected_witness :
  let st := Demo.records Demo.fresh_state [Demo.rec REC_TYPE_TIME "1"] in
  let st' := Demo.process st REC_TYPE_RCPT "bob@example" 11 in
  st' = @flag_bad Demo.env
          (msg_warn (WARN_recipient_precedes_sender "QID") st) /\
  log st' = [WARN_recipient_precedes_sender "QID"] /\ @bad Demo.env st' /\
  dst st' = dst st /\ sender st' = None.
Proof.
  destruct (@rcpt_without_sender_rejected Demo.env
              (Demo.records Demo.fresh_state [Demo.rec REC_TYPE_TIME "1"])
              "bob@example" 11) as (H1 & H2 & H3 & H4 & H5 & _).
  - reflexivity.
  - split; [exact H1|]. split; [exact H2|]. split; [exact H3|].
    split; [exact H4|exact H5].
Defined.

(** The rewriters of [Demo] leave the arrival time alone. *)
Lemma demo_sender_keeps_time :
  @rewriter_keeps_time Demo.cleanup_addr_sender.
Proof. intros st buf. reflexivity. Qed.

Lemma demo_recipient_keeps_time :
  @rewriter_keeps_time Demo.cleanup_addr_recipient.
Proof. intros st buf. reflexivity. Qed.

Lemma time_record_witness :
  let st := Demo.records Demo.fresh_state [Demo.rec REC_TYPE_TIME "1"] in
  let st' := Demo.process st REC_TYPE_TIME "2" 1 in
  let st'' := Demo.records Demo.fresh_state
                ([Demo.rec REC_TYPE_TIME "1"; Demo.rec REC_TYPE_FROM "a@x"] ++
                 (REC_TYPE_TIME, "2"%string, 1) ::
                 [Demo.rec REC_TYPE_RCPT "b@y"; Demo.rec REC_TYPE_MESG ""]) in
  time st = 1 /\ time st' = Libc.atol "2" /\
  dst st' = dst st ++ [Out REC_TYPE_TIME "2" 1] /\ errs st' = errs st /\
  time st'' = Libc.atol "2".
Proof.
  destruct (@time_record Demo.env
              (Demo.records Demo.fresh_state [Demo.rec REC_TYPE_TIME "1"])
              "2" 1)
    as (H1 & _ & H2 & H3 & _ & H5).
  - reflexivity.
  - split; [reflexivity|]. split; [exact H1|]. split; [exact H2|].
    split; [exact H3|].
    apply (H5 demo_sender_keeps_time demo_recipient_keeps_time
             Demo.fresh_state
             [Demo.rec REC_TYPE_TIME "1"; Demo.rec REC_TYPE_FROM "a@x"]
             [Demo.rec REC_TYPE_RCPT "b@y"; Demo.rec REC_TYPE_MESG ""]).
    + apply Forall_cons; split; [intros H; discriminate H|].
      apply Forall_cons; split; [intros H; discriminate H|].
      apply Forall_nil_2.
    + vm_compute. discriminate.
Defined.

(** A second TIME record changes the arrival time. *)
Lemma second_time_record_overwrites :
  time (Demo.records Demo.fresh_state
          [Demo.rec REC_TYPE_TIME "1"; Demo.rec REC_TYPE_TIME "2"]) <>
  time (Demo.records Demo.fresh_state [Demo.rec REC_TYPE_TIME "1"]).
Proof. vm_compute. discriminate. Qed.

Lemma verp_record_witness :
  (let st' := Demo.process Demo.fresh_state REC_TYPE_VERP "+=" 2 in
   @bad Demo.env st' /\ dst st' = dst Demo.fresh_state) /\
  (let st' := Demo.process Demo.mid_envelope REC_TYPE_VERP "+ " 2 in
   @bad Demo.env st' /\ dst st' = dst Demo.mid_envelope) /\
  (let st' := Demo.process Demo.mid_envelope REC_TYPE_VERP "+=" 2 in
   dst st' = dst Demo.mid_envelope ++ [Out REC_TYPE_VERP "+=" 2] /\
   errs st' = errs Demo.mid_envelope).
Proof.
  split; [|split].
  - destruct (@verp_record Demo.env Demo.fresh_state "+=" 2) as (H & _);
      [reflexivity|].
    apply H. left. reflexivity.
  - destruct (@verp_record Demo.env Demo.mid_envelope "+ " 2)
      as (_ & H & _); [reflexivity|].
    apply (H "alice@example"%string); [reflexivity|discriminate|discriminate].
  - destruct (@verp_record Demo.env Demo.mid_envelope "+=" 2)
      as (_ & _ & H & _); [reflexivity|].
    apply (H "alice@example"%string); [reflexivity|discriminate|reflexivity].
Defined.

Lemma attr_malformed_forwarded_witness :
  let st' := Demo.process Demo.mid_envelope REC_TYPE_ATTR "nonsense" 8 in
  dst st' = dst Demo.mid_envelope ++ [Out REC_TYPE_ATTR "nonsense" 8] /\
  @bad Demo.env st' /\ attr st' = attr Demo.mid_envelope /\
  log st' = [WARN_malformed_attribute "QID"
               "missing '=' after attribute name" "nonsense"].
Proof.
  apply (@attr_malformed_forwarded Demo.env Demo.mid_envelope "nonsense" 8
           "missing '=' after attribute name").
  - reflexivity.
  - vm_compute. reflexivity.
  - reflexivity.
Defined.

End CleanupProofs.

(** * Properties of the TLS server-init receiver *)

Module TlsProxyProofs.

Import TlsProxy.

Lemma fresh_lookup (h : heap) : h !! fresh (dom h) = None.
Proof. apply not_elem_of_dom, is_fresh. Qed.

Lemma update_same {F V : Type} `{EqDecision F} (f : F) (v : V) (m : F -> V) :
  update f v m f = v.
Proof. unfold update. destruct (decide (f = f)); congruence. Qed.

Lemma update_other {F V : Type} `{EqDecision F} (f g : F) (v : V)
    (m : F -> V) :
  g <> f -> update f v m g = m g.
Proof. intros Hne. unfold update. destruct (decide (g = f)); congruence. Qed.

Lemma str_fields_NoDup : NoDup str_fields.
Proof. apply (bool_decide_unpack _). vm_compute. reflexivity. Qed.

Lemma str_fields_all (f : str_field) : f ∈ str_fields.
Proof. apply (bool_decide_unpack _). destruct f; vm_compute; reflexivity. Qed.

Section Scan.

Variable VSTREAM : Type.
Variable ATTR_FLAG_MORE : Z.

(** ** The allocation loop: fresh, distinct, empty VSTRINGs *)

Lemma vstring_alloc_each_spec (fs : list str_field) (h : heap) :
  exists vs h1,
    vstring_alloc_each fs h = Some (vs, h1) /\
    vs.*1 = fs /\ NoDup vs.*2 /\
    (forall a, a ∈ vs.*2 ->
       h !! a = None /\ h1 !! a = Some (Vstring EmptyString)) /\
    (forall x, x ∉ vs.*2 -> h1 !! x = h !! x).
Proof.
  revert h. induction fs as [|f fs IH]; intros h.
  - exists [], h. split; [reflexivity|]. split; [reflexivity|].
    split; [constructor|].
    split; [intros a Ha; inversion Ha|reflexivity].
  - simpl. unfold bind at 1. unfold vstring_alloc.
    set (a := fresh (dom h)).
    assert (Ha : h !! a = None) by apply fresh_lookup.
    destruct (IH (<[a := Vstring EmptyString]> h))
      as (vs & h1 & Heq & Hfs & Hnd & Hin & Hout).
    unfold bind. rewrite Heq. exists ((f, a) :: vs), h1.
    assert (Hnew : a ∉ vs.*2).
    { intros Hc. destruct (Hin a Hc) as [Hnone _].
      rewrite lookup_insert_eq in Hnone. discriminate. }
    split; [reflexivity|]. split; [csimpl; congruence|].
    split; [csimpl; constructor; assumption|].
    split.
    + intros x Hx. csimpl in Hx. apply elem_of_cons in Hx as [->|Hx].
      * split; [exact Ha|]. rewrite (Hout a Hnew).
        apply lookup_insert_eq.
      * destruct (Hin x Hx) as [Hnone Hsome]. split; [|exact Hsome].
        destruct (decide (a = x)) as [->|Hne]; [exact Ha|].
        rewrite lookup_insert_ne in Hnone; assumption.
    + intros x Hx. csimpl in Hx. apply not_elem_of_cons in Hx as [Hne Hx].
      rewrite (Hout x Hx). apply lookup_insert_ne. congruence.
Qed.

(** ** The scan stores text in VSTRINGs and integers in the structure *)

Lemma store_scanned_spec (r : scan_result) (vs : list (str_field * addr))
    (h : heap) :
  (forall a, a ∈ vs.*2 -> exists s, h !! a = Some (Vstring s)) ->
  exists h1,
    store_scanned r vs h = Some (tt, h1) /\
    (forall a, a ∈ vs.*2 -> exists s, h1 !! a = Some (Vstring s)) /\
    (forall x, x ∉ vs.*2 -> h1 !! x = h !! x).
Proof.
  revert h. induction vs as [|[f v] vs IH]; intros h Hvs.
  - exists h. split; [reflexivity|].
    split; [intros a Ha; inversion Ha|reflexivity].
  - csimpl in *.
    destruct (Hvs v) as [s0 Hv]; [left|].
    assert (Hstep : exists h0,
      (match scan_str r f with
       | Some s => vstring_strcpy v s
       | None => ret tt
       end) h = Some (tt, h0) /\
      (exists s, h0 !! v = Some (Vstring s)) /\
      (forall x, x <> v -> h0 !! x = h !! x)).
    { destruct (scan_str r f) as [s|].
      - unfold vstring_strcpy. rewrite Hv.
        exists (<[v := Vstring s]> h). split; [reflexivity|]. split.
        + exists s. apply lookup_insert_eq.
        + intros x Hx. apply lookup_insert_ne. congruence.
      - exists h. split; [reflexivity|]. split; [eauto|reflexivity]. }
    destruct Hstep as (h0 & Hrun & Hv0 & Hfr0).
    destruct (IH h0) as (h1 & Heq & Hin & Hout).
    { intros a Ha. destruct (decide (a = v)) as [->|Hne]; [exact Hv0|].
      rewrite (Hfr0 a Hne). apply Hvs. right; exact Ha. }
    exists h1. unfold bind. rewrite Hrun. split; [exact Heq|]. split.
    + intros a Ha. apply elem_of_cons in Ha as [->|Ha]; [|auto].
      destruct (decide (v ∈ vs.*2)) as [Hd|Hd]; [auto|].
      rewrite (Hout v Hd). exact Hv0.
    + intros x Hx. apply not_elem_of_cons in Hx as [Hne Hx].
      rewrite (Hout x Hx). auto.
Qed.

Lemma store_scanned_int_spec (r : scan_result) (props : addr)
    (fs : list int_field) (h : heap) (p : TLS_SERVER_INIT_PROPS) :
  h !! props = Some (Struct p) ->
  exists h1 p1,
    store_scanned_int r props fs h = Some (tt, h1) /\
    h1 !! props = Some (Struct p1) /\
    str_member p1 = str_member p /\
    (forall x, x <> props -> h1 !! x = h !! x).
Proof.
  revert h p. induction fs as [|f fs IH]; intros h p Hp.
  - exists h, p. simpl. repeat split; assumption.
  - simpl.
    assert (Hstep : exists h0 p0,
      (match scan_int r f with
       | Some z => set_int_member props f z
       | None => ret tt
       end) h = Some (tt, h0) /\
      h0 !! props = Some (Struct p0) /\
      str_member p0 = str_member p /\
      (forall x, x <> props -> h0 !! x = h !! x)).
    { destruct (scan_int r f) as [z|].
      - unfold set_int_member, bind, load_props. rewrite Hp.
        eexists _, _. split; [reflexivity|].
        split; [apply lookup_insert_eq|]. split; [reflexivity|].
        intros x Hx. apply lookup_insert_ne. congruence.
      - exists h, p. repeat split; assumption. }
    destruct Hstep as (h0 & p0 & Hrun & Hp0 & Hs0 & Hfr0).
    destruct (IH h0 p0 Hp0) as (h1 & p1 & Heq & Hp1 & Hs1 & Hfr1).
    exists h1, p1. unfold bind. rewrite Hrun.
    split; [exact Heq|]. split; [exact Hp1|]. split; [congruence|].
    intros x Hx. rewrite (Hfr1 x Hx). auto.
Qed.

(** ** The export loop: every VSTRING becomes a string of the bundle *)

Lemma export_each_spec (props : addr) (vs : list (str_field * addr))
    (h : heap) (p : TLS_SERVER_INIT_PROPS) :
  NoDup vs.*1 -> NoDup vs.*2 -> props ∉ vs.*2 ->
  h !! props = Some (Struct p) ->
  (forall a, a ∈ vs.*2 -> exists s, h !! a = Some (Vstring s)) ->
  exists h1 p1,
    export_each props vs h = Some (tt, h1) /\
    h1 !! props = Some (Struct p1) /\
    (forall f a, (f, a) ∈ vs -> str_member p1 f = Some a) /\
    (forall f, f ∉ vs.*1 -> str_member p1 f = str_member p f) /\
    (forall a, a ∈ vs.*2 -> exists s, h1 !! a = Some (Chars s)) /\
    (forall x, x <> props -> x ∉ vs.*2 -> h1 !! x = h !! x).
Proof.
  revert h p. induction vs as [|[f v] vs IH]; intros h p Hnf Hna Hpr Hp Hvs.
  - exists h, p. split; [reflexivity|]. split; [exact Hp|].
    split; [intros f a Hin; inversion Hin|]. split; [reflexivity|].
    split; [intros a Ha; inversion Ha|reflexivity].
  - csimpl in *.
    apply NoDup_cons in Hnf as [Hf Hnf]. apply NoDup_cons in Hna as [Hv Hna].
    apply not_elem_of_cons in Hpr as [Hpv Hpr].
    destruct (Hvs v) as [s Hs]; [left|].
    unfold bind at 1. unfold vstring_export. rewrite Hs.
    unfold bind at 1. unfold set_str_member, bind, load_props.
    rewrite lookup_insert_ne by congruence. rewrite Hp.
    set (p' := mkProps (update f (Some v) (str_member p)) (int_member p)).
    set (h' := <[props := Struct p']> (<[v := Chars s]> h)).
    destruct (IH h' p' Hnf Hna Hpr) as (h1 & p1 & Heq & Hp1 & Hset & Hkeep
                                        & Hch & Hfr).
    { apply lookup_insert_eq. }
    { intros a Ha. unfold h'.
      rewrite lookup_insert_ne by (intros ->; contradiction).
      rewrite lookup_insert_ne by (intros ->; contradiction).
      apply Hvs. right; exact Ha. }
    exists h1, p1. split; [exact Heq|]. split; [exact Hp1|]. split.
    { intros g a Hin. apply elem_of_cons in Hin as [[= -> ->]|Hin].
      - rewrite (Hkeep f Hf). apply update_same.
      - eauto. }
    split.
    { intros g Hg. apply not_elem_of_cons in Hg as [Hne Hg].
      rewrite (Hkeep g Hg). simpl. apply update_other. exact Hne. }
    split.
    { intros a Ha. apply elem_of_cons in Ha as [->|Ha]; [|auto].
      exists s. rewrite (Hfr v) by congruence. unfold h'.
      rewrite lookup_insert_ne by congruence. apply lookup_insert_eq. }
    intros x Hx Hxv. apply not_elem_of_cons in Hxv as [Hne Hxv].
    rewrite (Hfr x Hx Hxv). unfold h'.
    rewrite lookup_insert_ne by congruence.
    apply lookup_insert_ne. congruence.
Qed.

(** ** The free loop *)

Lemma myfree_each_spec (p : TLS_SERVER_INIT_PROPS) (fs : list str_field)
    (h : heap) :
  NoDup fs ->
  (forall f, f ∈ fs -> exists a, str_member p f = Some a /\
                                 is_Some (h !! a)) ->
  (forall f g, str_member p f = str_member p g -> f = g) ->
  exists h1,
    myfree_each p fs h = Some (tt, h1) /\
    (forall f a, f ∈ fs -> str_member p f = Some a -> h1 !! a = None) /\
    (forall x, (forall f, f ∈ fs -> str_member p f <> Some x) ->
               h1 !! x = h !! x).
Proof.
  intros Hnd Hall Hinj. revert h Hall.
  induction Hnd as [|f fs Hf Hnd IH]; intros h Hall.
  - exists h. split; [reflexivity|].
    split; [intros f a Hin; inversion Hin|reflexivity].
  - simpl. destruct (Hall f) as (a & Ha & [b Hb]); [left|].
    unfold bind at 1. unfold myfree. rewrite Ha, Hb.
    destruct (IH (delete a h)) as (h1 & Heq & Hgone & Hfr).
    { intros g Hg. destruct (Hall g) as (c & Hc & Hsome); [right; exact Hg|].
      exists c. split; [exact Hc|].
      rewrite lookup_delete_ne; [exact Hsome|].
      intros ->. apply Hf.
      rewrite (Hinj f g) by congruence. exact Hg. }
    exists h1. split; [exact Heq|]. split.
    + intros g c Hg Hc. apply elem_of_cons in Hg as [->|Hg]; [|eauto].
      assert (c = a) as -> by congruence.
      rewrite Hfr; [apply lookup_delete_eq|].
      intros g Hg Hga. apply Hf.
      rewrite (Hinj f g) by congruence. exact Hg.
    + intros x Hx. rewrite Hfr by (intros g Hg; apply Hx; right; exact Hg).
      apply lookup_delete_ne. intros ->. apply (Hx f); [left|exact Ha].
Qed.

(** A complete bundle is released by the free routine: every string and
    the structure itself. *)
Lemma free_fully_constructed (h : heap) (props : addr) :
  fully_constructed h props ->
  exists p h1,
    h !! props = Some (Struct p) /\
    tls_proxy_server_init_free props h = Some (tt, h1) /\
    h1 !! props = None /\
    (forall f a, str_member p f = Some a -> h1 !! a = None) /\
    (forall x, x <> props -> (forall f, str_member p f <> Some x) ->
               h1 !! x = h !! x).
Proof.
  intros (p & Hp & Hstr & Hinj).
  destruct (myfree_each_spec p str_fields h str_fields_NoDup)
    as (h1 & Heq & Hgone & Hfr); [|exact Hinj|].
  { intros f _. destruct (Hstr f) as (a & s & Ha & _ & Hs). eauto. }
  assert (Hp1 : h1 !! props = Some (Struct p)).
  { rewrite Hfr; [exact Hp|]. intros f _ Hc.
    destruct (Hstr f) as (a & s & Ha & Hne & _). congruence. }
  exists p, (delete props h1). split; [exact Hp|]. split.
  { unfold tls_proxy_server_init_free, bind, load_props.
    rewrite Hp, Heq. unfold myfree. rewrite Hp1. reflexivity. }
  split; [apply lookup_delete_eq|]. split.
  - intros f a Ha. destruct (Hstr f) as (a' & s & Ha' & Hne & _).
    rewrite lookup_delete_ne by congruence.
    apply (Hgone f a (str_fields_all f) Ha).
  - intros x Hx Hxf. rewrite lookup_delete_ne by congruence.
    apply Hfr. intros f _. apply Hxf.
Qed.

(** ** The receiver *)

(** C9.  Whatever the scan function does, the receiver returns 1 when the
    scan read 19 attributes, the length of the list of requests, and -1
    otherwise.  In both cases the pointer it stores leads to a complete
    bundle: the structure with its 16 string members, each pointing to an
    allocated string of its own.  Blocks that existed before are left as
    they were, and the free routine releases every string and the
    structure, which gives back the heap the receiver started from. *)
Theorem server_init_scan_bundle (scan_fn : ATTR_SCAN_MASTER_FN VSTREAM)
    (fp : VSTREAM) (flags : Z) (h : heap) :
  let r := scan_fn fp (Z.lor flags ATTR_FLAG_MORE) server_init_attrs in
  exists (result : Z) (props : addr) (h' : heap),
    tls_proxy_server_init_scan VSTREAM ATTR_FLAG_MORE scan_fn fp flags h =
      Some ((result, props), h') /\
    (result = 1 <-> scan_ret r = Z.of_nat (length server_init_attrs)) /\
    (result = 1 \/ result = -1) /\
    length server_init_attrs = 19%nat /\ length str_fields = 16%nat /\
    fully_constructed h' props /\
    (forall x b, h !! x = Some b -> h' !! x = Some b) /\
    tls_proxy_server_init_free props h' = Some (tt, h).
Proof.
  cbv zeta.
  set (r := scan_fn fp (Z.lor flags ATTR_FLAG_MORE) server_init_attrs).
  unfold tls_proxy_server_init_scan.
  (* mymalloc *)
  unfold bind at 1. unfold mymalloc.
  set (props := fresh (dom h)).
  assert (Hfresh : h !! props = None) by apply fresh_lookup.
  set (h0 := <[props := Uninit]> h).
  (* the VSTRINGs *)
  destruct (vstring_alloc_each_spec str_fields h0)
    as (vs & h1 & Halloc & Hfs & Hnd & Hin & Hout).
  unfold bind at 1. rewrite Halloc.
  assert (Hpv : props ∉ vs.*2).
  { intros Hc. destruct (Hin props Hc) as [Hnone _]. unfold h0 in Hnone.
    rewrite lookup_insert_eq in Hnone. discriminate. }
  (* memset *)
  unfold bind at 1. unfold memset_props.
  rewrite (Hout props Hpv). unfold h0 at 1. rewrite lookup_insert_eq.
  set (h2 := <[props := Struct props_zero]> h1).
  fold r.
  (* the scan *)
  destruct (store_scanned_spec r vs h2) as (h3 & Hst & Hin3 & Hout3).
  { intros a Ha. exists EmptyString. unfold h2.
    rewrite lookup_insert_ne by (intros <-; contradiction).
    apply (Hin a Ha). }
  unfold bind at 1. rewrite Hst.
  destruct (store_scanned_int_spec r props
              [verifydepth; set_sessid; ask_ccert] h3 props_zero)
    as (h4 & p4 & Hsi & Hp4 & Hs4 & Hout4).
  { rewrite (Hout3 props Hpv). apply lookup_insert_eq. }
  unfold bind at 1. rewrite Hsi.
  (* the exports *)
  destruct (export_each_spec props vs h4 p4) as (h5 & p5 & Hex & Hp5 & Hset
                                                 & _ & Hch & Hout5);
    [rewrite Hfs; apply str_fields_NoDup|exact Hnd|exact Hpv|exact Hp4| |].
  { intros a Ha. rewrite Hout4 by (intros ->; contradiction). auto. }
  unfold bind at 1. rewrite Hex. unfold ret.
  assert (Hfield : forall f, exists a, (f, a) ∈ vs).
  { intros f. pose proof (str_fields_all f) as Hf. rewrite <- Hfs in Hf.
    apply list_elem_of_fmap in Hf as ([g a] & -> & Hga). eauto. }
  assert (Hfull : fully_constructed h5 props).
  { exists p5. split; [exact Hp5|]. split.
    - intros f. destruct (Hfield f) as [a Ha].
      assert (Ha2 : a ∈ vs.*2).
      { apply list_elem_of_fmap. exists (f, a).
        split; [reflexivity|exact Ha]. }
      destruct (Hch a Ha2) as [s Hs]. exists a, s.
      split; [eauto|]. split; [intros ->; contradiction|exact Hs].
    - intros f g Hfg.
      destruct (Hfield f) as [a Ha]. destruct (Hfield g) as [b Hb].
      rewrite (Hset f a Ha), (Hset g b Hb) in Hfg.
      injection Hfg as <-.
      apply list_elem_of_lookup in Ha as [i Hi].
      apply list_elem_of_lookup in Hb as [j Hj].
      assert (i = j).
      { apply (NoDup_lookup _ i j a Hnd);
          rewrite list_lookup_fmap; [rewrite Hi|rewrite Hj]; reflexivity. }
      subst j. congruence. }
  assert (Hold : forall x, x <> props -> x ∉ vs.*2 -> h5 !! x = h !! x).
  { intros x Hx Hxv. rewrite (Hout5 x Hx Hxv), (Hout4 x Hx), (Hout3 x Hxv).
    unfold h2. rewrite lookup_insert_ne by congruence.
    rewrite (Hout x Hxv). unfold h0. apply lookup_insert_ne. congruence. }
  assert (Hnew : forall a, a ∈ vs.*2 -> h !! a = None).
  { intros a Ha. destruct (Hin a Ha) as [Hnone _]. unfold h0 in Hnone.
    rewrite lookup_insert_ne in Hnone by (intros ->; contradiction).
    exact Hnone. }
  exists (if scan_ret r =? 19 then 1 else -1), props, h5.
  split; [reflexivity|]. split.
  { change (Z.of_nat (length server_init_attrs)) with 19.
    destruct (Z.eqb_spec (scan_ret r) 19); split; intros; congruence || lia. }
  split; [destruct (scan_ret r =? 19); auto|].
  split; [reflexivity|]. split; [reflexivity|]. split; [exact Hfull|].
  split.
  { intros x b Hx. rewrite Hold; [exact Hx|congruence|].
    intros Hc. rewrite (Hnew x Hc) in Hx. discriminate. }
  destruct (free_fully_constructed h5 props Hfull)
    as (p & h6 & Hp & Hfree & Hgp & Hgs & Hrest).
  rewrite Hfree. do 2 f_equal.
  assert (p = p5) by congruence. subst p.
  apply map_eq. intros x.
  destruct (decide (x = props)) as [->|Hx]; [congruence|].
  destruct (decide (x ∈ vs.*2)) as [Hxv|Hxv].
  - rewrite (Hnew x Hxv).
    apply list_elem_of_fmap in Hxv as ([f a] & -> & Hfa).
    apply (Hgs f a). eauto.
  - rewrite Hrest; [apply Hold; assumption|exact Hx|].
    intros f Hc. destruct (Hfield f) as [a Ha].
    rewrite (Hset f a Ha) in Hc. injection Hc as ->.
    apply Hxv, list_elem_of_fmap. exists (f, x). split; [reflexivity|exact Ha].
Qed.

End Scan.

(** ** The receiver at work *)

(** A complete scan: success, sixteen strings, and a clean heap after the
    free routine. *)
Example complete_scan :
  match tls_proxy_server_init_scan unit 0 (Demo.scan_fn 19) tt 0 ∅ with
  | Some ((result, props), h) =>
      result = 1 /\
      Demo.strings_of h props = map (fun f => Some (Demo.member_name f))
                                  str_fields /\
      tls_proxy_server_init_free props h = Some (tt, ∅)
  | None => False
  end.
Proof. vm_compute. repeat split. Qed.

(** A scan that stops after three attributes: an error, and still sixteen
    strings (the ones not reached are empty) that the free routine
    releases. *)
Example short_scan :
  match tls_proxy_server_init_scan unit 0 (Demo.scan_fn 3) tt 0 ∅ with
  | Some ((result, props), h) =>
      result = -1 /\
      Demo.strings_of h props =
        [Some "log_param"; Some "log_level"]%string ++
        repeat (Some EmptyString) 14 /\
      tls_proxy_server_init_free props h = Some (tt, ∅)
  | None => False
  end.
Proof. vm_compute. repeat split. Qed.

End TlsProxyProofs.

(** * Further properties of the envelope handler *)

Module CleanupExtra.

Import Libc Cleanup.

Section Streams.

Context {env : cleanup_env}.

(** ** Reasoning about a stream of records *)

(** A property kept by the size record of [cleanup_envelope] and by every
    call of the handler is kept by every stream. *)
Lemma cleanup_records_invariant (P : CLEANUP_STATE -> Prop) :
  (forall st,
     P st ->
     P (set_action ACTION_cleanup_envelope_process
          (cleanup_out_format st REC_TYPE_SIZE [0; 0; 0]))) ->
  (forall st type buf len,
     P st -> P (cleanup_envelope_process st type buf len)) ->
  forall (rs : list record) (st : CLEANUP_STATE),
    P st -> P (cleanup_records st rs).
Proof.
  intros Hsize Hstep rs.
  induction rs as [|[[type buf] len] rs IH]; intros st Hst; [exact Hst|].
  unfold cleanup_records in *. simpl. apply IH.
  destruct (action st); [|apply Hstep; exact Hst|exact Hst].
  unfold cleanup_envelope. apply Hstep, Hsize, Hst.
Qed.

Lemma orphan_keeps (st : CLEANUP_STATE) (type : rec_type) :
  let st' := drop_orphan_orig_rcpt st type in
  flags st' = flags st /\ errs st' = errs st /\ sender st' = sender st /\
  dst st' = dst st /\ queue_id st' = queue_id st.
Proof.
  unfold drop_orphan_orig_rcpt.
  destruct (decide (type = REC_TYPE_RCPT)); [simpl; tauto|].
  destruct (orig_rcpt st); [|simpl; tauto].
  destruct (decide (type = REC_TYPE_DONE)); simpl; tauto.
Qed.

(** Case analysis of one call of the handler: every test of the handler
    is decided, and the state after the orphan cleanup is named. *)
Ltac handler_cases st type :=
  unfold cleanup_envelope_process;
  let Hk := fresh "Hk" in
  pose proof (orphan_keeps st type) as Hk; cbv zeta in Hk;
  destruct Hk as (?Hfl & ?Her & ?Hsn & ?Hds & ?Hqi);
  destruct type; simpl;
  repeat match goal with
    | |- context [match sender ?s with _ => _ end] =>
        let E := fresh "Esender" in
        destruct (sender s) as [[|? ?]|] eqn:E; simpl
    | |- context [match orig_rcpt ?s with _ => _ end] =>
        destruct (orig_rcpt s); simpl
    | |- context [match verp_delims_verify ?b with _ => _ end] =>
        destruct (verp_delims_verify b); simpl
    | |- context [match split_nameval ?b with _ => _ end] =>
        destruct (split_nameval b) as [?|[? ?]]; simpl
    | |- context [bool_decide ?P] => destruct (bool_decide P); simpl
    | |- context [negb (in_REC_TYPE_ENVELOPE ?t)] =>
        destruct (in_REC_TYPE_ENVELOPE t); simpl
    | |- context [Z.of_nat ?n >=? ?m] => destruct (Z.of_nat n >=? m); simpl
    | |- context [if ?b then _ else _] => destruct b eqn:?; simpl
    end.

(** ** The sink is written by appending, the size record first *)

Lemma process_appends (st : CLEANUP_STATE) (type : rec_type) (buf : string)
    (len : Z) :
  rewriter_appends cleanup_addr_sender ->
  rewriter_appends cleanup_addr_recipient ->
  exists l, dst (cleanup_envelope_process st type buf len) = dst st ++ l.
Proof.
  intros Hsnd Hrcp.
  pose proof (Hsnd (drop_orphan_orig_rcpt st type) buf) as [l1 H1].
  pose proof (Hrcp (drop_orphan_orig_rcpt st type) buf) as [l2 H2].
  pose proof (Hrcp (set_orig_rcpt (Some buf) (drop_orphan_orig_rcpt st type))
                buf) as [l3 H3].
  simpl in H3.
  handler_cases st type;
    rewrite ?H1, ?H2, ?H3, ?Hds;
    first [ exists []; rewrite app_nil_r; reflexivity
          | eexists; reflexivity ].
Qed.

(** X1.  When the rewriters write to the sink by appending, so does every
    stream of records: what was written stays where it is.  A stream that
    starts with [cleanup_envelope] as the handler writes the size record,
    with its three zero counters, before anything else. *)
Theorem size_record_first (st : CLEANUP_STATE) (r : record)
    (rs : list record) :
  rewriter_appends cleanup_addr_sender ->
  rewriter_appends cleanup_addr_recipient ->
  (exists l, dst (cleanup_records st (r :: rs)) = dst st ++ l) /\
  (action st = ACTION_cleanup_envelope ->
   exists l, dst (cleanup_records st (r :: rs)) =
             dst st ++ OutFormat REC_TYPE_SIZE [0; 0; 0] :: l).
Proof.
  intros Hsnd Hrcp.
  assert (Hall : forall rs' s0,
            exists l, dst (cleanup_records s0 rs') = dst s0 ++ l).
  { intros rs' s0.
    apply (cleanup_records_invariant
             (fun s => exists l, dst s = dst s0 ++ l)).
    - intros s [l Hl]. simpl. rewrite Hl, <- app_assoc. eauto.
    - intros s type buf len [l Hl].
      destruct (process_appends s type buf len Hsnd Hrcp) as [l' Hl'].
      rewrite Hl', Hl, <- app_assoc. eauto.
    - exists []. rewrite app_nil_r. reflexivity. }
  split; [apply Hall|].
  intros Ha. destruct r as [[type buf] len].
  unfold cleanup_records. simpl. rewrite Ha. unfold cleanup_envelope.
  set (s1 := set_action ACTION_cleanup_envelope_process
               (cleanup_out_format st REC_TYPE_SIZE [0; 0; 0])).
  destruct (process_appends s1 type buf len Hsnd Hrcp) as [l1 H1].
  destruct (Hall rs (cleanup_envelope_process s1 type buf len)) as [l2 H2].
  unfold cleanup_records in H2. rewrite H2, H1. simpl.
  exists (l1 ++ l2). rewrite <- !app_assoc. reflexivity.
Qed.

(** ** Error bits are never cleared *)

Lemma process_keeps_errs (st : CLEANUP_STATE) (type : rec_type)
    (buf : string) (len : Z) (n : Z) :
  rewriter_keeps_errs cleanup_addr_sender ->
  rewriter_keeps_errs cleanup_addr_recipient ->
  Z.testbit (errs st) n = true ->
  Z.testbit (errs (cleanup_envelope_process st type buf len)) n = true.
Proof.
  intros Hsnd Hrcp Hn.
  pose proof (Hsnd (drop_orphan_orig_rcpt st type) buf n) as H1.
  pose proof (Hrcp (drop_orphan_orig_rcpt st type) buf n) as H2.
  pose proof (Hrcp (set_orig_rcpt (Some buf) (drop_orphan_orig_rcpt st type))
                buf n) as H3.
  simpl in H3.
  handler_cases st type;
    rewrite ?Z.lor_spec, ?Her, ?Hn; try reflexivity;
    first [apply H1 | apply H2 | apply H3]; rewrite Her; exact Hn.
Qed.

Lemma bad_of_bits (e e' b : Z) :
  (forall n, Z.testbit e n = true -> Z.testbit e' n = true) ->
  Z.land e b = b -> Z.land e' b = b.
Proof.
  intros Hbits He. apply Z.bits_inj'; intros n _.
  rewrite Z.land_spec.
  assert (Hn : Z.testbit (Z.land e b) n = Z.testbit b n)
    by (rewrite He; reflexivity).
  rewrite Z.land_spec in Hn.
  destruct (Z.testbit b n); [|apply andb_false_r].
  rewrite andb_true_r in *. apply Hbits, Hn.
Qed.

Lemma errs_never_cleared_aux (st : CLEANUP_STATE) (rs : list record) :
  rewriter_keeps_errs cleanup_addr_sender ->
  rewriter_keeps_errs cleanup_addr_recipient ->
  bad st -> bad (fold_left cleanup_record rs st).
Proof.
  intros Hsnd Hrcp. unfold bad. apply bad_of_bits. intros n Hn.
  apply (cleanup_records_invariant
           (fun s => Z.testbit (errs s) n = true)).
  - intros s Hs. exact Hs.
  - intros s type buf len Hs. now apply process_keeps_errs.
  - exact Hn.
Qed.

(** X2.  For rewriters that clear no error bit, no stream of records
    clears one: every bit of [errs] that is set stays set, and a message
    that is bad stays bad. *)
Theorem errs_never_cleared (st : CLEANUP_STATE) (rs : list record) :
  rewriter_keeps_errs cleanup_addr_sender ->
  rewriter_keeps_errs cleanup_addr_recipient ->
  (forall n, Z.testbit (errs st) n = true ->
             Z.testbit (errs (cleanup_records st rs)) n = true) /\
  (bad st -> bad (cleanup_records st rs)).
Proof.
  intros Hsnd Hrcp.
  assert (Hbits : forall n, Z.testbit (errs st) n = true ->
                    Z.testbit (errs (cleanup_records st rs)) n = true).
  { intros n Hn.
    apply (cleanup_records_invariant
             (fun s => Z.testbit (errs s) n = true)).
    - intros s Hs. exact Hs.
    - intros s type buf len Hs. now apply process_keeps_errs.
    - exact Hn. }
  split; [exact Hbits|].
  unfold bad. apply bad_of_bits. exact Hbits.
Qed.

(** X5.  A record whose type is not an envelope type, received while the
    envelope handler is in charge, makes the message bad for the rest of
    the stream (the boundary and the flags record are recognized before
    the test). *)
Theorem unexpected_record_marks_bad (st : CLEANUP_STATE)
    (pre post : list record) (type : rec_type) (buf : string) (len : Z) :
  rewriter_keeps_errs cleanup_addr_sender ->
  rewriter_keeps_errs cleanup_addr_recipient ->
  action (cleanup_records st pre) <> ACTION_cleanup_message ->
  in_REC_TYPE_ENVELOPE type = false ->
  type <> REC_TYPE_MESG -> type <> REC_TYPE_FLGS ->
  bad (cleanup_records st (pre ++ (type, buf, len) :: post)) /\
  sender (cleanup_records st (pre ++ [(type, buf, len)])) =
    sender (cleanup_records st pre).
Proof.
  intros Hsnd Hrcp Ha He Hm Hf.
  assert (Hstep : forall s,
            cleanup_envelope_process s type buf len =
            flag_bad (msg_warn
                        (WARN_unexpected_record_type (queue_id s) type) s)).
  { intros s. unfold cleanup_envelope_process.
    destruct type; try contradiction; rewrite He; reflexivity. }
  unfold cleanup_records in *. rewrite !fold_left_app. simpl.
  set (s0 := fold_left cleanup_record pre st) in *.
  assert (Hone : bad (cleanup_record s0 (type, buf, len)) /\
                 sender (cleanup_record s0 (type, buf, len)) = sender s0).
  { unfold cleanup_record.
    destruct (action s0); [|rewrite Hstep|contradiction].
    - unfold cleanup_envelope. rewrite Hstep. split; [|reflexivity].
      unfold bad; simpl. apply CleanupProofs.land_lor_same.
    - split; [|reflexivity].
      unfold bad; simpl. apply CleanupProofs.land_lor_same. }
  destruct Hone as [Hb Hs]. split; [|exact Hs].
  apply (errs_never_cleared_aux _ post Hsnd Hrcp Hb).
Qed.

(** ** Flags come from FLGS records, within the mask *)

Lemma process_flags (st : CLEANUP_STATE) (type : rec_type) (buf : string)
    (len : Z) :
  rewriter_keeps_flags cleanup_addr_sender ->
  rewriter_keeps_flags cleanup_addr_recipient ->
  let st' := cleanup_envelope_process st type buf len in
  flags st' = flags st \/
  (type = REC_TYPE_FLGS /\
   Z.land (to_int (atol buf)) (Z.lnot CLEANUP_FLAG_MASK_EXTRA) = 0 /\
   flags st' = Z.lor (flags st) (to_int (atol buf))).
Proof.
  intros Hsnd Hrcp. cbv zeta.
  pose proof (Hsnd (drop_orphan_orig_rcpt st type) buf) as H1.
  pose proof (Hrcp (drop_orphan_orig_rcpt st type) buf) as H2.
  pose proof (Hrcp (set_orig_rcpt (Some buf) (drop_orphan_orig_rcpt st type))
                buf) as H3.
  simpl in H3.
  destruct (decide (type = REC_TYPE_FLGS)) as [->|Hne].
  - unfold cleanup_envelope_process.
    destruct (Z.eqb_spec
                (Z.land (to_int (atol buf))
                   (Z.lnot CLEANUP_FLAG_MASK_EXTRA)) 0) as [H0|H0]; simpl.
    + right. repeat split. exact H0.
    + left. reflexivity.
  - left. handler_cases st type; try contradiction;
      rewrite ?H1, ?H2, ?H3, ?Hfl; reflexivity.
Qed.

Lemma flags_step_bits (f0 f x m : Z) :
  Z.land f f0 = f0 ->
  Z.land f (Z.lnot (Z.lor f0 m)) = 0 ->
  Z.land x (Z.lnot m) = 0 ->
  Z.land (Z.lor f x) f0 = f0 /\
  Z.land (Z.lor f x) (Z.lnot (Z.lor f0 m)) = 0.
Proof.
  intros H1 H2 H3. split; apply Z.bits_inj'; intros n Hn.
  - assert (B1 : Z.testbit (Z.land f f0) n = Z.testbit f0 n)
      by (rewrite H1; reflexivity).
    rewrite Z.land_spec in B1. rewrite Z.land_spec, Z.lor_spec.
    destruct (Z.testbit f n), (Z.testbit f0 n), (Z.testbit x n);
      simpl in *; congruence.
  - assert (B2 : Z.testbit (Z.land f (Z.lnot (Z.lor f0 m))) n = false)
      by (rewrite H2; apply Z.bits_0).
    assert (B3 : Z.testbit (Z.land x (Z.lnot m)) n = false)
      by (rewrite H3; apply Z.bits_0).
    rewrite Z.land_spec, Z.lnot_spec, Z.lor_spec in B2 by assumption.
    rewrite Z.land_spec, Z.lnot_spec in B3 by assumption.
    rewrite Z.land_spec, Z.lnot_spec, !Z.lor_spec, Z.bits_0 by assumption.
    destruct (Z.testbit f n), (Z.testbit f0 n), (Z.testbit x n),
      (Z.testbit m n); simpl in *; congruence.
Qed.

(** X3.  For rewriters that leave the flags alone, a stream of records
    never clears a flag, and the flags it sets all lie within
    [CLEANUP_FLAG_MASK_EXTRA]: no record can switch on a flag outside the
    mask. *)
Theorem flags_within_mask (st : CLEANUP_STATE) (rs : list record) :
  rewriter_keeps_flags cleanup_addr_sender ->
  rewriter_keeps_flags cleanup_addr_recipient ->
  let st' := cleanup_records st rs in
  Z.land (flags st') (flags st) = flags st /\
  Z.land (flags st')
    (Z.lnot (Z.lor (flags st) CLEANUP_FLAG_MASK_EXTRA)) = 0.
Proof.
  intros Hsnd Hrcp. cbv zeta.
  apply (cleanup_records_invariant
           (fun s => Z.land (flags s) (flags st) = flags st /\
                     Z.land (flags s)
                       (Z.lnot (Z.lor (flags st) CLEANUP_FLAG_MASK_EXTRA))
                     = 0)).
  - intros s Hs. exact Hs.
  - intros s type buf len [Ha Hb].
    destruct (process_flags s type buf len Hsnd Hrcp)
      as [Heq|(_ & Hx & Heq)]; rewrite Heq; [split; assumption|].
    now apply flags_step_bits.
  - split; [apply Z.land_diag|].
    apply Z.bits_inj'; intros n Hn.
    rewrite Z.land_spec, Z.lnot_spec, Z.lor_spec, Z.bits_0 by assumption.
    destruct (Z.testbit (flags st) n); reflexivity.
Qed.

(** ** One sender per message *)

Lemma process_keeps_sender (st : CLEANUP_STATE) (type : rec_type)
    (buf : string) (len : Z) (s : string) :
  rewriter_keeps_sender cleanup_addr_recipient ->
  sender st = Some s ->
  sender (cleanup_envelope_process st type buf len) = Some s.
Proof.
  intros Hrcp Hs.
  pose proof (Hrcp (drop_orphan_orig_rcpt st type) buf) as H2.
  pose proof (Hrcp (set_orig_rcpt (Some buf) (drop_orphan_orig_rcpt st type))
                buf) as H3.
  simpl in H3.
  handler_cases st type; rewrite ?H2, ?H3; congruence.
Qed.

(** X4.  Once the sender is set, a FROM record is refused: the message is
    marked bad, a warning is logged and nothing is written to the sink.
    With a recipient rewriter that leaves the sender alone, no stream of
    records changes a sender that is set. *)
Theorem sender_set_once (st : CLEANUP_STATE) (s : string) (buf : string)
    (len : Z) (rs : list record) :
  sender st = Some s ->
  in_REC_TYPE_ENVELOPE REC_TYPE_FROM = true ->
  rewriter_keeps_sender cleanup_addr_recipient ->
  let st' := cleanup_envelope_process st REC_TYPE_FROM buf len in
  bad st' /\ dst st' = dst st /\ sender st' = Some s /\
  log st' = log (drop_orphan_orig_rcpt st REC_TYPE_FROM) ++
            [WARN_too_many_senders (queue_id st)] /\
  sender (cleanup_records st rs) = Some s.
Proof.
  intros Hs He Hrcp. cbv zeta.
  pose proof (orphan_keeps st REC_TYPE_FROM) as Hk. cbv zeta in Hk.
  destruct Hk as (Hfl & Her & Hsn & Hds & Hqi).
  unfold cleanup_envelope_process at 1 2 3 4. rewrite He; simpl.
  rewrite Hsn, Hs, Hqi. simpl.
  split; [apply CleanupProofs.land_lor_same|].
  split; [exact Hds|]. split; [congruence|]. split; [reflexivity|].
  apply (cleanup_records_invariant (fun x => sender x = Some s)).
  - intros x Hx. exact Hx.
  - intros x type b l Hx. now apply process_keeps_sender.
  - exact Hs.
Qed.

(** ** A dropped original recipient is not used later *)

Lemma process_drops_pending (st : CLEANUP_STATE) (type : rec_type)
    (buf : string) (len : Z) :
  in_REC_TYPE_ENVELOPE type = true ->
  type <> REC_TYPE_MESG -> type <> REC_TYPE_FLGS ->
  type <> REC_TYPE_RCPT -> type <> REC_TYPE_FROM ->
  let st' := cleanup_envelope_process st type buf len in
  orig_rcpt st' = (if decide (type = REC_TYPE_ORCP) then Some buf else None)
  /\ sender st' = sender st.
Proof.
  intros He Hm Hf Hr Hfr. cbv zeta.
  assert (Ho : orig_rcpt (drop_orphan_orig_rcpt st type) = None).
  { unfold drop_orphan_orig_rcpt.
    destruct (decide (type = REC_TYPE_RCPT)); [contradiction|].
    destruct (orig_rcpt st) eqn:E; [reflexivity|exact E]. }
  pose proof (orphan_keeps st type) as Hk. cbv zeta in Hk.
  destruct Hk as (_ & _ & Hsn & _ & _).
  unfold cleanup_envelope_process.
  destruct type; try contradiction; rewrite He; simpl;
    repeat match goal with
    | |- context [match sender ?x with _ => _ end] =>
        let E := fresh "E" in destruct (sender x) as [[|? ?]|] eqn:E; simpl
    | |- context [match verp_delims_verify ?b with _ => _ end] =>
        destruct (verp_delims_verify b); simpl
    | |- context [match split_nameval ?b with _ => _ end] =>
        destruct (split_nameval b) as [?|[? ?]]; simpl
    | |- context [if ?b then _ else _] => destruct b; simpl
    end; (split; [assumption || reflexivity|congruence]).
Qed.

(** X6.  An original recipient that was dropped is not attached to a later
    recipient: after an ORCP record and a record of another envelope type
    that the handler processes itself, a RCPT record is handed to the
    rewriter with its own content as the original recipient, and nothing
    is pending afterwards. *)
Theorem dropped_orig_rcpt_not_reused (st : CLEANUP_STATE) (s orcp : string)
    (olen : Z) (type : rec_type) (buf : string) (len : Z) (rcpt : string)
    (rlen : Z) :
  sender st = Some s ->
  in_REC_TYPE_ENVELOPE REC_TYPE_ORCP = true ->
  in_REC_TYPE_ENVELOPE REC_TYPE_RCPT = true ->
  in_REC_TYPE_ENVELOPE type = true ->
  type <> REC_TYPE_MESG -> type <> REC_TYPE_FLGS ->
  type <> REC_TYPE_RCPT -> type <> REC_TYPE_FROM -> type <> REC_TYPE_ORCP ->
  let st1 := cleanup_envelope_process st REC_TYPE_ORCP orcp olen in
  let st2 := cleanup_envelope_process st1 type buf len in
  let st3 := cleanup_envelope_process st2 REC_TYPE_RCPT rcpt rlen in
  orig_rcpt st1 = Some orcp /\ orig_rcpt st2 = None /\
  st3 = set_orig_rcpt None
          (cleanup_addr_recipient (set_orig_rcpt (Some rcpt) st2) rcpt) /\
  orig_rcpt st3 = None.
Proof.
  intros Hs Heo Her He Hm Hf Hr Hfr Ho. cbv zeta.
  set (st1 := cleanup_envelope_process st REC_TYPE_ORCP orcp olen).
  set (st2 := cleanup_envelope_process st1 type buf len).
  destruct (process_drops_pending st REC_TYPE_ORCP orcp olen Heo)
    as [H1o H1s]; try discriminate. fold st1 in H1o, H1s. simpl in H1o.
  destruct (process_drops_pending st1 type buf len He Hm Hf Hr Hfr)
    as [H2o H2s]. fold st2 in H2o, H2s.
  destruct (decide (type = REC_TYPE_ORCP)); [contradiction|].
  split; [exact H1o|]. split; [exact H2o|].
  assert (H3 : cleanup_envelope_process st2 REC_TYPE_RCPT rcpt rlen =
               set_orig_rcpt None
                 (cleanup_addr_recipient (set_orig_rcpt (Some rcpt) st2)
                    rcpt)).
  { unfold cleanup_envelope_process. rewrite Her; simpl.
    unfold drop_orphan_orig_rcpt; simpl.
    rewrite H2s, H1s, Hs, H2o. reflexivity. }
  rewrite H3. split; reflexivity.
Qed.

(** ** Only the boundary record ends the envelope *)

Lemma process_keeps_action (st : CLEANUP_STATE) (type : rec_type)
    (buf : string) (len : Z) :
  rewriter_keeps_action cleanup_addr_sender ->
  rewriter_keeps_action cleanup_addr_recipient ->
  type <> REC_TYPE_MESG ->
  action (cleanup_envelope_process st type buf len) = action st.
Proof.
  intros Hsnd Hrcp Hm.
  pose proof (Hsnd (drop_orphan_orig_rcpt st type) buf) as H1.
  pose proof (Hrcp (drop_orphan_orig_rcpt st type) buf) as H2.
  pose proof (Hrcp (set_orig_rcpt (Some buf) (drop_orphan_orig_rcpt st type))
                buf) as H3.
  simpl in H3.
  pose proof (CleanupProofs.drop_orphan_frame st type) as Hfr.
  cbv zeta in Hfr. destruct Hfr as (_ & _ & _ & _ & _ & _ & _ & Hact & _).
  handler_cases st type; try contradiction;
    rewrite ?H1, ?H2, ?H3; congruence.
Qed.

(** X16.  The content handler is installed by a MESG record only: with
    rewriters that leave the handler alone, a stream without a MESG
    record leaves the envelope handler in charge, and after its first
    record the handler is [cleanup_envelope_process]. *)
Theorem envelope_until_boundary (st : CLEANUP_STATE) (rs : list record) :
  rewriter_keeps_action cleanup_addr_sender ->
  rewriter_keeps_action cleanup_addr_recipient ->
  action st <> ACTION_cleanup_message ->
  Forall (fun r => r.1.1 <> REC_TYPE_MESG) rs ->
  action (cleanup_records st rs) <> ACTION_cleanup_message /\
  (rs <> [] ->
   action (cleanup_records st rs) = ACTION_cleanup_envelope_process).
Proof.
  intros Hsnd Hrcp Ha HF.
  assert (Hrun : forall rs' s,
            action s = ACTION_cleanup_envelope_process ->
            Forall (fun r => r.1.1 <> REC_TYPE_MESG) rs' ->
            action (cleanup_records s rs') =
              ACTION_cleanup_envelope_process).
  { induction rs' as [|[[type buf] len] rs' IH]; intros s Hs HF';
      [exact Hs|].
    inversion HF' as [|? ? Hne HF'']; subst. simpl in Hne.
    unfold cleanup_records in *. simpl. rewrite Hs. apply IH; [|exact HF''].
    rewrite process_keeps_action; assumption. }
  destruct rs as [|[[type buf] len] rs].
  { split; [exact Ha|]. intros H; contradiction. }
  inversion HF as [|? ? Hne HF']; subst. simpl in Hne.
  assert (Hfirst : action (cleanup_record st (type, buf, len)) =
                   ACTION_cleanup_envelope_process).
  { unfold cleanup_record.
    destruct (action st) eqn:Hact; [| |contradiction].
    - unfold cleanup_envelope.
      rewrite process_keeps_action; [reflexivity|assumption..].
    - rewrite process_keeps_action; assumption. }
  assert (Hall : action (cleanup_records st ((type, buf, len) :: rs)) =
                 ACTION_cleanup_envelope_process).
  { unfold cleanup_records. simpl. apply (Hrun rs _ Hfirst HF'). }
  split; [|intros _; exact Hall].
  intros Hc.
  assert (Hneq : ACTION_cleanup_envelope_process <> ACTION_cleanup_message)
    by discriminate.
  apply Hneq. rewrite <- Hall. exact Hc.
Qed.

End Streams.

(** ** The rewriters of [Demo] *)

Lemma demo_sender_keeps_action :
  @rewriter_keeps_action Demo.cleanup_addr_sender.
Proof. intros st buf. reflexivity. Qed.

Lemma demo_recipient_keeps_action :
  @rewriter_keeps_action Demo.cleanup_addr_recipient.
Proof. intros st buf. reflexivity. Qed.

Lemma demo_sender_appends :
  @rewriter_appends Demo.cleanup_addr_sender.
Proof. intros st buf. simpl. eauto. Qed.

Lemma demo_recipient_appends :
  @rewriter_appends Demo.cleanup_addr_recipient.
Proof. intros st buf. simpl. eauto. Qed.

Lemma demo_sender_keeps_errs :
  @rewriter_keeps_errs Demo.cleanup_addr_sender.
Proof. intros st buf n H. exact H. Qed.

Lemma demo_recipient_keeps_errs :
  @rewriter_keeps_errs Demo.cleanup_addr_recipient.
Proof. intros st buf n H. exact H. Qed.

Lemma demo_sender_keeps_flags :
  @rewriter_keeps_flags Demo.cleanup_addr_sender.
Proof. intros st buf. reflexivity. Qed.

Lemma demo_recipient_keeps_flags :
  @rewriter_keeps_flags Demo.cleanup_addr_recipient.
Proof. intros st buf. reflexivity. Qed.

Lemma demo_recipient_keeps_sender :
  @rewriter_keeps_sender Demo.cleanup_addr_recipient.
Proof. intros st buf. reflexivity. Qed.

(** ** The theorems at concrete records *)

Lemma size_record_first_witness :
  let rs := [Demo.rec REC_TYPE_TIME "1"; Demo.rec REC_TYPE_FROM "a@x"] in
  (exists l, dst (Demo.records Demo.fresh_state rs) =
             dst Demo.fresh_state ++ l) /\
  (exists l, dst (Demo.records Demo.fresh_state rs) =
             dst Demo.fresh_state ++ OutFormat REC_TYPE_SIZE [0; 0; 0] :: l).
Proof.
  destruct (@size_record_first Demo.env Demo.fresh_state
              (Demo.rec REC_TYPE_TIME "1") [Demo.rec REC_TYPE_FROM "a@x"]
              demo_sender_appends demo_recipient_appends) as [H1 H2].
  split; [exact H1|]. apply H2. reflexivity.
Defined.

Lemma errs_never_cleared_witness :
  let st := Demo.process Demo.fresh_state REC_TYPE_MESG "" 0 in
  let rs := [Demo.rec REC_TYPE_TIME "1"; Demo.rec REC_TYPE_FROM "a@x";
             Demo.rec REC_TYPE_MESG ""] in
  (forall n, Z.testbit (errs st) n = true ->
             Z.testbit (errs (Demo.records st rs)) n = true) /\
  @bad Demo.env (Demo.records st rs).
Proof.
  destruct (@errs_never_cleared Demo.env
              (Demo.process Demo.fresh_state REC_TYPE_MESG "" 0)
              [Demo.rec REC_TYPE_TIME "1"; Demo.rec REC_TYPE_FROM "a@x";
               Demo.rec REC_TYPE_MESG ""]
              demo_sender_keeps_errs demo_recipient_keeps_errs) as [H1 H2].
  split; [exact H1|]. apply H2. reflexivity.
Defined.

Lemma flags_within_mask_witness :
  let st' := Demo.records Demo.mid_envelope
               [Demo.rec REC_TYPE_FLGS "4"; Demo.rec REC_TYPE_FLGS "3";
                Demo.rec REC_TYPE_FLGS "8"] in
  Z.land (flags st') (flags Demo.mid_envelope) = flags Demo.mid_envelope /\
  Z.land (flags st') (Z.lnot (Z.lor (flags Demo.mid_envelope) 12)) = 0.
Proof.
  apply (@flags_within_mask Demo.env Demo.mid_envelope
           [Demo.rec REC_TYPE_FLGS "4"; Demo.rec REC_TYPE_FLGS "3";
            Demo.rec REC_TYPE_FLGS "8"]).
  - exact demo_sender_keeps_flags.
  - exact demo_recipient_keeps_flags.
Defined.

Lemma sender_set_once_witness :
  let st' := Demo.process Demo.mid_envelope REC_TYPE_FROM "eve@example" 11 in
  @bad Demo.env st' /\ dst st' = dst Demo.mid_envelope /\
  sender st' = Some "alice@example"%string /\
  log st' = [WARN_too_many_senders "QID"] /\
  sender (Demo.records Demo.mid_envelope
            [Demo.rec REC_TYPE_FROM "eve@example";
             Demo.rec REC_TYPE_RCPT "bob@example"]) =
    Some "alice@example"%string.
Proof.
  apply (@sender_set_once Demo.env Demo.mid_envelope "alice@example"
           "eve@example" 11
           [Demo.rec REC_TYPE_FROM "eve@example";
            Demo.rec REC_TYPE_RCPT "bob@example"]).
  - reflexivity.
  - reflexivity.
  - exact demo_recipient_keeps_sender.
Defined.

Lemma unexpected_record_marks_bad_witness :
  @bad Demo.env
    (Demo.records Demo.fresh_state
       ([Demo.rec REC_TYPE_TIME "1"] ++
        (REC_TYPE_OTHER 88, "text", 4)%string ::
        [Demo.rec REC_TYPE_FROM "a@x"])) /\
  sender (Demo.records Demo.fresh_state
            ([Demo.rec REC_TYPE_TIME "1"] ++
             [(REC_TYPE_OTHER 88, "text", 4)%string])) =
  sender (Demo.records Demo.fresh_state [Demo.rec REC_TYPE_TIME "1"]).
Proof.
  apply (@unexpected_record_marks_bad Demo.env Demo.fresh_state
           [Demo.rec REC_TYPE_TIME "1"] [Demo.rec REC_TYPE_FROM "a@x"]
           (REC_TYPE_OTHER 88) "text" 4).
  - exact demo_sender_keeps_errs.
  - exact demo_recipient_keeps_errs.
  - vm_compute. discriminate.
  - reflexivity.
  - discriminate.
  - discriminate.
Defined.

Lemma dropped_orig_rcpt_not_reused_witness :
  let st1 := Demo.process Demo.mid_envelope REC_TYPE_ORCP "X" 1 in
  let st2 := Demo.process st1 REC_TYPE_TIME "2" 1 in
  let st3 := Demo.process st2 REC_TYPE_RCPT "b@y" 3 in
  orig_rcpt st1 = Some "X"%string /\ orig_rcpt st2 = None /\
  st3 = set_orig_rcpt None
          (Demo.cleanup_addr_recipient (set_orig_rcpt (Some "b@y"%string) st2)
             "b@y") /\
  orig_rcpt st3 = None.
Proof.
  apply (@dropped_orig_rcpt_not_reused Demo.env Demo.mid_envelope
           "alice@example" "X" 1 REC_TYPE_TIME "2" 1 "b@y" 3);
    reflexivity || discriminate.
Defined.

Lemma envelope_until_boundary_witness :
  let rs := [Demo.rec REC_TYPE_TIME "1"; Demo.rec REC_TYPE_FROM "a@x";
             Demo.rec REC_TYPE_RCPT "b@y"] in
  action (Demo.records Demo.fresh_state rs) <> ACTION_cleanup_message /\
  action (Demo.records Demo.fresh_state rs) =
    ACTION_cleanup_envelope_process.
Proof.
  destruct (@envelope_until_boundary Demo.env Demo.fresh_state
              [Demo.rec REC_TYPE_TIME "1"; Demo.rec REC_TYPE_FROM "a@x";
               Demo.rec REC_TYPE_RCPT "b@y"]) as [H1 H2].
  - exact demo_sender_keeps_action.
  - exact demo_recipient_keeps_action.
  - discriminate.
  - repeat constructor; discriminate.
  - split; [exact H1|]. apply H2. discriminate.
Defined.

End CleanupExtra.

(** * Further properties of the TLS server-init receiver *)

Module TlsProxyExtra.

Import TlsProxy TlsProxyProofs.

Section Scan.

Variable VSTREAM : Type.
Variable ATTR_FLAG_MORE : Z.

(** ** What the scan stored is what the bundle holds *)

Lemma store_scanned_content (r : scan_result)
    (vs : list (str_field * addr)) (h : heap) :
  NoDup vs.*2 ->
  (forall a, a ∈ vs.*2 -> h !! a = Some (Vstring EmptyString)) ->
  exists h1,
    store_scanned r vs h = Some (tt, h1) /\
    (forall f a, (f, a) ∈ vs ->
       h1 !! a = Some (Vstring (default EmptyString (scan_str r f)))) /\
    (forall x, x ∉ vs.*2 -> h1 !! x = h !! x).
Proof.
  revert h. induction vs as [|[f v] vs IH]; intros h Hnd Hvs.
  - exists h. split; [reflexivity|].
    split; [intros f a Hin; inversion Hin|reflexivity].
  - csimpl in *. apply NoDup_cons in Hnd as [Hv Hnd].
    assert (Hcell : h !! v = Some (Vstring EmptyString))
      by (apply Hvs; left).
    assert (Hstep : exists h0,
      (match scan_str r f with
       | Some s => vstring_strcpy v s
       | None => ret tt
       end) h = Some (tt, h0) /\
      h0 !! v = Some (Vstring (default EmptyString (scan_str r f))) /\
      (forall x, x <> v -> h0 !! x = h !! x)).
    { destruct (scan_str r f) as [s|]; simpl.
      - unfold vstring_strcpy. rewrite Hcell.
        exists (<[v := Vstring s]> h). split; [reflexivity|].
        split; [apply lookup_insert_eq|].
        intros x Hx. apply lookup_insert_ne. congruence.
      - exists h. split; [reflexivity|]. split; [exact Hcell|reflexivity]. }
    destruct Hstep as (h0 & Hrun & Hv0 & Hfr0).
    destruct (IH h0 Hnd) as (h1 & Heq & Hin & Hout).
    { intros a Ha. rewrite Hfr0 by (intros ->; contradiction).
      apply Hvs. right; exact Ha. }
    exists h1. unfold bind. rewrite Hrun. split; [exact Heq|]. split.
    + intros g a Hga. apply elem_of_cons in Hga as [[= -> ->]|Hga]; [|eauto].
      rewrite (Hout v Hv). exact Hv0.
    + intros x Hx. apply not_elem_of_cons in Hx as [Hne Hx].
      rewrite (Hout x Hx). auto.
Qed.

Lemma store_scanned_int_content (r : scan_result) (props : addr)
    (fs : list int_field) (h : heap) (p : TLS_SERVER_INIT_PROPS) :
  NoDup fs ->
  h !! props = Some (Struct p) ->
  exists h1 p1,
    store_scanned_int r props fs h = Some (tt, h1) /\
    h1 !! props = Some (Struct p1) /\
    str_member p1 = str_member p /\
    (forall f, f ∈ fs ->
       int_member p1 f = default (int_member p f) (scan_int r f)) /\
    (forall f, f ∉ fs -> int_member p1 f = int_member p f) /\
    (forall x, x <> props -> h1 !! x = h !! x).
Proof.
  intros Hnd. revert h p.
  induction Hnd as [|f fs Hf Hnd IH]; intros h p Hp.
  - exists h, p. split; [reflexivity|]. split; [exact Hp|].
    split; [reflexivity|]. split; [intros f Hin; inversion Hin|].
    split; reflexivity.
  - simpl.
    assert (Hstep : exists h0 p0,
      (match scan_int r f with
       | Some z => set_int_member props f z
       | None => ret tt
       end) h = Some (tt, h0) /\
      h0 !! props = Some (Struct p0) /\
      str_member p0 = str_member p /\
      int_member p0 f = default (int_member p f) (scan_int r f) /\
      (forall g, g <> f -> int_member p0 g = int_member p g) /\
      (forall x, x <> props -> h0 !! x = h !! x)).
    { destruct (scan_int r f) as [z|]; simpl.
      - unfold set_int_member, bind, load_props. rewrite Hp.
        eexists _, _. split; [reflexivity|].
        split; [apply lookup_insert_eq|]. split; [reflexivity|]. simpl.
        split; [apply update_same|].
        split; [intros g Hg; apply update_other; exact Hg|].
        intros x Hx. apply lookup_insert_ne. congruence.
      - exists h, p. repeat split; assumption. }
    destruct Hstep as (h0 & p0 & Hrun & Hp0 & Hs0 & Hi0 & Ho0 & Hfr0).
    destruct (IH h0 p0 Hp0) as (h1 & p1 & Heq & Hp1 & Hs1 & Hi1 & Ho1 & Hfr1).
    exists h1, p1. unfold bind. rewrite Hrun.
    split; [exact Heq|]. split; [exact Hp1|]. split; [congruence|]. split.
    + intros g Hg. apply elem_of_cons in Hg as [->|Hg].
      * rewrite (Ho1 f Hf). exact Hi0.
      * rewrite (Hi1 g Hg), Ho0; [reflexivity|]. intros ->. contradiction.
    + split.
      * intros g Hg. apply not_elem_of_cons in Hg as [Hne Hg].
        rewrite (Ho1 g Hg). apply Ho0. exact Hne.
      * intros x Hx. rewrite (Hfr1 x Hx). auto.
Qed.

Lemma export_each_content (props : addr) (vs : list (str_field * addr))
    (h : heap) (p : TLS_SERVER_INIT_PROPS) (text : str_field -> string) :
  NoDup vs.*1 -> NoDup vs.*2 -> props ∉ vs.*2 ->
  h !! props = Some (Struct p) ->
  (forall f a, (f, a) ∈ vs -> h !! a = Some (Vstring (text f))) ->
  exists h1 p1,
    export_each props vs h = Some (tt, h1) /\
    h1 !! props = Some (Struct p1) /\
    int_member p1 = int_member p /\
    (forall f a, (f, a) ∈ vs ->
       str_member p1 f = Some a /\ h1 !! a = Some (Chars (text f))) /\
    (forall f, f ∉ vs.*1 -> str_member p1 f = str_member p f) /\
    (forall x, x <> props -> x ∉ vs.*2 -> h1 !! x = h !! x).
Proof.
  revert h p. induction vs as [|[f v] vs IH]; intros h p Hnf Hna Hpr Hp Hvs.
  - exists h, p. split; [reflexivity|]. split; [exact Hp|].
    split; [reflexivity|]. split; [intros f a Hin; inversion Hin|].
    split; reflexivity.
  - csimpl in *.
    apply NoDup_cons in Hnf as [Hf Hnf]. apply NoDup_cons in Hna as [Hv Hna].
    apply not_elem_of_cons in Hpr as [Hpv Hpr].
    assert (Hs : h !! v = Some (Vstring (text f))) by (apply Hvs; left).
    unfold bind at 1. unfold vstring_export. rewrite Hs.
    unfold bind at 1. unfold set_str_member, bind, load_props.
    rewrite lookup_insert_ne by congruence. rewrite Hp.
    set (p' := mkProps (update f (Some v) (str_member p)) (int_member p)).
    set (h' := <[props := Struct p']> (<[v := Chars (text f)]> h)).
    assert (Hmem : forall g a, (g, a) ∈ vs -> a ∈ vs.*2).
    { intros g a Hga. apply list_elem_of_fmap. exists (g, a).
      split; [reflexivity|exact Hga]. }
    destruct (IH h' p' Hnf Hna Hpr) as (h1 & p1 & Heq & Hp1 & Hint & Hset
                                        & Hkeep & Hfr).
    { apply lookup_insert_eq. }
    { intros g a Hga. pose proof (Hmem g a Hga) as Ha. unfold h'.
      rewrite lookup_insert_ne by (intros ->; contradiction).
      rewrite lookup_insert_ne by (intros ->; contradiction).
      apply Hvs. right; exact Hga. }
    exists h1, p1. split; [exact Heq|]. split; [exact Hp1|].
    split; [rewrite Hint; reflexivity|]. split.
    { intros g a Hin. apply elem_of_cons in Hin as [[= -> ->]|Hin];
        [|eauto].
      split.
      - rewrite (Hkeep f Hf). apply update_same.
      - rewrite (Hfr v) by congruence. unfold h'.
        rewrite lookup_insert_ne by congruence. apply lookup_insert_eq. }
    split.
    { intros g Hg. apply not_elem_of_cons in Hg as [Hne Hg].
      rewrite (Hkeep g Hg). simpl. apply update_other. exact Hne. }
    intros x Hx Hxv. apply not_elem_of_cons in Hxv as [Hne Hxv].
    rewrite (Hfr x Hx Hxv). unfold h'.
    rewrite lookup_insert_ne by congruence.
    apply lookup_insert_ne. congruence.
Qed.

(** X7.  The bundle holds what the scan function stored: every string
    member points to a string with the text the scan stored for it, or
    the empty text when the scan did not reach it; every integer member
    has the value the scan stored, or 0, the value left by [memset]. *)
Theorem scan_results_delivered (scan_fn : ATTR_SCAN_MASTER_FN VSTREAM)
    (fp : VSTREAM) (flags : Z) (h : heap) :
  let r := scan_fn fp (Z.lor flags ATTR_FLAG_MORE) server_init_attrs in
  exists (result : Z) (props : addr) (h' : heap)
         (p : TLS_SERVER_INIT_PROPS),
    tls_proxy_server_init_scan VSTREAM ATTR_FLAG_MORE scan_fn fp flags h =
      Some ((result, props), h') /\
    h' !! props = Some (Struct p) /\
    (forall f, exists a,
        str_member p f = Some a /\
        h' !! a = Some (Chars (default EmptyString (scan_str r f)))) /\
    (forall f, int_member p f = default 0 (scan_int r f)).
Proof.
  cbv zeta.
  set (r := scan_fn fp (Z.lor flags ATTR_FLAG_MORE) server_init_attrs).
  unfold tls_proxy_server_init_scan.
  unfold bind at 1. unfold mymalloc.
  set (props := fresh (dom h)).
  set (h0 := <[props := Uninit]> h).
  destruct (vstring_alloc_each_spec str_fields h0)
    as (vs & h1 & Halloc & Hfs & Hnd & Hin & Hout).
  unfold bind at 1. rewrite Halloc.
  assert (Hpv : props ∉ vs.*2).
  { intros Hc. destruct (Hin props Hc) as [Hnone _]. unfold h0 in Hnone.
    rewrite lookup_insert_eq in Hnone. discriminate. }
  unfold bind at 1. unfold memset_props.
  rewrite (Hout props Hpv). unfold h0 at 1. rewrite lookup_insert_eq.
  set (h2 := <[props := Struct props_zero]> h1).
  fold r.
  destruct (store_scanned_content r vs h2 Hnd) as (h3 & Hst & Hin3 & Hout3).
  { intros a Ha. unfold h2.
    rewrite lookup_insert_ne by (intros <-; contradiction).
    apply (Hin a Ha). }
  unfold bind at 1. rewrite Hst.
  destruct (store_scanned_int_content r props
              [verifydepth; set_sessid; ask_ccert] h3 props_zero)
    as (h4 & p4 & Hsi & Hp4 & Hs4 & Hi4 & _ & Hout4).
  { apply (bool_decide_unpack _). vm_compute. reflexivity. }
  { rewrite (Hout3 props Hpv). apply lookup_insert_eq. }
  unfold bind at 1. rewrite Hsi.
  destruct (export_each_content props vs h4 p4
              (fun f => default EmptyString (scan_str r f)))
    as (h5 & p5 & Hex & Hp5 & Hint & Hset & _ & _);
    [rewrite Hfs; apply str_fields_NoDup|exact Hnd|exact Hpv|exact Hp4| |].
  { intros f a Hfa. rewrite Hout4; [eauto|].
    intros ->. apply Hpv, list_elem_of_fmap. exists (f, props).
    split; [reflexivity|exact Hfa]. }
  unfold bind at 1. rewrite Hex. unfold ret.
  exists (if scan_ret r =? 19 then 1 else -1), props, h5, p5.
  split; [reflexivity|]. split; [exact Hp5|]. split.
  - intros f. pose proof (str_fields_all f) as Hf. rewrite <- Hfs in Hf.
    apply list_elem_of_fmap in Hf as ([g a] & -> & Hga).
    exists a. apply (Hset g a Hga).
  - intros f. rewrite Hint. rewrite Hi4; [reflexivity|].
    apply (bool_decide_unpack _). destruct f; vm_compute; reflexivity.
Qed.

(** ** The free routine needs a complete bundle *)

Lemma myfree_each_null (p : TLS_SERVER_INIT_PROPS) (fs : list str_field)
    (f : str_field) (h : heap) :
  f ∈ fs -> str_member p f = None -> myfree_each p fs h = None.
Proof.
  revert h. induction fs as [|g fs IH]; intros h Hin Hnull.
  - inversion Hin.
  - simpl. unfold bind.
    destruct (myfree (str_member p g) h) as [[[] h1]|] eqn:Hfree;
      [|reflexivity].
    apply elem_of_cons in Hin as [->|Hin]; [|now apply IH].
    rewrite Hnull in Hfree. discriminate.
Qed.

(** X8.  The free routine releases every string member without testing
    it: on a structure with a null string member it does not complete,
    whatever the other members are. *)
Theorem free_needs_every_member (h : heap) (props : addr)
    (p : TLS_SERVER_INIT_PROPS) (f : str_field) :
  h !! props = Some (Struct p) ->
  str_member p f = None ->
  tls_proxy_server_init_free props h = None.
Proof.
  intros Hp Hnull. unfold tls_proxy_server_init_free, bind, load_props.
  rewrite Hp.
  rewrite (myfree_each_null p str_fields f h (str_fields_all f) Hnull).
  reflexivity.
Qed.

End Scan.

Lemma free_needs_every_member_witness :
  tls_proxy_server_init_free 1%positive {[1%positive := Struct props_zero]}
  = None.
Proof.
  apply (free_needs_every_member {[1%positive := Struct props_zero]}
           1%positive props_zero mdalg).
  - reflexivity.
  - reflexivity.
Defined.

End TlsProxyExtra.

(** * Properties of the SASL authentication dialog *)

Module SmtpdSaslProofs.

Import SmtpdSasl.

(** ** The size of the buffer for a challenge *)

(** X9.  The buffer size computed for a challenge is the size of the
    output of [sasl_encode64] as the source describes it, for every
    challenge shorter than [3 * 2^30 - 2] bytes; at that length the
    [unsigned] computation wraps around and gives 1. *)
Theorem enc_length_is_encode64_size (n : Z) :
  0 <= n < 3 * 2 ^ 30 - 2 ->
  enc_length_of n = encode64_size n /\
  n < enc_length_of n /\
  enc_length_of (3 * 2 ^ 30 - 2) = 1.
Proof.
  intros Hn. unfold enc_length_of, encode64_size, to_unsigned.
  split; [|split; [|reflexivity]].
  - rewrite (Z.mod_small (n + 2)) by lia.
    assert (Hq : 0 <= (n + 2) / 3 < 2 ^ 30).
    { split; [apply Z.div_pos; lia|]. apply Z.div_lt_upper_bound; lia. }
    rewrite (Z.mod_small ((n + 2) / 3 * 4)) by lia.
    rewrite Z.mod_small by lia.
    pose proof (Z.div_mod n 3 ltac:(lia)) as Hd.
    pose proof (Z.mod_pos_bound n 3 ltac:(lia)) as Hm.
    destruct (Z.eqb_spec (n mod 3) 0) as [H0|H0].
    + assert ((n + 2) / 3 = n / 3); [|lia].
      symmetry. apply (Z.div_unique (n + 2) 3 (n / 3) 2); lia.
    + assert ((n + 2) / 3 = n / 3 + 1); [|lia].
      symmetry.
      apply (Z.div_unique (n + 2) 3 (n / 3 + 1) (n mod 3 - 1)); lia.
  - rewrite (Z.mod_small (n + 2)) by lia.
    assert (Hq : 0 <= (n + 2) / 3 < 2 ^ 30).
    { split; [apply Z.div_pos; lia|]. apply Z.div_lt_upper_bound; lia. }
    rewrite (Z.mod_small ((n + 2) / 3 * 4)) by lia.
    rewrite Z.mod_small by lia.
    pose proof (Z.div_mod (n + 2) 3 ltac:(lia)) as Hd.
    pose proof (Z.mod_pos_bound (n + 2) 3 ltac:(lia)) as Hm.
    lia.
Qed.

Section Dialog.

Variable sasl_conn_t : Type.
Variables SASL_OK SASL_CONTINUE : Z.
Context {lib : sasl_library sasl_conn_t}.

Abbreviation STATE := (SMTPD_STATE sasl_conn_t).
Abbreviation dialog := (sasl_dialog sasl_conn_t SASL_OK SASL_CONTINUE).
Abbreviation authenticate :=
  (smtpd_sasl_authenticate sasl_conn_t SASL_OK SASL_CONTINUE).
Abbreviation botch_encode :=
  ("smtpd_sasl_authenticate: sasl_encode64 botch"%string).
Abbreviation botch_getprop :=
  ("smtpd_sasl_authenticate: sasl_getprop SASL_USERNAME botch"%string).
Abbreviation already :=
  ("smtpd_sasl_authenticate: already authenticated"%string).

Lemma held_after_free (o : option string) (st : STATE) (base : nat) :
  serverout_held st = (base + serverout_count o)%nat ->
  serverout_held (free_serverout o st) = base.
Proof. destruct o; simpl; lia. Qed.

Lemma held_after_hold (o : option string) (st : STATE) :
  serverout_held (hold o st) = (serverout_held st + serverout_count o)%nat.
Proof. destruct o; simpl; lia. Qed.

Lemma free_serverout_frame (o : option string) (st : STATE) :
  let st' := free_serverout o st in
  sasl_username st' = sasl_username st /\
  sasl_method st' = sasl_method st /\
  replies st' = replies st /\ sasl_conn st' = sasl_conn st.
Proof. destruct o; simpl; tauto. Qed.

Lemma hold_frame (o : option string) (st : STATE) :
  let st' := hold o st in
  sasl_username st' = sasl_username st /\
  sasl_method st' = sasl_method st /\
  replies st' = replies st /\ sasl_conn st' = sasl_conn st.
Proof. destruct o; simpl; tauto. Qed.

(** What one run of the loop does, whatever the library answers: the
    credentials are left alone, one challenge is sent for every line read
    from the client, and every buffer of the library is freed. *)
Lemma sasl_dialog_spec (input : list string) :
  forall (st : STATE) (r : sasl_step sasl_conn_t) (base : nat),
    serverout_held st = (base + serverout_count (step_serverout r))%nat ->
    match dialog input st r with
    | Returned res st' input' =>
        sasl_username st' = sasl_username st /\
        sasl_method st' = sasl_method st /\
        (exists used l,
            input = used ++ input' /\ replies st' = replies st ++ l /\
            length l = length used /\ Forall is_challenge l) /\
        match res with
        | inl reply =>
            (reply = "501 Authentication aborted"%string \/
             reply = "501 Error: malformed authentication response"%string)
            /\ serverout_held st' = base
        | inr r' =>
            step_result r' <> SASL_CONTINUE /\
            serverout_held st' =
              (base + serverout_count (step_serverout r'))%nat
        end
    | Panicked message st' =>
        message = botch_encode /\
        sasl_username st' = sasl_username st /\
        sasl_method st' = sasl_method st
    | NoReturn st' =>
        sasl_username st' = sasl_username st /\
        sasl_method st' = sasl_method st /\
        serverout_held st' = base /\
        exists l, replies st' = replies st ++ l /\
                  length l = S (length input) /\ Forall is_challenge l
    end.
Proof.
  induction input as [|line input IH]; intros st r base Hheld.
  - simpl.
    destruct (Z.eqb_spec (step_result r) SASL_CONTINUE) as [Hc|Hc].
    + destruct (sasl_encode64 (step_serverout r) (step_serveroutlen r)
                  (enc_length_of (step_serveroutlen r))) as [code encoded].
      destruct (code =? SASL_OK); simpl; [|repeat split].
      pose proof (free_serverout_frame (step_serverout r)
                    (set_sasl_encoded _ encoded st)) as (Fu & Fm & Fr & _).
      cbv zeta in *. simpl in *.
      split; [exact Fu|]. split; [exact Fm|].
      split; [apply held_after_free; exact Hheld|].
      exists [("334 " ++ encoded)%string]. rewrite Fr.
      split; [reflexivity|]. split; [reflexivity|].
      constructor; [eexists; reflexivity|constructor].
    + split; [reflexivity|]. split; [reflexivity|].
      split; [|split; [exact Hc|exact Hheld]].
      exists [], []. split; [reflexivity|].
      split; [rewrite app_nil_r; reflexivity|].
      split; [reflexivity|constructor].
  - simpl.
    destruct (Z.eqb_spec (step_result r) SASL_CONTINUE) as [Hc|Hc].
    + destruct (sasl_encode64 (step_serverout r) (step_serveroutlen r)
                  (enc_length_of (step_serveroutlen r))) as [code encoded].
      destruct (code =? SASL_OK); simpl; [|repeat split].
      pose proof (free_serverout_frame (step_serverout r)
                    (set_sasl_encoded _ encoded st)) as (Fu & Fm & Fr & Fc).
      pose proof (held_after_free (step_serverout r)
                    (set_sasl_encoded _ encoded st) base Hheld) as Fh.
      cbv zeta in *. simpl in Fu, Fm, Fr, Fc.
      set (st1 := free_serverout (step_serverout r)
                    (set_sasl_encoded _ encoded st)) in *.
      assert (Hone : exists used l,
                line :: input = used ++ input /\
                replies st ++ [("334 " ++ encoded)%string] = replies st ++ l
                /\ length l = length used /\ Forall is_challenge l).
      { exists [line], [("334 " ++ encoded)%string].
        repeat split. constructor; [eexists; reflexivity|constructor]. }
      destruct (String.eqb line "*").
      * simpl. rewrite Fr. split; [exact Fu|]. split; [exact Fm|].
        split; [exact Hone|]. split; [left; reflexivity|exact Fh].
      * destruct (sasl_decode64 line (Z.of_nat (String.length line)))
          as [[code2 decoded] dec_length].
        destruct (code2 =? SASL_OK); simpl.
        -- set (r' := sasl_server_step (sasl_conn st1) decoded dec_length).
           set (st2 := hold (step_serverout r')
                         (set_sasl_conn _ (step_conn r')
                            (set_sasl_decoded _ decoded
                               (set_buffer _ line
                                  (smtpd_chat_reply st1
                                     ("334 " ++ encoded)%string))))).
           pose proof (hold_frame (step_serverout r')
                         (set_sasl_conn _ (step_conn r')
                            (set_sasl_decoded _ decoded
                               (set_buffer _ line
                                  (smtpd_chat_reply st1
                                     ("334 " ++ encoded)%string)))))
             as (Gu & Gm & Gr & _).
           cbv zeta in Gu, Gm, Gr. simpl in Gu, Gm, Gr.
           fold st2 in Gu, Gm, Gr.
           assert (Gh : serverout_held st2 =
                        (base + serverout_count (step_serverout r'))%nat).
           { unfold st2. rewrite held_after_hold. simpl. rewrite Fh.
             reflexivity. }
           specialize (IH st2 r' base Gh).
           destruct (dialog input st2 r') as [res st' input'|msg st'|st'].
           ++ destruct IH as (Iu & Im & (used & l & Hin & Hrep & Hlen & Hch)
                              & Hres).
              split; [congruence|]. split; [congruence|].
              split; [|exact Hres].
              exists (line :: used), (("334 " ++ encoded)%string :: l).
              split; [simpl; congruence|].
              split; [rewrite Hrep, Gr, Fr, <- app_assoc; reflexivity|].
              split; [simpl; congruence|].
              constructor; [eexists; reflexivity|exact Hch].
           ++ destruct IH as (Imsg & Iu & Im).
              split; [exact Imsg|]. split; congruence.
           ++ destruct IH as (Iu & Im & Ih & l & Hrep & Hlen & Hch).
              split; [congruence|]. split; [congruence|].
              split; [exact Ih|].
              exists (("334 " ++ encoded)%string :: l).
              split; [rewrite Hrep, Gr, Fr, <- app_assoc; reflexivity|].
              split; [simpl; congruence|].
              constructor; [eexists; reflexivity|exact Hch].
        -- rewrite Fr. split; [exact Fu|]. split; [exact Fm|].
           split; [exact Hone|]. split; [right; reflexivity|exact Fh].
    + split; [reflexivity|]. split; [reflexivity|].
      split; [|split; [exact Hc|exact Hheld]].
      exists [], []. split; [reflexivity|].
      split; [rewrite app_nil_r; reflexivity|].
      split; [reflexivity|constructor].
Qed.

(** The call as a whole, when no credentials are set on entry. *)
Lemma authenticate_spec (input : list string) (st : STATE)
    (method : string) (init_response : option string) :
  sasl_username st = None -> sasl_method st = None ->
  match authenticate input st method init_response with
  | Returned res st' input' =>
      (exists used l,
          input = used ++ input' /\ replies st' = replies st ++ l /\
          length l = length used /\ Forall is_challenge l) /\
      serverout_held st' = serverout_held st /\
      match res with
      | None =>
          (exists u, sasl_username st' = Some u) /\
          sasl_method st' = Some method
      | Some reply =>
          reply ∈ failure_replies /\
          sasl_username st' = None /\ sasl_method st' = None
      end
  | Panicked message st' =>
      (message = botch_encode \/ message = botch_getprop) /\
      sasl_username st' = None /\ sasl_method st' = None
  | NoReturn st' =>
      sasl_username st' = None /\ sasl_method st' = None /\
      serverout_held st' = serverout_held st /\
      exists l, replies st' = replies st ++ l /\
                length l = S (length input) /\ Forall is_challenge l
  end.
Proof.
  intros Hu Hm. unfold smtpd_sasl_authenticate.
  rewrite bool_decide_eq_false_2 by (rewrite Hu, Hm; tauto).
  assert (Hstart : forall (s0 : STATE) (dec_buffer : option string)
                          (dec_length : Z),
    sasl_username s0 = None -> sasl_method s0 = None ->
    replies s0 = replies st -> serverout_held s0 = serverout_held st ->
    let r := sasl_server_start (sasl_conn s0) method dec_buffer
               dec_length in
    let s1 := hold (step_serverout r) (set_sasl_conn _ (step_conn r) s0) in
    match
      match dialog input s1 r with
      | Returned (inl reply) state input0 =>
          Returned (Some reply) state input0
      | Returned (inr r0) state input0 =>
          if negb (step_result r0 =? SASL_OK)
          then Returned (Some "535 Error: authentication failed"%string)
                 (free_serverout (step_serverout r0) state) input0
          else
            let '(result, serverout) :=
              sasl_getprop_username
                (sasl_conn (free_serverout (step_serverout r0) state)) in
            match serverout with
            | Some username =>
                if negb (result =? SASL_OK)
                then Panicked botch_getprop
                       (free_serverout (step_serverout r0) state)
                else Returned None
                       (set_sasl_method _ (Some method)
                          (set_sasl_username _ (Some username)
                             (free_serverout (step_serverout r0) state)))
                       input0
            | None =>
                Panicked botch_getprop
                  (free_serverout (step_serverout r0) state)
            end
      | Panicked message state => Panicked message state
      | NoReturn state => NoReturn state
      end
    with
    | Returned res st' input' =>
        (exists used l,
            input = used ++ input' /\ replies st' = replies st ++ l /\
            length l = length used /\ Forall is_challenge l) /\
        serverout_held st' = serverout_held st /\
        match res with
        | None =>
            (exists u, sasl_username st' = Some u) /\
            sasl_method st' = Some method
        | Some reply =>
            reply ∈ failure_replies /\
            sasl_username st' = None /\ sasl_method st' = None
        end
    | Panicked message st' =>
        (message = botch_encode \/ message = botch_getprop) /\
        sasl_username st' = None /\ sasl_method st' = None
    | NoReturn st' =>
        sasl_username st' = None /\ sasl_method st' = None /\
        serverout_held st' = serverout_held st /\
        exists l, replies st' = replies st ++ l /\
                  length l = S (length input) /\ Forall is_challenge l
    end).
  { intros s0 dec_buffer dec_length Hu0 Hm0 Hr0 Hh0. cbv zeta.
    set (r := sasl_server_start (sasl_conn s0) method dec_buffer dec_length).
    set (s1 := hold (step_serverout r) (set_sasl_conn _ (step_conn r) s0)).
    pose proof (hold_frame (step_serverout r)
                  (set_sasl_conn _ (step_conn r) s0)) as (Gu & Gm & Gr & _).
    cbv zeta in Gu, Gm, Gr. simpl in Gu, Gm, Gr. fold s1 in Gu, Gm, Gr.
    assert (Gh : serverout_held s1 =
                 (serverout_held st + serverout_count (step_serverout r))%nat).
    { unfold s1. rewrite held_after_hold. simpl. rewrite Hh0. reflexivity. }
    pose proof (sasl_dialog_spec input s1 r (serverout_held st) Gh) as Hd.
    destruct (dialog input s1 r) as [[reply|r0] st' input'|msg st'|st'].
    - destruct Hd as (Du & Dm & (used & l & Hin & Hrep & Hlen & Hch)
                      & Hrp & Hh).
      split; [exists used, l; repeat split; congruence|].
      split; [exact Hh|]. split; [|split; congruence].
      apply (bool_decide_unpack _).
      destruct Hrp as [-> | ->]; vm_compute; reflexivity.
    - destruct Hd as (Du & Dm & (used & l & Hin & Hrep & Hlen & Hch)
                      & Hres & Hh).
      pose proof (free_serverout_frame (step_serverout r0) st')
        as (Fu & Fm & Fr & Fc).
      pose proof (held_after_free (step_serverout r0) st' _ Hh) as Fh.
      cbv zeta in Fu, Fm, Fr, Fc.
      assert (Hex : exists used0 l0,
                input = used0 ++ input' /\
                replies (free_serverout (step_serverout r0) st') =
                  replies st ++ l0 /\
                length l0 = length used0 /\ Forall is_challenge l0).
      { exists used, l. repeat split; congruence. }
      destruct (step_result r0 =? SASL_OK); simpl.
      + destruct (sasl_getprop_username
                    (sasl_conn (free_serverout (step_serverout r0) st')))
          as [result [username|]].
        * destruct (result =? SASL_OK); simpl.
          -- split; [exact Hex|]. split; [exact Fh|].
             split; [eexists; reflexivity|reflexivity].
          -- split; [right; reflexivity|]. split; congruence.
        * split; [right; reflexivity|]. split; congruence.
      + split; [exact Hex|]. split; [exact Fh|].
        split; [|split; congruence].
        apply (bool_decide_unpack _). vm_compute. reflexivity.
    - destruct Hd as (Dmsg & Du & Dm).
      split; [left; exact Dmsg|]. split; congruence.
    - destruct Hd as (Du & Dm & Dh & l & Hrep & Hlen & Hch).
      split; [congruence|]. split; [congruence|]. split; [exact Dh|].
      exists l. repeat split; congruence. }
  destruct init_response as [init|].
  - destruct (sasl_decode64 init (Z.of_nat (String.length init)))
      as [[code decoded] dec_length].
    destruct (code =? SASL_OK); simpl.
    + apply (Hstart (set_sasl_decoded _ decoded st)); assumption || reflexivity.
    + split; [exists [], []; rewrite app_nil_r; repeat split; constructor|].
      split; [reflexivity|]. split; [|split; assumption].
      apply (bool_decide_unpack _). vm_compute. reflexivity.
  - apply (Hstart st); assumption || reflexivity.
Qed.

Lemma credentials_on_success_only_aux (input : list string) (st : STATE)
    (method : string) (init_response : option string) :
  match authenticate input st method init_response with
  | Returned None st' _ =>
      (exists u, sasl_username st' = Some u) /\
      sasl_method st' = Some method
  | _ => True
  end.
Proof.
  destruct (bool_decide (sasl_username st <> None \/ sasl_method st <> None))
    eqn:Hb.
  { unfold smtpd_sasl_authenticate. rewrite Hb. exact I. }
  apply bool_decide_eq_false_1 in Hb.
  assert (Hu : sasl_username st = None)
    by (destruct (sasl_username st); [exfalso; apply Hb; left|]; congruence).
  assert (Hm : sasl_method st = None)
    by (destruct (sasl_method st); [exfalso; apply Hb; right|]; congruence).
  pose proof (authenticate_spec input st method init_response Hu Hm) as H.
  destruct (authenticate input st method init_response)
    as [[reply|] st' input'|msg st'|st']; try exact I.
  destruct H as (_ & _ & H). exact H.
Qed.

(** X10.  The credentials are set by a successful authentication only:
    when the call returns no reply, [sasl_username] is set and
    [sasl_method] is the requested method; when it returns a reply, this
    is one of the four failure replies and both members are null; when it
    does not return, both members are as they were. *)
Theorem credentials_on_success_only (input : list string) (st : STATE)
    (method : string) (init_response : option string) :
  match authenticate input st method init_response with
  | Returned None st' _ =>
      (exists u, sasl_username st' = Some u) /\
      sasl_method st' = Some method
  | Returned (Some reply) st' _ =>
      reply ∈ failure_replies /\
      sasl_username st' = None /\ sasl_method st' = None
  | Panicked _ st' | NoReturn st' =>
      sasl_username st' = sasl_username st /\
      sasl_method st' = sasl_method st
  end.
Proof.
  destruct (sasl_username st) as [u|] eqn:Hu.
  { unfold smtpd_sasl_authenticate.
    rewrite bool_decide_eq_true_2 by (rewrite Hu; left; discriminate).
    split; [exact Hu|reflexivity]. }
  destruct (sasl_method st) as [m|] eqn:Hm.
  { unfold smtpd_sasl_authenticate.
    rewrite bool_decide_eq_true_2 by (rewrite Hm; right; discriminate).
    split; [exact Hu|exact Hm]. }
  pose proof (authenticate_spec input st method init_response Hu Hm) as H.
  destruct (authenticate input st method init_response)
    as [[reply|] st' input'|msg st'|st'].
  - destruct H as (_ & _ & H). exact H.
  - destruct H as (_ & _ & H). exact H.
  - destruct H as (_ & H). exact H.
  - destruct H as (H1 & H2 & _). split; assumption.
Qed.

(** X11.  No buffer of the library is lost: whenever the call returns, or
    is left because the client sends nothing more, every buffer that the
    library stored in [serverout] during the call has been passed to
    [free]. *)
Theorem serverout_always_freed (input : list string) (st : STATE)
    (method : string) (init_response : option string) :
  match authenticate input st method init_response with
  | Returned _ st' _ | NoReturn st' =>
      serverout_held st' = serverout_held st
  | Panicked _ _ => True
  end.
Proof.
  destruct (bool_decide (sasl_username st <> None \/ sasl_method st <> None))
    eqn:Hb.
  { unfold smtpd_sasl_authenticate. rewrite Hb. exact I. }
  apply bool_decide_eq_false_1 in Hb.
  assert (Hu : sasl_username st = None)
    by (destruct (sasl_username st); [exfalso; apply Hb; left|]; congruence).
  assert (Hm : sasl_method st = None)
    by (destruct (sasl_method st); [exfalso; apply Hb; right|]; congruence).
  pose proof (authenticate_spec input st method init_response Hu Hm) as H.
  destruct (authenticate input st method init_response)
    as [res st' input'|msg st'|st'].
  - destruct H as (_ & H & _). exact H.
  - exact I.
  - destruct H as (_ & _ & H & _). exact H.
Qed.

(** X12.  Challenges and client lines alternate: when the call returns,
    it has read a prefix of the client's lines and sent exactly one
    challenge, a reply with code 334, for every line read, and no other
    reply; when the client sends nothing more, one challenge is left
    unanswered. *)
Theorem one_challenge_per_line (input : list string) (st : STATE)
    (method : string) (init_response : option string) :
  match authenticate input st method init_response with
  | Returned _ st' input' =>
      exists used l,
        input = used ++ input' /\ replies st' = replies st ++ l /\
        length l = length used /\ Forall is_challenge l
  | NoReturn st' =>
      exists l, replies st' = replies st ++ l /\
                length l = S (length input) /\ Forall is_challenge l
  | Panicked _ _ => True
  end.
Proof.
  destruct (bool_decide (sasl_username st <> None \/ sasl_method st <> None))
    eqn:Hb.
  { unfold smtpd_sasl_authenticate. rewrite Hb. exact I. }
  apply bool_decide_eq_false_1 in Hb.
  assert (Hu : sasl_username st = None)
    by (destruct (sasl_username st); [exfalso; apply Hb; left|]; congruence).
  assert (Hm : sasl_method st = None)
    by (destruct (sasl_method st); [exfalso; apply Hb; right|]; congruence).
  pose proof (authenticate_spec input st method init_response Hu Hm) as H.
  destruct (authenticate input st method init_response)
    as [res st' input'|msg st'|st'].
  - destruct H as (H & _). exact H.
  - exact I.
  - destruct H as (_ & _ & _ & H). exact H.
Qed.

Lemma logout_clears (st : STATE) :
  sasl_username (smtpd_sasl_logout st) = None /\
  sasl_method (smtpd_sasl_logout st) = None /\
  replies (smtpd_sasl_logout st) = replies st /\
  sasl_conn (smtpd_sasl_logout st) = sasl_conn st /\
  serverout_held (smtpd_sasl_logout st) = serverout_held st.
Proof.
  unfold smtpd_sasl_logout.
  destruct (sasl_username st) eqn:Hu; simpl;
    destruct (sasl_method st) eqn:Hm; simpl; rewrite ?Hu, ?Hm; tauto.
Qed.

(** X13.  After a successful authentication a second call stops in
    [msg_panic] at once, with the state as it is; after
    [smtpd_sasl_logout], which clears both credentials and nothing else
    of the dialog, a new call passes this test.  Logging out twice is
    logging out once. *)
Theorem authenticate_again_needs_logout (input input2 : list string)
    (st st' : STATE) (rest : list string) (method method2 : string)
    (init_response init_response2 : option string) :
  authenticate input st method init_response = Returned None st' rest ->
  authenticate input2 st' method2 init_response2 = Panicked already st' /\
  (forall s,
     authenticate input2 (smtpd_sasl_logout st') method2 init_response2 <>
     Panicked already s) /\
  sasl_username (smtpd_sasl_logout st') = None /\
  sasl_method (smtpd_sasl_logout st') = None /\
  replies (smtpd_sasl_logout st') = replies st' /\
  smtpd_sasl_logout (smtpd_sasl_logout st') = smtpd_sasl_logout st'.
Proof.
  intros Hauth.
  pose proof (credentials_on_success_only_aux input st method init_response)
    as Hc.
  rewrite Hauth in Hc. destruct Hc as [[u Hu] Hm].
  destruct (logout_clears st') as (Lu & Lm & Lr & _).
  split.
  { unfold smtpd_sasl_authenticate.
    rewrite bool_decide_eq_true_2 by (rewrite Hu; left; discriminate).
    reflexivity. }
  split.
  { intros s Heq.
    pose proof (authenticate_spec input2 (smtpd_sasl_logout st') method2
                  init_response2 Lu Lm) as H.
    rewrite Heq in H. destruct H as ([H|H] & _); discriminate H. }
  split; [exact Lu|]. split; [exact Lm|]. split; [exact Lr|].
  unfold smtpd_sasl_logout at 1. rewrite Lu, Lm. reflexivity.
Qed.

End Dialog.

(** ** The dialog at work *)

Example login_succeeds :
  Demo.authenticate ["alice"; "secret"; "MAIL FROM:<a@x>"]%string
    Demo.connected "LOGIN" None =
  Returned None Demo.authenticated ["MAIL FROM:<a@x>"%string] /\
  sasl_username Demo.authenticated = Some "alice"%string /\
  sasl_method Demo.authenticated = Some "LOGIN"%string /\
  replies Demo.authenticated = ["334 Username:"; "334 Password:"]%string /\
  serverout_held Demo.authenticated = 0%nat.
Proof. vm_compute. repeat split. Qed.

Example wrong_password :
  match Demo.authenticate ["alice"; "guess"]%string Demo.connected "LOGIN"
          None with
  | Returned reply st rest =>
      reply = Some "535 Error: authentication failed"%string /\
      sasl_username st = None /\ rest = []
  | _ => False
  end.
Proof. vm_compute. repeat split. Qed.

Example client_gives_up :
  match Demo.authenticate ["alice"; "*"; "QUIT"]%string Demo.connected
          "LOGIN" None with
  | Returned reply st rest =>
      reply = Some "501 Authentication aborted"%string /\
      replies st = ["334 Username:"; "334 Password:"]%string /\
      rest = ["QUIT"%string]
  | _ => False
  end.
Proof. vm_compute. repeat split. Qed.

Example client_goes_silent :
  match Demo.authenticate ["alice"%string] Demo.connected "LOGIN" None with
  | NoReturn st =>
      replies st = ["334 Username:"; "334 Password:"]%string /\
      serverout_held st = 0%nat
  | _ => False
  end.
Proof. vm_compute. repeat split. Qed.

Example malformed_initial_response :
  match Demo.authenticate ["alice"%string] Demo.connected "LOGIN"
          (Some "!x"%string) with
  | Returned reply st rest =>
      reply = Some "501 Authentication failed: malformed initial response"
                %string /\
      replies st = [] /\ rest = ["alice"%string]
  | _ => False
  end.
Proof. vm_compute. repeat split. Qed.

Lemma enc_length_is_encode64_size_witness :
  enc_length_of 10 = encode64_size 10 /\ 10 < enc_length_of 10 /\
  enc_length_of (3 * 2 ^ 30 - 2) = 1.
Proof. apply (enc_length_is_encode64_size 10). lia. Defined.

Lemma authenticate_again_needs_logout_witness :
  Demo.authenticate ["bob"%string] Demo.authenticated "PLAIN" None =
    Panicked "smtpd_sasl_authenticate: already authenticated"
      Demo.authenticated /\
  (forall s,
     Demo.authenticate ["bob"%string]
       (smtpd_sasl_logout Demo.authenticated) "PLAIN" None <>
     Panicked "smtpd_sasl_authenticate: already authenticated" s) /\
  sasl_username (smtpd_sasl_logout Demo.authenticated) = None /\
  sasl_method (smtpd_sasl_logout Demo.authenticated) = None /\
  replies (smtpd_sasl_logout Demo.authenticated) =
    replies Demo.authenticated /\
  smtpd_sasl_logout (smtpd_sasl_logout Demo.authenticated) =
    smtpd_sasl_logout Demo.authenticated.
Proof.
  apply (@authenticate_again_needs_logout (list string) Demo.SASL_OK
           Demo.SASL_CONTINUE Demo.lib ["alice"; "secret"]%string
           ["bob"%string] Demo.connected Demo.authenticated [] "LOGIN"
           "PLAIN" None None).
  vm_compute. reflexivity.
Defined.

End SmtpdSaslProofs.

(** * Properties of the TLS client-start sender *)

Module TlsProxyPrintProofs.

Import TlsProxyPrint.



End TlsProxyPrintProofs.

(** * Properties of the flush service client *)

Module MailFlushProofs.

Import MailFlush.

Section Client.

Variable VSTREAM : Type.
Variables MAIL_CLASS_PUBLIC MAIL_SERVICE_FLUSH : string.
Variables FLUSH_REQ_SEND FLUSH_REQ_ADD : string.
Variable FLUSH_STAT_FAIL : Z.
Variable var_ipc_timeout : Z.
Variable ipc : ipc_layer VSTREAM.

Lemma mail_flush_clnt_contract (format : string) (args : list string) :
  flush_contract VSTREAM MAIL_CLASS_PUBLIC MAIL_SERVICE_FLUSH FLUSH_STAT_FAIL
    ipc format args
    (mail_flush_clnt VSTREAM MAIL_CLASS_PUBLIC MAIL_SERVICE_FLUSH
       FLUSH_STAT_FAIL var_ipc_timeout ipc format args).
Proof.
  unfold flush_contract, mail_flush_clnt.
  destruct (mail_connect VSTREAM ipc MAIL_CLASS_PUBLIC MAIL_SERVICE_FLUSH)
    as [flush|] eqn:Hc.
  - destruct (mail_scan VSTREAM ipc flush format args) as [count scanned]
      eqn:Hs.
    cbv zeta. split; [reflexivity|]. split; [discriminate|].
    intros f [= <-]. split; [reflexivity|].
    split; [simpl; tauto|].
    destruct (Z.eqb_spec count 1) as [->|Hne]; simpl; congruence.
  - cbv zeta. split; [reflexivity|]. split; [auto|discriminate].
Qed.

(** X15.  [mail_flush_site] and [mail_flush_append] close the stream they
    open: there is one [vstream_fclose] for a connection that succeeded,
    as the last call, and none otherwise, in which case the status is
    [FLUSH_STAT_FAIL] and nothing is sent.  The request sent is the
    request code followed by the site (and the queue id), and a status
    other than [FLUSH_STAT_FAIL] is the one number read as its reply. *)
Theorem flush_requests_close_stream (site queue_id : string) :
  flush_contract VSTREAM MAIL_CLASS_PUBLIC MAIL_SERVICE_FLUSH FLUSH_STAT_FAIL
    ipc "%s %s" [FLUSH_REQ_SEND; site]
    (mail_flush_site VSTREAM MAIL_CLASS_PUBLIC MAIL_SERVICE_FLUSH
       FLUSH_REQ_SEND FLUSH_STAT_FAIL var_ipc_timeout ipc site) /\
  flush_contract VSTREAM MAIL_CLASS_PUBLIC MAIL_SERVICE_FLUSH FLUSH_STAT_FAIL
    ipc "%s %s %s" [FLUSH_REQ_ADD; site; queue_id]
    (mail_flush_append VSTREAM MAIL_CLASS_PUBLIC MAIL_SERVICE_FLUSH
       FLUSH_REQ_ADD FLUSH_STAT_FAIL var_ipc_timeout ipc site queue_id).
Proof.
  split; [unfold mail_flush_site|unfold mail_flush_append];
    apply mail_flush_clnt_contract.
Qed.

End Client.

(** ** The client at work *)

Example flush_known_site :
  Demo.mail_flush_site true "example.com" =
  (0, [CALL_mail_connect nat "public" "flush";
       CALL_vstream_control_timeout nat 7%nat 3600;
       CALL_mail_vprint nat 7%nat "%s %s" ["send"; "example.com"];
       CALL_mail_scan nat 7%nat; CALL_vstream_fclose nat 7%nat]%string).
Proof. reflexivity. Qed.

Lemma flush_requests_close_stream_witness :
  flush_contract nat "public" "flush" (-1) (Demo.ipc true) "%s %s"
    ["send"; "example.com"]%string (Demo.mail_flush_site true "example.com")
  /\
  flush_contract nat "public" "flush" (-1) (Demo.ipc true) "%s %s %s"
    ["add"; "example.com"; "9ABC"]%string
    (mail_flush_append nat "public" "flush" "add" (-1) 3600 (Demo.ipc true)
       "example.com" "9ABC").
Proof.
  apply (flush_requests_close_stream nat "public" "flush" "send" "add" (-1)
           3600 (Demo.ipc true) "example.com" "9ABC").
Defined.

Example flush_service_down :
  Demo.mail_flush_site false "example.com" =
  (-1, [CALL_mail_connect nat "public" "flush"]%string).
Proof. reflexivity. Qed.

End MailFlushProofs.
